(** * neo-trader-insight: indicator engine, CVD store, strategy evaluator
    and all-green tracker

  A shallow embedding of the indicator worker ([calculateRSI],
  [calculateEMA], [calculateMACD], [calculateBollingerBands],
  [updateCVD], [calculateCVDSlope], [calculateCVDTrend]), of the
  strategy components ([checkIntradayConditions],
  [checkScalpingConditions] and their signal-saving blocks) and of
  [StrategyTracker.updateConditions].  Further modules embed the worker's
  message handler, the tracker's readers, the per-symbol configuration
  manager ([StrategyConditionsManager]), the logger ([FileLogger]) and the
  indicator history ([IndicatorHistoryService]).

  Numbers.  A JavaScript [number] is modelled by a canonical rational
  [Qc]: arithmetic is exact, equality is Leibniz equality, and every
  operation computes.  Rounding, infinities and NaN are outside the model.
  [Math.sqrt] is not rational-valued; the Bollinger section takes it as a
  section variable.

  State.  The worker's module-level [cvdHistory : Map<string, number[]>]
  is a [gmap string (list Qc)] threaded through [updateCVD]; the tracker's
  nested object is a [gmap] of [gmap]s; log and sink calls are returned as
  lists of events. *)

From Stdlib Require Import QArith Qcanon Qcabs Lqa.
From stdpp Require Import base numbers list strings gmap.

(** ** JavaScript idioms *)

Module JS.
Local Open Scope Qc_scope.

(** A numeric literal [n/d]. *)
Definition lit (n : Z) (d : positive) : Qc := Q2Qc (n # d).

(** An integer (an array length, a loop index) used as a number. *)
Definition of_nat (n : nat) : Qc := Qc_of_Z (Z.of_nat n).

(** [a[i]] at an index that is in range; every such access of the
    modelled code is in range. *)
Definition get (a : list Qc) (i : nat) : Qc := default 0 (a !! i).

(** [x || d] for [x : number | undefined]: [undefined] and [0] are falsy. *)
Definition or_else (x : option Qc) (d : Qc) : Qc :=
  match x with
  | Some v => if decide (v = 0) then d else v
  | None => d
  end.

(** [x || d] for a number [x]. *)
Definition num_or (x d : Qc) : Qc := or_else (Some x) d.

(** [a.slice(-n)]: the last [n] elements, the whole array when it is
    shorter; [slice(-0)] is [slice(0)], the whole array. *)
Definition slice_last {A} (n : nat) (a : list A) : list A :=
  match n with
  | O => a
  | _ => drop (length a - n) a
  end.

(** [for (let i = lo; i < hi; i++) s = body(i, s)]. *)
Definition for_loop {S} (lo hi : nat) (body : nat → S → S) (s : S) : S :=
  fold_left (λ s i, body i s) (seq lo (hi - lo)) s.

(** [a.reduce((acc, x) => f(acc, x), init)]. *)
Definition reduce {A B} (f : B → A → B) (init : B) (a : list A) : B :=
  fold_left f a init.
End JS.

(** ** The indicator worker *)

Module Worker.
Import JS.
Local Open Scope Qc_scope.

Definition maxHistoryLength : nat := 100.

(** [calculateRSI(prices, period = 14)]. *)
Definition calculateRSI (prices : list Qc) (period : nat) : Qc :=
  if decide (length prices < period + 1)%nat then lit 50 1 else
  let '(gains, losses) :=
    for_loop (length prices - period) (length prices)
      (λ i '(gains, losses),
         let change := get prices i - get prices (i - 1) in
         if decide (0 < change) then (gains + change, losses)
         else (gains, losses + Qcabs change))
      (0, 0) in
  let avgGain := gains / of_nat period in
  let avgLoss := losses / of_nat period in
  if decide (avgLoss = 0) then lit 100 1 else
  let rs := avgGain / avgLoss in
  lit 100 1 - lit 100 1 / (1 + rs).

(** [calculateEMA(prices, period)]. *)
Definition calculateEMA (prices : list Qc) (period : nat) : Qc :=
  if decide (length prices = 0)%nat then 0 else
  let multiplier := lit 2 1 / (of_nat period + 1) in
  for_loop 1 (length prices)
    (λ i ema, (get prices i - ema) * multiplier + ema)
    (get prices 0).

Record MACD := { macd : Qc; signal : Qc; line : Qc }.

(** [calculateMACD(prices)]. *)
Definition calculateMACD (prices : list Qc) : MACD :=
  if decide (length prices < 26)%nat
  then {| macd := 0; signal := 0; line := 0 |} else
  let ema12 := calculateEMA prices 12 in
  let ema26 := calculateEMA prices 26 in
  let macdLine := ema12 - ema26 in
  let signal := macdLine * lit 8 10 in
  let macd := macdLine - signal in
  {| macd := macd; signal := signal; line := macdLine |}.

(** [calculateMA(prices, period)]. *)
Definition calculateMA (prices : list Qc) (period : nat) : Qc :=
  if decide (length prices < period)%nat then or_else (last prices) 0 else
  let sum := reduce (λ acc price, acc + price) 0 (slice_last period prices) in
  sum / of_nat period.

Record Bands := { upper : Qc; lower : Qc; middle : Qc }.

Section Bollinger.
(** [Math.sqrt]. *)
Variable sqrt : Qc → Qc.

(** [calculateBollingerBands(prices, period = 20)];
    [Math.pow(x, 2)] is [x * x]. *)
Definition calculateBollingerBands (prices : list Qc) (period : nat) : Bands :=
  if decide (length prices < period)%nat then
    let currentPrice := or_else (last prices) 0 in
    {| upper := currentPrice; lower := currentPrice; middle := currentPrice |}
  else
  let recentPrices := slice_last period prices in
  let middle := reduce (λ sum price, sum + price) 0 recentPrices / of_nat period in
  let variance :=
    reduce (λ sum price, sum + (price - middle) * (price - middle)) 0 recentPrices
    / of_nat period in
  let stdDev := sqrt variance in
  let upper := middle + stdDev * lit 2 1 in
  let lower := middle - stdDev * lit 2 1 in
  {| upper := upper; lower := lower; middle := middle |}.
End Bollinger.

(** [calculateVolumeSpike(volumes, period = 20)]. *)
Definition calculateVolumeSpike (volumes : list Qc) (period : nat) : Qc * bool :=
  if decide (length volumes < period)%nat
  then (or_else (last volumes) 0, false) else
  let recentVolumes := slice_last period volumes in
  let avgVolume := reduce (λ sum vol, sum + vol) 0 recentVolumes / of_nat period in
  let currentVolume := get volumes (length volumes - 1) in
  (avgVolume, bool_decide (avgVolume * lit 2 1 < currentVolume)).

(** The body shared by both branches of [updateCVD]:
    [if (currentPrice > prevPrice) cvd += volume;
     else if (currentPrice < prevPrice) cvd -= volume]. *)
Definition cvd_step (prevPrice currentPrice volume cvd : Qc) : Qc :=
  if decide (prevPrice < currentPrice) then cvd + volume
  else if decide (currentPrice < prevPrice) then cvd - volume
  else cvd.

(** [cvdValues.splice(0, cvdValues.length - maxHistoryLength)] under its
    guard [cvdValues.length > maxHistoryLength]. *)
Definition trim (cvdValues : list Qc) : list Qc :=
  if decide (maxHistoryLength < length cvdValues)%nat
  then drop (length cvdValues - maxHistoryLength) cvdValues
  else cvdValues.

(** [updateCVD(symbol, priceData, volumeData)]: the returned number and
    the new [cvdHistory]. *)
Definition updateCVD (cvdHistory : gmap string (list Qc)) (symbol : string)
    (priceData volumeData : list Qc) : Qc * gmap string (list Qc) :=
  if decide (length priceData < 2 ∨ length volumeData < 2)%nat
  then (0, cvdHistory) else
  let cvdValues := default [] (cvdHistory !! symbol) in
  let cvdValues :=
    if decide (length cvdValues = 0)%nat then
      snd (for_loop 1 (length priceData `min` length volumeData)
             (λ i '(runningCVD, cvdValues),
                let prevPrice := get priceData (i - 1) in
                let currentPrice := get priceData i in
                let volume := get volumeData i in
                let runningCVD := cvd_step prevPrice currentPrice volume runningCVD in
                (runningCVD, cvdValues ++ [runningCVD]))
             (0, cvdValues))
    else
      let prevPrice := get priceData (length priceData - 2) in
      let currentPrice := get priceData (length priceData - 1) in
      let volume := get volumeData (length volumeData - 1) in
      let lastCVD := or_else (last cvdValues) 0 in
      let newCVD := cvd_step prevPrice currentPrice volume lastCVD in
      cvdValues ++ [newCVD] in
  let cvdValues := trim cvdValues in
  (or_else (last cvdValues) 0, <[symbol := cvdValues]> cvdHistory).

(** [calculateCVDSlope(symbol, lookbackPeriod = 5)]. *)
Definition calculateCVDSlope (cvdHistory : gmap string (list Qc))
    (symbol : string) (lookbackPeriod : nat) : Qc :=
  let cvdValues := default [] (cvdHistory !! symbol) in
  if decide (length cvdValues < lookbackPeriod + 1)%nat then 0 else
  let recentCVD := slice_last (lookbackPeriod + 1) cvdValues in
  if decide (length recentCVD < 2)%nat then 0 else
  let n := length recentCVD in
  let '(sumX, sumY, sumXY, sumX2) :=
    for_loop 0 n
      (λ i '(sumX, sumY, sumXY, sumX2),
         (sumX + of_nat i, sumY + get recentCVD i,
          sumXY + of_nat i * get recentCVD i, sumX2 + of_nat i * of_nat i))
      (0, 0, 0, 0) in
  (of_nat n * sumXY - sumX * sumY) / (of_nat n * sumX2 - sumX * sumX).

Inductive Trend := bullish | bearish | neutral.

(** [calculateCVDTrend(symbol, lookbackPeriod = 10)]. *)
Definition calculateCVDTrend (cvdHistory : gmap string (list Qc))
    (symbol : string) (lookbackPeriod : nat) : Trend :=
  let cvdValues := default [] (cvdHistory !! symbol) in
  if decide (length cvdValues < lookbackPeriod)%nat then neutral else
  let recentCVD := slice_last lookbackPeriod cvdValues in
  let firstValue := get recentCVD 0 in
  let lastValue := get recentCVD (length recentCVD - 1) in
  let trendStrength := (lastValue - firstValue) / Qcabs (num_or firstValue 1) in
  if decide (lit 1 10 < trendStrength) then bullish
  else if decide (trendStrength < - lit 1 10) then bearish
  else neutral.
End Worker.

(** ** The all-green tracker ([StrategyTracker]) *)

Module Tracker.
(** [interface StrategyConditions { [key: string]: boolean }]: the keys in
    insertion order, the order [Object.values] walks them in. *)
Abbreviation StrategyConditions := (list (string * bool)).

Record StrategyState := {
  previousAllGreen : bool;
  currentConditions : StrategyConditions
}.

(** [fileLogger.logAllGreen(strategy, symbol)]. *)
Inductive LogEvent := AllGreen (strategy symbol : string).

(** [Object.values(conditions).every(Boolean)]. *)
Definition every (conditions : StrategyConditions) : bool :=
  forallb snd conditions.

(** [updateConditions(symbol, strategy, conditions)]: the new
    [this.state] and the log calls made. *)
Definition updateConditions (state : gmap string (gmap string StrategyState))
    (symbol strategy : string) (conditions : StrategyConditions)
    : gmap string (gmap string StrategyState) * list LogEvent :=
  let state :=
    match state !! symbol with
    | None => <[symbol := ∅]> state
    | Some _ => state
    end in
  let ofSymbol := default ∅ (state !! symbol) in
  let fresh := {| previousAllGreen := false; currentConditions := [] |} in
  let ofSymbol :=
    match ofSymbol !! strategy with
    | None => <[strategy := fresh]> ofSymbol
    | Some _ => ofSymbol
    end in
  let strategyState := default fresh (ofSymbol !! strategy) in
  let allGreen := every conditions in
  let logged :=
    if allGreen && negb (previousAllGreen strategyState)
    then [AllGreen strategy symbol] else [] in
  let strategyState :=
    {| previousAllGreen := allGreen; currentConditions := conditions |} in
  (<[symbol := <[strategy := strategyState]> ofSymbol]> state, logged).

(** [isAllGreen(symbol, strategy)]. *)
Definition isAllGreen (state : gmap string (gmap string StrategyState))
    (symbol strategy : string) : bool :=
  match state !! symbol ≫= (.!! strategy) with
  | Some s => previousAllGreen s
  | None => false
  end.

(** A call of [updateConditions]: symbol, strategy, conditions. *)
Abbreviation Call := (string * string * StrategyConditions)%type.



End Tracker.

(** ** The strategy components *)

Module Strategy.
Import JS.
Local Open Scope Qc_scope.

Record StrategyConditionConfig := {
  volumeMultiplier : Qc;
  rsiMin : Qc;
  rsiMax : Qc;
  useMA5 : bool;
  useMA8 : bool;
  useMA13 : bool;
  useMA20 : bool;
  useMA21 : bool;
  useMA34 : bool;
  useMA50 : bool;
  macdLineAboveSignal : bool;
  macdLineAboveZero : bool;
  bollingerMultiplier : Qc;
  useBollingerUpper : bool;
  useBollingerLower : bool;
  useBollingerMiddle : bool;
  cvdAboveZero : bool;
  cvdSlopePositive : bool;
  cvdLookbackCandles : Qc;
  takeProfitPercent : Qc;
  stopLossPercent : Qc
}.

(** Modelled from the spec: the [IndicatorValues] interface of
    [utils/indicators], which is not among the sources.  The fields are
    those of the specification's IndicatorSnapshot, under the names the
    worker's [onmessage] gives them in the [indicators] object it posts. *)
Record IndicatorValues := {
  rsi : Qc;
  macd : Worker.MACD;
  ma5 : Qc;
  ma8 : Qc;
  ma13 : Qc;
  ma20 : Qc;
  ma21 : Qc;
  ma34 : Qc;
  ma50 : Qc;
  bollingerUpper : Qc;
  bollingerLower : Qc;
  bollingerMiddle : Qc;
  volume : Qc;
  avgVolume : Qc;
  volumeSpike : bool;
  price : Qc;
  openInterest : Qc;
  cvd : Qc;
  cvdTrend : Worker.Trend;
  cvdSlope : Qc
}.

Inductive Side := LONG | WAIT.

(** What [checkIntradayConditions] and [checkScalpingConditions] return. *)
Record Check := {
  entryPrice : Qc;
  takeProfit : Qc;
  stopLoss : Qc;
  conditions : Tracker.StrategyConditions;
  allConditionsMet : bool;
  signal : Side
}.

Section Conditions.
Variable config : StrategyConditionConfig.
Variable currentPrice : Qc.
Variable indicators : IndicatorValues.

Definition bollingerCondition : bool :=
  if useBollingerLower config then
    let bollingerLowerValue := num_or (bollingerLower indicators) 0 in
    bool_decide (currentPrice ≤ bollingerLowerValue * bollingerMultiplier config)
  else true.

Definition macdCondition : bool :=
  if macdLineAboveSignal config then
    let macdLineValue := num_or (Worker.line (macd indicators)) 0 in
    let macdSignalValue := num_or (Worker.signal (macd indicators)) 0 in
    let macdCondition := bool_decide (macdSignalValue < macdLineValue) in
    if macdLineAboveZero config
    then macdCondition && bool_decide (0 < macdLineValue)
    else macdCondition
  else true.

Definition rsiCondition : bool :=
  let rsiValue := num_or (rsi indicators) 0 in
  bool_decide (rsiMin config ≤ rsiValue) && bool_decide (rsiValue ≤ rsiMax config).

Definition maConditionIntraday : bool :=
  if useMA20 config && useMA34 config then
    let ma20Value := num_or (ma20 indicators) 0 in
    let ma34Value := num_or (ma34 indicators) 0 in
    bool_decide (ma34Value < currentPrice) && bool_decide (ma34Value < ma20Value)
  else true.

Definition maConditionScalping : bool :=
  if useMA8 config && useMA21 config then
    let ma8Value := num_or (ma8 indicators) 0 in
    let ma21Value := num_or (ma21 indicators) 0 in
    bool_decide (ma21Value < ma8Value)
  else true.

Definition volumeCondition : bool :=
  let volumeValue := num_or (volume indicators) 0 in
  let avgVolumeValue := num_or (avgVolume indicators) 0 in
  bool_decide (avgVolumeValue * volumeMultiplier config < volumeValue).

Definition cvdCondition : bool :=
  if cvdSlopePositive config then
    let cvdSlopeValue := num_or (cvdSlope indicators) 0 in
    let cvdCondition := bool_decide (0 < cvdSlopeValue) in
    if cvdAboveZero config then
      let cvdValue := num_or (cvd indicators) 0 in
      cvdCondition && bool_decide (0 < cvdValue)
    else cvdCondition
  else true.

Definition check (conditions : Tracker.StrategyConditions) : Check :=
  let entryPrice := currentPrice in
  let takeProfit := entryPrice * (1 + takeProfitPercent config / lit 100 1) in
  let stopLoss := entryPrice * (1 - stopLossPercent config / lit 100 1) in
  let allConditionsMet := Tracker.every conditions in
  {| entryPrice := entryPrice; takeProfit := takeProfit; stopLoss := stopLoss;
     conditions := conditions; allConditionsMet := allConditionsMet;
     signal := if allConditionsMet then LONG else WAIT |}.

(** [checkIntradayConditions()]. *)
Definition checkIntradayConditions : Check :=
  check [("bollingerBands", bollingerCondition); ("macd", macdCondition);
         ("rsi", rsiCondition); ("movingAverages", maConditionIntraday);
         ("volume", volumeCondition); ("cvd", cvdCondition)]%string.

(** [checkScalpingConditions()]. *)
Definition checkScalpingConditions : Check :=
  check [("rsi", rsiCondition); ("movingAverages", maConditionScalping);
         ("bollingerBands", bollingerCondition); ("macd", macdCondition);
         ("volume", volumeCondition); ("cvd", cvdCondition)]%string.
End Conditions.

Definition DEFAULT_INTRADAY_CONDITIONS : StrategyConditionConfig := {|
  volumeMultiplier := lit 12 10;
  rsiMin := lit 35 1;
  rsiMax := lit 65 1;
  useMA5 := false;
  useMA8 := false;
  useMA13 := false;
  useMA20 := true;
  useMA21 := false;
  useMA34 := true;
  useMA50 := false;
  macdLineAboveSignal := true;
  macdLineAboveZero := false;
  bollingerMultiplier := lit 101 100;
  useBollingerUpper := false;
  useBollingerLower := true;
  useBollingerMiddle := false;
  cvdAboveZero := true;
  cvdSlopePositive := true;
  cvdLookbackCandles := lit 10 1;
  takeProfitPercent := lit 2 1;
  stopLossPercent := lit 1 1
|}.

Definition DEFAULT_SCALPING_CONDITIONS : StrategyConditionConfig := {|
  volumeMultiplier := lit 15 10;
  rsiMin := lit 0 1;
  rsiMax := lit 40 1;
  useMA5 := false;
  useMA8 := true;
  useMA13 := false;
  useMA20 := false;
  useMA21 := true;
  useMA34 := false;
  useMA50 := false;
  macdLineAboveSignal := true;
  macdLineAboveZero := false;
  bollingerMultiplier := lit 101 100;
  useBollingerUpper := false;
  useBollingerLower := true;
  useBollingerMiddle := false;
  cvdAboveZero := false;
  cvdSlopePositive := true;
  cvdLookbackCandles := lit 5 1;
  takeProfitPercent := lit 5 10;
  stopLossPercent := lit 25 100
|}.

(** The record handed to [signalPersistence.saveSignal], a sink that is not
    among the sources: a call of it is an event.  The record's [id] and
    [timestamp] come from the clock and its copy of the indicators plays
    no part below, so the three are left out. *)
Record Signal := {
  sig_symbol : string;
  sig_strategy : string;
  sig_signal : Side;
  sig_entryPrice : Qc;
  sig_takeProfit : Qc;
  sig_stopLoss : Qc;
  sig_conditions : Tracker.StrategyConditions;
  sig_active : bool
}.

(** [if (strategy.allConditionsMet) { ... signalPersistence.saveSignal(signal) }]:
    the calls of [saveSignal] one render makes. *)
Definition saveSignalBlock (symbol strategyName : string) (strategy : Check)
    : list Signal :=
  if allConditionsMet strategy then
    [{| sig_symbol := symbol; sig_strategy := strategyName;
        sig_signal := signal strategy;
        sig_entryPrice := entryPrice strategy;
        sig_takeProfit := takeProfit strategy;
        sig_stopLoss := stopLoss strategy;
        sig_conditions := conditions strategy;
        sig_active := true |}]
  else [].

(** One render of a component: the configuration read for the symbol, the
    current price and the indicators. *)
Abbreviation Render := (StrategyConditionConfig * Qc * IndicatorValues)%type.

(** [IntradayStrategy({symbol, currentPrice, indicators})]: the
    [saveSignal] calls of the render. *)
Definition IntradayStrategy (symbol : string) (r : Render) : list Signal :=
  let strategy := checkIntradayConditions r.1.1 r.1.2 r.2 in
  saveSignalBlock symbol "intraday" strategy.

(** [ScalpingStrategy({symbol, currentPrice, indicators})]: the
    [saveSignal] calls of the render, and the effect that runs after it,
    [strategyTracker.updateConditions(symbol, 'scalping', strategy.conditions)]
    (its dependency [strategy.conditions] is a new object at every
    render, so it runs after every render). *)
Definition ScalpingStrategy (state : gmap string (gmap string Tracker.StrategyState))
    (symbol : string) (r : Render)
    : gmap string (gmap string Tracker.StrategyState)
      * (list Signal * list Tracker.LogEvent) :=
  let strategy := checkScalpingConditions r.1.1 r.1.2 r.2 in
  let saved := saveSignalBlock symbol "scalping" strategy in
  let '(state, logged) :=
    Tracker.updateConditions state symbol "scalping" (conditions strategy) in
  (state, (saved, logged)).




End Strategy.

(** ** Ticks arriving one at a time *)

Module Feed.
Import JS.
Local Open Scope Qc_scope.

(** A (price, volume) sample. *)
Abbreviation Tick := (Qc * Qc)%type.

Definition prices (ticks : list Tick) : list Qc := ticks.*1.
Definition volumes (ticks : list Tick) : list Qc := ticks.*2.

(** The histories a message carries once [k] ticks have arrived, when the
    sender retains the latest [window] samples. *)
Definition history (window k : nat) (ticks : list Tick) : list Tick :=
  let arrived := take k ticks in
  drop (length arrived - window) arrived.

(** One [updateCVD] call per arriving tick, each on the histories retained
    at that moment. *)
Definition feed (window : nat) (cvdHistory : gmap string (list Qc))
    (symbol : string) (ticks : list Tick) : gmap string (list Qc) :=
  for_loop 1 (length ticks + 1)
    (λ k cvdHistory,
       let h := history window k ticks in
       (Worker.updateCVD cvdHistory symbol (prices h) (volumes h)).2)
    cvdHistory.

(** A single [updateCVD] call on the whole sequence. *)
Definition backfill (cvdHistory : gmap string (list Qc))
    (symbol : string) (ticks : list Tick) : gmap string (list Qc) :=
  (Worker.updateCVD cvdHistory symbol (prices ticks) (volumes ticks)).2.
End Feed.

(** ** The specification's definitions

  These follow the words of the specification, not the code; the theorems
  below compare the two. *)

Module Spec.
Import JS.
Local Open Scope Qc_scope.

Definition sum (l : list Qc) : Qc := foldr Qcplus 0 l.

Definition mean (l : list Qc) : Qc := sum l / of_nat (length l).

(** The last [n] elements of a list that has at least [n]. *)
Definition last_n {A} (n : nat) (l : list A) : list A := drop (length l - n) l.

(** *** Edge detection *)









(** *** Cumulative volume delta *)

(** "value[i] = value[i-1] + volume[i] if price[i] > price[i-1],
     − volume[i] if price[i] < price[i-1], unchanged if equal." *)
Definition follows_rule (previous prevPrice price volume value : Qc) : Prop :=
  (prevPrice < price → value = previous + volume) ∧
  (price < prevPrice → value = previous - volume) ∧
  (price = prevPrice → value = previous).

(** The running value after each tick but the first, starting from 0. *)
Fixpoint cvd_from (prevPrice previous : Qc) (ticks : list Feed.Tick) : list Qc :=
  match ticks with
  | [] => []
  | (price, volume) :: ticks =>
      let value :=
        match prevPrice ?= price with
        | Lt => previous + volume
        | Gt => previous - volume
        | Eq => previous
        end in
      value :: cvd_from price value ticks
  end.

Definition cvd_series (ticks : list Feed.Tick) : list Qc :=
  match ticks with
  | [] => []
  | (price, _) :: ticks => cvd_from price 0 ticks
  end.

(** The stored series [s] holds the values of the last [length s] ticks:
    its point [j] belongs to tick [first_tick ticks s + j]. *)
Definition first_tick (ticks : list Feed.Tick) (s : list Qc) : nat :=
  length ticks - length s.

(** Every point but the first follows the rule from the point before it. *)
Definition consecutive_rule (ticks : list Feed.Tick) (s : list Qc) : Prop :=
  ∀ j previous value,
    s !! j = Some previous → s !! S j = Some value →
    let i := (first_tick ticks s + S j)%nat in
    follows_rule previous (get (Feed.prices ticks) (i - 1))
      (get (Feed.prices ticks) i) (get (Feed.volumes ticks) i) value.

(** The first point follows the rule from an anchor of 0. *)
Definition first_rule (ticks : list Feed.Tick) (s : list Qc) : Prop :=
  ∀ value,
    s !! 0%nat = Some value →
    let i := first_tick ticks s in
    follows_rule 0 (get (Feed.prices ticks) (i - 1))
      (get (Feed.prices ticks) i) (get (Feed.volumes ticks) i) value.

(** The first point follows the rule from [evicted], the last value the
    store has dropped. *)
Definition evicted_rule (ticks : list Feed.Tick) (s : list Qc) (evicted : Qc) : Prop :=
  ∀ value,
    s !! 0%nat = Some value →
    let i := first_tick ticks s in
    follows_rule evicted (get (Feed.prices ticks) (i - 1))
      (get (Feed.prices ticks) i) (get (Feed.volumes ticks) i) value.

(** The relative change from the first to the last of the last [n]
    values, over |first|, or over 1 when the first is 0. *)
Definition relative_change (n : nat) (s : list Qc) : Qc :=
  let first := get s (length s - n) in
  let last := get s (length s - 1) in
  (last - first) / Qcabs (if decide (first = 0) then 1 else first).

(** *** Indicators *)

(** "Seed with the first sample, then apply multiplier 2/(period+1)
    across all later samples in order; 0 for an empty input." *)
Fixpoint ema_from (multiplier ema : Qc) (later : list Qc) : Qc :=
  match later with
  | [] => ema
  | price :: later => ema_from multiplier ((price - ema) * multiplier + ema) later
  end.

Definition EMA (period : nat) (prices : list Qc) : Qc :=
  match prices with
  | [] => 0
  | first :: later => ema_from (lit 2 1 / (of_nat period + 1)) first later
  end.

(** The changes between consecutive prices. *)
Definition deltas (prices : list Qc) : list Qc :=
  zip_with (λ price previous, price - previous) (tail prices) prices.

Definition avgGain (period : nat) (prices : list Qc) : Qc :=
  sum (List.filter (λ d, bool_decide (0 < d)) (last_n period (deltas prices)))
  / of_nat period.

Definition avgLoss (period : nat) (prices : list Qc) : Qc :=
  sum (map Qcabs (List.filter (λ d, bool_decide (d < 0)) (last_n period (deltas prices))))
  / of_nat period.

(** *** Strategy conditions *)

(** "Disabling all optional condition flags": the flags the intraday
    evaluator reads, and those the scalping evaluator reads. *)
Definition optional_flags_off_intraday (config : Strategy.StrategyConditionConfig) : Prop :=
  Strategy.useBollingerLower config = false
  ∧ Strategy.macdLineAboveSignal config = false
  ∧ Strategy.useMA20 config = false
  ∧ Strategy.useMA34 config = false
  ∧ Strategy.cvdSlopePositive config = false.

Definition optional_flags_off_scalping (config : Strategy.StrategyConditionConfig) : Prop :=
  Strategy.useBollingerLower config = false
  ∧ Strategy.macdLineAboveSignal config = false
  ∧ Strategy.useMA8 config = false
  ∧ Strategy.useMA21 config = false
  ∧ Strategy.cvdSlopePositive config = false.

(** "rsiMin ≤ RSI ≤ rsiMax". *)
Definition rsi_in_band (config : Strategy.StrategyConditionConfig)
    (indicators : Strategy.IndicatorValues) : Prop :=
  Strategy.rsiMin config ≤ Strategy.rsi indicators ≤ Strategy.rsiMax config.

(** "volume > avgVolume × multiplier". *)
Definition volume_above (config : Strategy.StrategyConditionConfig)
    (indicators : Strategy.IndicatorValues) : Prop :=
  Strategy.avgVolume indicators * Strategy.volumeMultiplier config
  < Strategy.volume indicators.

#[global] Instance rsi_in_band_dec config indicators :
  Decision (rsi_in_band config indicators).
Proof. unfold rsi_in_band. apply _. Defined.

#[global] Instance volume_above_dec config indicators :
  Decision (volume_above config indicators).
Proof. unfold volume_above. apply _. Defined.

(** The population standard deviation, for a given square root. *)
Definition population_stddev (sqrt : Qc → Qc) (l : list Qc) : Qc :=
  sqrt (mean (map (λ x, (x - mean l) * (x - mean l)) l)).
End Spec.

(** ** Sample inputs *)

Module Samples.
Import JS.
Local Open Scope Qc_scope.

(** Indicators that satisfy every condition of the default intraday
    configuration at a price of 100 when [volume] is 200, and fail the
    volume condition alone when it is 100. *)
Definition snapshot (volume : Qc) : Strategy.IndicatorValues := {|
  Strategy.rsi := lit 50 1;
  Strategy.macd := {| Worker.macd := lit 2 10; Worker.signal := lit 8 10; Worker.line := 1 |};
  Strategy.ma5 := lit 100 1;
  Strategy.ma8 := lit 100 1;
  Strategy.ma13 := lit 100 1;
  Strategy.ma20 := lit 99 1;
  Strategy.ma21 := lit 99 1;
  Strategy.ma34 := lit 98 1;
  Strategy.ma50 := lit 97 1;
  Strategy.bollingerUpper := lit 104 1;
  Strategy.bollingerLower := lit 100 1;
  Strategy.bollingerMiddle := lit 102 1;
  Strategy.volume := volume;
  Strategy.avgVolume := lit 100 1;
  Strategy.volumeSpike := false;
  Strategy.price := lit 100 1;
  Strategy.openInterest := volume * lit 1 10;
  Strategy.cvd := lit 10 1;
  Strategy.cvdTrend := Worker.neutral;
  Strategy.cvdSlope := 1
|}.

Definition met : Strategy.Render :=
  (Strategy.DEFAULT_INTRADAY_CONDITIONS, lit 100 1, snapshot (lit 200 1)).


(** [n] ticks with prices 0, 1, 2, ... and volume 1 each. *)
Definition rising (n : nat) : list Feed.Tick :=
  map (λ i, (of_nat i, 1)) (seq 0 n).
End Samples.

(** ** The worker's message handler *)

Module Handler.
Import JS.
Local Open Scope Qc_scope.

Section OnMessage.
(** [Math.sqrt]. *)
Variable sqrt : Qc → Qc.

(** [self.onmessage] for a [CALCULATE_INDICATORS] message: the new
    [cvdHistory] and the [indicators] object of the response.  The
    [processingTime] of the response comes from the clock and is left out. *)
Definition onmessage (cvdHistory : gmap string (list Qc)) (symbol : string)
    (priceData volumeData : list Qc) (currentPrice : Qc)
    : gmap string (list Qc) * Strategy.IndicatorValues :=
  let rsi := Worker.calculateRSI priceData 14 in
  let macd := Worker.calculateMACD priceData in
  let ma5 := Worker.calculateEMA priceData 5 in
  let ma8 := Worker.calculateEMA priceData 8 in
  let ma13 := Worker.calculateEMA priceData 13 in
  let ma20 := Worker.calculateEMA priceData 20 in
  let ma21 := Worker.calculateEMA priceData 21 in
  let ma34 := Worker.calculateEMA priceData 34 in
  let ma50 := Worker.calculateEMA priceData 50 in
  let bollinger := Worker.calculateBollingerBands sqrt priceData 20 in
  let volumeAnalysis := Worker.calculateVolumeSpike volumeData 20 in
  let '(cvd, cvdHistory) := Worker.updateCVD cvdHistory symbol priceData volumeData in
  let cvdSlope := Worker.calculateCVDSlope cvdHistory symbol 5 in
  let cvdTrend := Worker.calculateCVDTrend cvdHistory symbol 10 in
  let currentVolume := or_else (last volumeData) 0 in
  (cvdHistory,
   {| Strategy.rsi := rsi;
      Strategy.macd := macd;
      Strategy.ma5 := ma5;
      Strategy.ma8 := ma8;
      Strategy.ma13 := ma13;
      Strategy.ma20 := ma20;
      Strategy.ma21 := ma21;
      Strategy.ma34 := ma34;
      Strategy.ma50 := ma50;
      Strategy.bollingerUpper := Worker.upper bollinger;
      Strategy.bollingerLower := Worker.lower bollinger;
      Strategy.bollingerMiddle := Worker.middle bollinger;
      Strategy.volume := currentVolume;
      Strategy.avgVolume := volumeAnalysis.1;
      Strategy.volumeSpike := volumeAnalysis.2;
      Strategy.price := currentPrice;
      Strategy.openInterest := currentVolume * lit 1 10;
      Strategy.cvd := cvd;
      Strategy.cvdTrend := cvdTrend;
      Strategy.cvdSlope := cvdSlope |}).
End OnMessage.
End Handler.

(** ** Reading the tracker *)

Module TrackerReads.
(** [getConditions(symbol, strategy)] of [StrategyTracker]. *)
Definition getConditions (state : gmap string (gmap string Tracker.StrategyState))
    (symbol strategy : string) : Tracker.StrategyConditions :=
  match state !! symbol ≫= (.!! strategy) with
  | Some s => Tracker.currentConditions s
  | None => []
  end.
End TrackerReads.

(** ** The per-symbol strategy configuration ([StrategyConditionsManager]) *)

Module ConditionsManager.
Import JS Strategy.

(** ['scalping' | 'intraday' | 'pump']. *)
Inductive StrategyKind := scalping | intraday | pump.

Definition DEFAULT_PUMP_CONDITIONS : StrategyConditionConfig := {|
  volumeMultiplier := lit 2 1;
  rsiMin := lit 50 1;
  rsiMax := lit 85 1;
  useMA5 := true;
  useMA8 := false;
  useMA13 := true;
  useMA20 := false;
  useMA21 := false;
  useMA34 := false;
  useMA50 := false;
  macdLineAboveSignal := true;
  macdLineAboveZero := true;
  bollingerMultiplier := lit 1 1;
  useBollingerUpper := false;
  useBollingerLower := false;
  useBollingerMiddle := true;
  cvdAboveZero := true;
  cvdSlopePositive := true;
  cvdLookbackCandles := lit 5 1;
  takeProfitPercent := lit 3 1;
  stopLossPercent := lit 1 1
|}.

(** [getDefaultConditions(strategy)]. *)
Definition getDefaultConditions (strategy : StrategyKind) : StrategyConditionConfig :=
  match strategy with
  | scalping => DEFAULT_SCALPING_CONDITIONS
  | intraday => DEFAULT_INTRADAY_CONDITIONS
  | pump => DEFAULT_PUMP_CONDITIONS
  end.

(** The value of [TradingPairStrategyConditions] at a symbol. *)
Record SymbolConditions := {
  of_scalping : StrategyConditionConfig;
  of_intraday : StrategyConditionConfig;
  of_pump : StrategyConditionConfig
}.

(** [conditions[symbol][strategy]]. *)
Definition select (strategy : StrategyKind) (c : SymbolConditions)
    : StrategyConditionConfig :=
  match strategy with
  | scalping => of_scalping c
  | intraday => of_intraday c
  | pump => of_pump c
  end.

(** [conditions[symbol][strategy] = config]. *)
Definition assign (strategy : StrategyKind) (config : StrategyConditionConfig)
    (c : SymbolConditions) : SymbolConditions :=
  match strategy with
  | scalping => {| of_scalping := config; of_intraday := of_intraday c; of_pump := of_pump c |}
  | intraday => {| of_scalping := of_scalping c; of_intraday := config; of_pump := of_pump c |}
  | pump => {| of_scalping := of_scalping c; of_intraday := of_intraday c; of_pump := config |}
  end.

(** [Partial<StrategyConditionConfig>]: each field present or absent. *)
Record PartialConfig := {
  p_volumeMultiplier : option Qc;
  p_rsiMin : option Qc;
  p_rsiMax : option Qc;
  p_useMA5 : option bool;
  p_useMA8 : option bool;
  p_useMA13 : option bool;
  p_useMA20 : option bool;
  p_useMA21 : option bool;
  p_useMA34 : option bool;
  p_useMA50 : option bool;
  p_macdLineAboveSignal : option bool;
  p_macdLineAboveZero : option bool;
  p_bollingerMultiplier : option Qc;
  p_useBollingerUpper : option bool;
  p_useBollingerLower : option bool;
  p_useBollingerMiddle : option bool;
  p_cvdAboveZero : option bool;
  p_cvdSlopePositive : option bool;
  p_cvdLookbackCandles : option Qc;
  p_takeProfitPercent : option Qc;
  p_stopLossPercent : option Qc
}.

(** [{ ...old, ...conditions }]. *)
Definition spread (old : StrategyConditionConfig) (conditions : PartialConfig)
    : StrategyConditionConfig := {|
  volumeMultiplier := default (volumeMultiplier old) (p_volumeMultiplier conditions);
  rsiMin := default (rsiMin old) (p_rsiMin conditions);
  rsiMax := default (rsiMax old) (p_rsiMax conditions);
  useMA5 := default (useMA5 old) (p_useMA5 conditions);
  useMA8 := default (useMA8 old) (p_useMA8 conditions);
  useMA13 := default (useMA13 old) (p_useMA13 conditions);
  useMA20 := default (useMA20 old) (p_useMA20 conditions);
  useMA21 := default (useMA21 old) (p_useMA21 conditions);
  useMA34 := default (useMA34 old) (p_useMA34 conditions);
  useMA50 := default (useMA50 old) (p_useMA50 conditions);
  macdLineAboveSignal := default (macdLineAboveSignal old) (p_macdLineAboveSignal conditions);
  macdLineAboveZero := default (macdLineAboveZero old) (p_macdLineAboveZero conditions);
  bollingerMultiplier := default (bollingerMultiplier old) (p_bollingerMultiplier conditions);
  useBollingerUpper := default (useBollingerUpper old) (p_useBollingerUpper conditions);
  useBollingerLower := default (useBollingerLower old) (p_useBollingerLower conditions);
  useBollingerMiddle := default (useBollingerMiddle old) (p_useBollingerMiddle conditions);
  cvdAboveZero := default (cvdAboveZero old) (p_cvdAboveZero conditions);
  cvdSlopePositive := default (cvdSlopePositive old) (p_cvdSlopePositive conditions);
  cvdLookbackCandles := default (cvdLookbackCandles old) (p_cvdLookbackCandles conditions);
  takeProfitPercent := default (takeProfitPercent old) (p_takeProfitPercent conditions);
  stopLossPercent := default (stopLossPercent old) (p_stopLossPercent conditions)
|}.

(** A full configuration given as a [Partial]. *)
Definition whole (config : StrategyConditionConfig) : PartialConfig := {|
  p_volumeMultiplier := Some (volumeMultiplier config);
  p_rsiMin := Some (rsiMin config);
  p_rsiMax := Some (rsiMax config);
  p_useMA5 := Some (useMA5 config);
  p_useMA8 := Some (useMA8 config);
  p_useMA13 := Some (useMA13 config);
  p_useMA20 := Some (useMA20 config);
  p_useMA21 := Some (useMA21 config);
  p_useMA34 := Some (useMA34 config);
  p_useMA50 := Some (useMA50 config);
  p_macdLineAboveSignal := Some (macdLineAboveSignal config);
  p_macdLineAboveZero := Some (macdLineAboveZero config);
  p_bollingerMultiplier := Some (bollingerMultiplier config);
  p_useBollingerUpper := Some (useBollingerUpper config);
  p_useBollingerLower := Some (useBollingerLower config);
  p_useBollingerMiddle := Some (useBollingerMiddle config);
  p_cvdAboveZero := Some (cvdAboveZero config);
  p_cvdSlopePositive := Some (cvdSlopePositive config);
  p_cvdLookbackCandles := Some (cvdLookbackCandles config);
  p_takeProfitPercent := Some (takeProfitPercent config);
  p_stopLossPercent := Some (stopLossPercent config)
|}.

(** [saveConditions()]: the object handed to
    [localStorage.setItem(STORAGE_KEY, JSON.stringify(...))]. *)
Inductive Write := Saved (conditions : gmap string SymbolConditions).

(** [initializeSymbol(symbol)]. *)
Definition initializeSymbol (conditions : gmap string SymbolConditions) (symbol : string)
    : gmap string SymbolConditions * list Write :=
  let conditions :=
    <[symbol := {| of_scalping := DEFAULT_SCALPING_CONDITIONS;
                   of_intraday := DEFAULT_INTRADAY_CONDITIONS;
                   of_pump := DEFAULT_PUMP_CONDITIONS |}]> conditions in
  (conditions, [Saved conditions]).

(** [if (!this.conditions[symbol]) this.initializeSymbol(symbol)], which
    opens every public method. *)
Definition ensure (conditions : gmap string SymbolConditions) (symbol : string)
    : gmap string SymbolConditions * list Write :=
  match conditions !! symbol with
  | None => initializeSymbol conditions symbol
  | Some _ => (conditions, [])
  end.

(** [this.conditions[symbol]] once [ensure] has run. *)
Definition at_symbol (conditions : gmap string SymbolConditions) (symbol : string)
    : SymbolConditions :=
  default {| of_scalping := DEFAULT_SCALPING_CONDITIONS;
             of_intraday := DEFAULT_INTRADAY_CONDITIONS;
             of_pump := DEFAULT_PUMP_CONDITIONS |} (conditions !! symbol).

(** [getConditions(symbol, strategy)]: the new [this.conditions], the
    writes made and the configuration returned. *)
Definition getConditions (conditions : gmap string SymbolConditions)
    (symbol : string) (strategy : StrategyKind)
    : gmap string SymbolConditions * list Write * StrategyConditionConfig :=
  let '(conditions, writes) := ensure conditions symbol in
  (conditions, writes, select strategy (at_symbol conditions symbol)).

(** [updateConditions(symbol, strategy, conditions)]. *)
Definition updateConditions (conditions : gmap string SymbolConditions)
    (symbol : string) (strategy : StrategyKind) (partial : PartialConfig)
    : gmap string SymbolConditions * list Write :=
  let '(conditions, writes) := ensure conditions symbol in
  let ofSymbol := at_symbol conditions symbol in
  let conditions :=
    <[symbol := assign strategy (spread (select strategy ofSymbol) partial) ofSymbol]>
      conditions in
  (conditions, writes ++ [Saved conditions]).

(** [resetConditions(symbol, strategy)]. *)
Definition resetConditions (conditions : gmap string SymbolConditions)
    (symbol : string) (strategy : StrategyKind)
    : gmap string SymbolConditions * list Write :=
  let '(conditions, writes) := ensure conditions symbol in
  let ofSymbol := at_symbol conditions symbol in
  let conditions :=
    <[symbol := assign strategy (getDefaultConditions strategy) ofSymbol]> conditions in
  (conditions, writes ++ [Saved conditions]).

(** [getAllConditionsForSymbol(symbol)]. *)
Definition getAllConditionsForSymbol (conditions : gmap string SymbolConditions)
    (symbol : string) : gmap string SymbolConditions * list Write * SymbolConditions :=
  let '(conditions, writes) := ensure conditions symbol in
  (conditions, writes, at_symbol conditions symbol).
End ConditionsManager.

(** ** The logger ([FileLogger]) *)

Module FileLogger.
Inductive Level := INFO | WARN | ERROR.

Definition maxLogs : nat := 1000.

Section Logger.
(** The type of the optional [data] of an entry ([any] in the source). *)
Variable Data : Type.

Record LogEntry := {
  timestamp : string;
  level : Level;
  message : string;
  data : option Data
}.

(** [localStorage.setItem('trading_logs', JSON.stringify(this.logs))] and
    [localStorage.removeItem('trading_logs')]. *)
Inductive Storage := SetItem (logs : list LogEntry) | RemoveItem.

(** [log(level, message, data)], with the [new Date().toISOString()] it
    reads: the new [this.logs] and the write to the storage.  The echo on
    the console is left out. *)
Definition log (now : string) (level : Level) (message : string) (data : option Data)
    (logs : list LogEntry) : list LogEntry * Storage :=
  let entry := {| timestamp := now; level := level; message := message; data := data |} in
  let logs := logs ++ [entry] in
  let logs :=
    if decide (maxLogs < length logs) then JS.slice_last maxLogs logs else logs in
  (logs, SetItem logs).

(** [info(message, data)]. *)
Definition info (now : string) (message : string) (data : option Data)
    (logs : list LogEntry) : list LogEntry * Storage :=
  log now INFO message data logs.

(** [warn(message, data)]. *)
Definition warn (now : string) (message : string) (data : option Data)
    (logs : list LogEntry) : list LogEntry * Storage :=
  log now WARN message data logs.

(** [error(message, data)]. *)
Definition error (now : string) (message : string) (data : option Data)
    (logs : list LogEntry) : list LogEntry * Storage :=
  log now ERROR message data logs.

(** [clearLogs()]. *)
Definition clearLogs (logs : list LogEntry) : list LogEntry * Storage :=
  ([], RemoveItem).

(** Successive calls of [log], each with the clock reading and the three
    arguments. *)
Definition logAll (calls : list (string * Level * string * option Data))
    (logs : list LogEntry) : list LogEntry :=
  fold_left (λ logs c, (log c.1.1.1 c.1.1.2 c.1.2 c.2 logs).1) calls logs.

(** The entry a call appends. *)
Definition entry_of (c : string * Level * string * option Data) : LogEntry :=
  {| timestamp := c.1.1.1; level := c.1.1.2; message := c.1.2; data := c.2 |}.
End Logger.

(** A call of [log]: the clock reading and the three arguments. *)
Abbreviation Call Data := (string * Level * string * option Data)%type.
End FileLogger.

(** ** The indicator history ([IndicatorHistoryService]) *)

Module IndicatorHistory.
Import JS.
Local Open Scope Qc_scope.

(** A snapshot; [timestamp] is a [Date.now()] reading, in milliseconds. *)
Record IndicatorSnapshot := {
  timestamp : Qc;
  values : Strategy.IndicatorValues
}.

Definition maxHistorySeconds : Qc := lit 60 1.

(** [keyof IndicatorValues]. *)
Inductive Indicator :=
  | k_rsi | k_macd | k_ma5 | k_ma8 | k_ma13 | k_ma20 | k_ma21 | k_ma34 | k_ma50
  | k_bollingerUpper | k_bollingerLower | k_bollingerMiddle
  | k_volume | k_avgVolume | k_volumeSpike | k_price | k_openInterest
  | k_cvd | k_cvdTrend | k_cvdSlope.

(** [values[indicator]] when [typeof] it is ['number']: [macd] is an
    object, [volumeSpike] a boolean and [cvdTrend] a string. *)
Definition number_at (indicator : Indicator) (v : Strategy.IndicatorValues) : option Qc :=
  match indicator with
  | k_rsi => Some (Strategy.rsi v)
  | k_macd => None
  | k_ma5 => Some (Strategy.ma5 v)
  | k_ma8 => Some (Strategy.ma8 v)
  | k_ma13 => Some (Strategy.ma13 v)
  | k_ma20 => Some (Strategy.ma20 v)
  | k_ma21 => Some (Strategy.ma21 v)
  | k_ma34 => Some (Strategy.ma34 v)
  | k_ma50 => Some (Strategy.ma50 v)
  | k_bollingerUpper => Some (Strategy.bollingerUpper v)
  | k_bollingerLower => Some (Strategy.bollingerLower v)
  | k_bollingerMiddle => Some (Strategy.bollingerMiddle v)
  | k_volume => Some (Strategy.volume v)
  | k_avgVolume => Some (Strategy.avgVolume v)
  | k_volumeSpike => None
  | k_price => Some (Strategy.price v)
  | k_openInterest => Some (Strategy.openInterest v)
  | k_cvd => Some (Strategy.cvd v)
  | k_cvdTrend => None
  | k_cvdSlope => Some (Strategy.cvdSlope v)
  end.

(** [cleanOldSnapshots(symbol)], with the [Date.now()] it reads. *)
Definition cleanOldSnapshots (now : Qc) (symbol : string)
    (history : gmap string (list IndicatorSnapshot))
    : gmap string (list IndicatorSnapshot) :=
  let cutoffTime := now - maxHistorySeconds * lit 1000 1 in
  match history !! symbol with
  | Some snapshots =>
      <[symbol := List.filter (λ snapshot, bool_decide (cutoffTime ≤ timestamp snapshot))
                    snapshots]> history
  | None => history
  end.

(** [addSnapshot(symbol, indicators)], with the two [Date.now()] readings
    it makes: [now] stamps the snapshot, [cleanNow] is read by the clean-up
    that follows. *)
Definition addSnapshot (now cleanNow : Qc) (symbol : string)
    (indicators : Strategy.IndicatorValues)
    (history : gmap string (list IndicatorSnapshot))
    : gmap string (list IndicatorSnapshot) :=
  let snapshot := {| timestamp := now; values := indicators |} in
  let history :=
    match history !! symbol with
    | None => <[symbol := []]> history
    | Some _ => history
    end in
  let history := <[symbol := default [] (history !! symbol) ++ [snapshot]]> history in
  cleanOldSnapshots cleanNow symbol history.

(** [getHistory(symbol)]. *)
Definition getHistory (history : gmap string (list IndicatorSnapshot)) (symbol : string)
    : list IndicatorSnapshot :=
  default [] (history !! symbol).

(** [getHistoryRange(symbol, secondsAgo)], with the [Date.now()] it reads. *)
Definition getHistoryRange (now : Qc) (history : gmap string (list IndicatorSnapshot))
    (symbol : string) (secondsAgo : Qc) : list IndicatorSnapshot :=
  let cutoffTime := now - secondsAgo * lit 1000 1 in
  let symbolHistory := default [] (history !! symbol) in
  List.filter (λ snapshot, bool_decide (cutoffTime ≤ timestamp snapshot)) symbolHistory.

(** [getLatest(symbol)]; [None] is [null]. *)
Definition getLatest (history : gmap string (list IndicatorSnapshot)) (symbol : string)
    : option IndicatorSnapshot :=
  let symbolHistory := default [] (history !! symbol) in
  if decide (0 < length symbolHistory)%nat then last symbolHistory else None.

(** [getSnapshotFromSecondsAgo(symbol, secondsAgo)]; the loop's pair
    [(smallestDiff, closest)] starts as [(Infinity, null)], here [None]. *)
Definition getSnapshotFromSecondsAgo (now : Qc)
    (history : gmap string (list IndicatorSnapshot)) (symbol : string) (secondsAgo : Qc)
    : option IndicatorSnapshot :=
  let targetTime := now - secondsAgo * lit 1000 1 in
  let symbolHistory := default [] (history !! symbol) in
  snd <$>
    fold_left
      (λ (best : option (Qc * IndicatorSnapshot)) snapshot,
         let diff := Qcabs (timestamp snapshot - targetTime) in
         match best with
         | None => Some (diff, snapshot)
         | Some (smallestDiff, closest) =>
             if decide (diff < smallestDiff) then Some (diff, snapshot) else best
         end)
      symbolHistory None.

Inductive Direction := up | down | neutral.

Record Trend := { trend : Direction; change : Qc; changePercent : Qc }.

(** [getIndicatorTrend(symbol, indicator, secondsBack = 30)], with the
    [Date.now()] it reads. *)
Definition getIndicatorTrend (now : Qc) (history : gmap string (list IndicatorSnapshot))
    (symbol : string) (indicator : Indicator) (secondsBack : Qc) : Trend :=
  let flat := {| trend := neutral; change := 0; changePercent := 0 |} in
  let snapshots := getHistoryRange now history symbol secondsBack in
  if decide (length snapshots < 2)%nat then flat else
  match number_at indicator <$> (values <$> head snapshots),
        number_at indicator <$> (values <$> last snapshots) with
  | Some (Some oldest), Some (Some newest) =>
      let change := newest - oldest in
      let changePercent :=
        if decide (oldest = 0) then 0 else change / Qcabs oldest * lit 100 1 in
      let trend :=
        if decide (lit 1 10 < Qcabs changePercent)
        then (if decide (0 < change) then up else down)
        else neutral in
      {| trend := trend; change := change; changePercent := changePercent |}
  | _, _ => flat
  end.
(** [snapshots.map(s => s.values[indicator] as number)
      .filter(v => typeof v === 'number')]. *)
Definition numbers (indicator : Indicator) (snapshots : list IndicatorSnapshot) : list Qc :=
  omap (λ s, number_at indicator (values s)) snapshots.

(** [isIndicatorStable(symbol, indicator, secondsBack = 15,
    thresholdPercent = 1)], with the [Date.now()] it reads.  When [avg] is 0
    the quotient [(value - avg) / avg] is an infinity or NaN, the comparison
    with the threshold is false and so is [every] over the at least three
    values. *)
Definition isIndicatorStable (now : Qc) (history : gmap string (list IndicatorSnapshot))
    (symbol : string) (indicator : Indicator) (secondsBack thresholdPercent : Qc) : bool :=
  let snapshots := getHistoryRange now history symbol secondsBack in
  if decide (length snapshots < 3)%nat then false else
  let values := numbers indicator snapshots in
  if decide (length values < 3)%nat then false else
  let avg := reduce (λ sum val, sum + val) 0 values / of_nat (length values) in
  if decide (avg = 0) then false else
  forallb
    (λ value,
       let deviation := Qcabs ((value - avg) / avg) * lit 100 1 in
       bool_decide (deviation ≤ thresholdPercent))
    values.

Record Stats := { min : Qc; max : Qc; avg : Qc; current : Qc; volatility : Qc }.

(** [Math.min(...values)] and [Math.max(...values)] of [first :: rest]. *)
Definition Math_min (first : Qc) (rest : list Qc) : Qc :=
  fold_left (λ m v, if decide (v < m) then v else m) rest first.
Definition Math_max (first : Qc) (rest : list Qc) : Qc :=
  fold_left (λ m v, if decide (m < v) then v else m) rest first.

Section Statistics.
(** [Math.sqrt]. *)
Variable sqrt : Qc → Qc.

(** [getIndicatorStats(symbol, indicator, secondsBack = 60)], with the
    [Date.now()] it reads; [Math.pow(x, 2)] is [x * x]. *)
Definition getIndicatorStats (now : Qc) (history : gmap string (list IndicatorSnapshot))
    (symbol : string) (indicator : Indicator) (secondsBack : Qc) : Stats :=
  let snapshots := getHistoryRange now history symbol secondsBack in
  let values := numbers indicator snapshots in
  match values with
  | [] => {| min := 0; max := 0; avg := 0; current := 0; volatility := 0 |}
  | first :: rest =>
      let min := Math_min first rest in
      let max := Math_max first rest in
      let avg := reduce (λ sum val, sum + val) 0 values / of_nat (length values) in
      let current := get values (length values - 1) in
      let squaredDiffs := map (λ value, (value - avg) * (value - avg)) values in
      let volatility :=
        sqrt (reduce (λ sum val, sum + val) 0 squaredDiffs / of_nat (length values)) in
      {| min := min; max := max; avg := avg; current := current; volatility := volatility |}
  end.
End Statistics.
End IndicatorHistory.

(** * Theorems *)

(** ** The tracker and the signal-saving blocks *)

Section TrackerFacts.
Import Tracker.
Implicit Types state : gmap string (gmap string StrategyState).

Lemma updateConditions_logged state symbol strategy conditions :
  (updateConditions state symbol strategy conditions).2 =
    if every conditions && negb (isAllGreen state symbol strategy)
    then [AllGreen strategy symbol] else [].
Proof.
  unfold updateConditions, isAllGreen. cbn [snd].
  destruct (state !! symbol) as [m|] eqn:Hs; cbn.
  - rewrite Hs. cbn. destruct (m !! strategy) as [x|] eqn:Hk; cbn.
    + by rewrite Hk.
    + by rewrite lookup_insert_eq.
  - rewrite lookup_insert_eq. cbn. rewrite lookup_empty. cbn.
    by rewrite lookup_insert_eq.
Qed.

Lemma isAllGreen_updated state symbol strategy conditions :
  isAllGreen (updateConditions state symbol strategy conditions).1 symbol strategy
  = every conditions.
Proof.
  unfold updateConditions, isAllGreen. cbn [fst].
  rewrite lookup_insert_eq. cbn. by rewrite lookup_insert_eq.
Qed.

End TrackerFacts.

Section EdgeFacts.
Import Spec.





End EdgeFacts.

Section TrackerRun.
Import Tracker Spec.


End TrackerRun.

Section SignalFacts.
Import Tracker Strategy Spec.






End SignalFacts.

Section EdgeDetection.
Import Tracker Strategy Spec.



End EdgeDetection.

(** ** The CVD store *)

Section JSFacts.
Import JS.
Local Open Scope Qc_scope.

Lemma for_loop_empty {S} lo hi (body : nat → S → S) s :
  (hi ≤ lo)%nat → for_loop lo hi body s = s.
Proof. intros H. unfold for_loop. by replace (hi - lo)%nat with 0%nat by lia. Qed.

Lemma for_loop_S {S} lo hi (body : nat → S → S) s :
  (lo ≤ hi)%nat → for_loop lo (Datatypes.S hi) body s = body hi (for_loop lo hi body s).
Proof.
  intros H. unfold for_loop.
  replace (Datatypes.S hi - lo)%nat with (Datatypes.S (hi - lo)) by lia.
  rewrite seq_S, fold_left_app. cbn. by replace (lo + (hi - lo))%nat with hi by lia.
Qed.

Lemma for_loop_ext {S} lo hi (body body' : nat → S → S) s :
  (∀ i s, (lo ≤ i < hi)%nat → body i s = body' i s) →
  for_loop lo hi body s = for_loop lo hi body' s.
Proof.
  intros Hext. destruct (decide (lo ≤ hi)%nat) as [Hle|Hgt].
  - induction Hle as [|hi Hle IH].
    + by rewrite !for_loop_empty.
    + rewrite !for_loop_S by done. rewrite IH by (intros; apply Hext; lia).
      apply Hext. lia.
  - by rewrite !for_loop_empty by lia.
Qed.

Lemma or_else_Some (x : Qc) : or_else (Some x) 0 = x.
Proof. unfold or_else. by destruct (decide (x = 0)). Qed.

Lemma num_or_0 (x : Qc) : num_or x 0 = x.
Proof. apply or_else_Some. Qed.

Lemma or_else_default (x : option Qc) : or_else x 0 = default 0 x.
Proof. destruct x; [apply or_else_Some | done]. Qed.

Lemma default_last_cons {A} (d x : A) l : default d (last (x :: l)) = default x (last l).
Proof. rewrite last_cons. by destruct (last l). Qed.

Lemma get_app_l (l k : list Qc) i : (i < length l)%nat → get (l ++ k) i = get l i.
Proof. intros H. unfold get. by rewrite lookup_app_l. Qed.

Lemma get_snoc (l : list Qc) x : get (l ++ [x]) (length l) = x.
Proof. unfold get. by rewrite list_lookup_middle. Qed.

Lemma get_snoc_at (l : list Qc) x n : length l = n → get (l ++ [x]) n = x.
Proof. intros <-. apply get_snoc. Qed.

Lemma get_last (l : list Qc) : get l (length l - 1) = default 0 (last l).
Proof. unfold get. by rewrite last_lookup, Nat.sub_1_r. Qed.

Lemma get_drop (l : list Qc) d i : get (drop d l) i = get l (d + i).
Proof. unfold get. by rewrite lookup_drop. Qed.
End JSFacts.

Section TrimFacts.
Import JS Worker.

Lemma trim_drop (l : list Qc) : trim l = drop (length l - maxHistoryLength) l.
Proof.
  unfold trim. case_decide; [done|].
  by replace (length l - maxHistoryLength)%nat with 0%nat by lia.
Qed.

Lemma trim_snoc (l : list Qc) x : trim (trim l ++ [x]) = trim (l ++ [x]).
Proof.
  rewrite !trim_drop, !length_app, length_drop. cbn [length].
  unfold maxHistoryLength.
  destruct (decide (length l ≤ 100)%nat).
  - replace (length l - 100)%nat with 0%nat by lia.
    by rewrite drop_0, Nat.sub_0_r.
  - rewrite drop_app_le by (rewrite length_drop; lia).
    rewrite drop_drop. rewrite (drop_app_le l) by lia.
    do 2 f_equal. lia.
Qed.

Lemma last_trim (l : list Qc) : last (trim l) = last l.
Proof.
  rewrite trim_drop. destruct (decide (l = [])) as [->|Hne]; [done|].
  rewrite !last_lookup, lookup_drop, length_drop. f_equal.
  assert (0 < length l)%nat by (destruct l; [done | cbn; lia]).
  unfold maxHistoryLength. lia.
Qed.

Lemma length_trim (l : list Qc) : length (trim l) = (length l `min` maxHistoryLength)%nat.
Proof. rewrite trim_drop, length_drop. lia. Qed.
End TrimFacts.

Section CvdSeries.
Import JS Worker Feed Spec.
Local Open Scope Qc_scope.

Lemma cvd_step_compare prevPrice price volume previous :
  cvd_step prevPrice price volume previous =
    match prevPrice ?= price with
    | Lt => previous + volume
    | Gt => previous - volume
    | Eq => previous
    end.
Proof.
  unfold cvd_step.
  destruct (prevPrice ?= price) eqn:Hc.
  - apply Qceq_alt in Hc as ->.
    rewrite !decide_False; [done | apply Qcle_not_lt, Qcle_refl ..].
  - apply Qclt_alt in Hc. by rewrite decide_True.
  - apply Qcgt_alt in Hc.
    rewrite decide_False, decide_True; [done.. |].
    apply Qcle_not_lt. by apply Qclt_le_weak.
Qed.

Lemma cvd_step_follows_rule prevPrice price volume previous :
  follows_rule previous prevPrice price volume
    (cvd_step prevPrice price volume previous).
Proof.
  unfold follows_rule, cvd_step. repeat split; intros H.
  - by rewrite decide_True.
  - rewrite decide_False, decide_True; [done.. |].
    apply Qcle_not_lt. by apply Qclt_le_weak.
  - subst. rewrite !decide_False; [done | apply Qcle_not_lt, Qcle_refl ..].
Qed.

Lemma length_cvd_from prevPrice previous ticks :
  length (cvd_from prevPrice previous ticks) = length ticks.
Proof.
  revert prevPrice previous. induction ticks as [|[p v] ticks IH]; intros; [done|].
  cbn. by rewrite IH.
Qed.

Lemma length_cvd_series ticks : length (cvd_series ticks) = (length ticks - 1)%nat.
Proof. destruct ticks as [|[p v] ticks]; [done|]. cbn. rewrite length_cvd_from. lia. Qed.

Lemma cvd_from_snoc prevPrice previous ticks price volume :
  cvd_from prevPrice previous (ticks ++ [(price, volume)]) =
    cvd_from prevPrice previous ticks ++
      [cvd_step (default prevPrice (last (prices ticks))) price volume
                (default previous (last (cvd_from prevPrice previous ticks)))].
Proof.
  revert prevPrice previous.
  induction ticks as [|[p v] ticks IH]; intros prevPrice previous.
  - cbn. by rewrite cvd_step_compare.
  - cbn [app cvd_from]. rewrite IH. unfold prices. cbn.
    by rewrite !default_last_cons.
Qed.
End CvdSeries.

Section Backfill.
Import JS Worker Feed Spec.
Local Open Scope Qc_scope.

Lemma length_prices ticks : length (prices ticks) = length ticks.
Proof. apply length_fmap. Qed.

Lemma length_volumes ticks : length (volumes ticks) = length ticks.
Proof. apply length_fmap. Qed.

Lemma prices_snoc ticks t : prices (ticks ++ [t]) = prices ticks ++ [t.1].
Proof. unfold prices. by rewrite fmap_app. Qed.

Lemma volumes_snoc ticks t : volumes (ticks ++ [t]) = volumes ticks ++ [t.2].
Proof. unfold volumes. by rewrite fmap_app. Qed.

Lemma cvd_series_snoc ticks price volume :
  ticks ≠ [] →
  cvd_series (ticks ++ [(price, volume)]) =
    cvd_series ticks ++
      [cvd_step (get (prices ticks) (length ticks - 1)) price volume
                (default 0 (last (cvd_series ticks)))].
Proof.
  intros Hne. destruct ticks as [|[p0 v0] ticks]; [done|]. cbn [app cvd_series].
  rewrite cvd_from_snoc. do 3 f_equal.
  rewrite <- length_prices, get_last. unfold prices. cbn.
  by rewrite default_last_cons.
Qed.

(** The loop of the first branch of [updateCVD] builds [cvd_series]. *)
Lemma backfill_loop ticks :
  for_loop 1 (length ticks)
    (λ i '(runningCVD, cvdValues),
       let prevPrice := get (prices ticks) (i - 1) in
       let currentPrice := get (prices ticks) i in
       let volume := get (volumes ticks) i in
       let runningCVD := cvd_step prevPrice currentPrice volume runningCVD in
       (runningCVD, cvdValues ++ [runningCVD]))
    (0, [])
  = (default 0 (last (cvd_series ticks)), cvd_series ticks).
Proof.
  induction ticks as [|[price volume] ticks IH] using rev_ind; [done|].
  rewrite length_app. cbn [length]. rewrite Nat.add_1_r.
  destruct (decide (ticks = [])) as [->|Hne]; [done|].
  assert (1 ≤ length ticks)%nat by (destruct ticks; [done | cbn; lia]).
  rewrite for_loop_S by done.
  rewrite (for_loop_ext _ _ _
    (λ i '(runningCVD, cvdValues),
       let prevPrice := get (prices ticks) (i - 1) in
       let currentPrice := get (prices ticks) i in
       let volume := get (volumes ticks) i in
       let runningCVD := cvd_step prevPrice currentPrice volume runningCVD in
       (runningCVD, cvdValues ++ [runningCVD]))).
  2:{ intros i [r vals] Hi. cbn zeta.
      rewrite prices_snoc, volumes_snoc.
      by rewrite !get_app_l by (rewrite ?length_prices, ?length_volumes; lia). }
  rewrite IH. cbn zeta.
  rewrite prices_snoc, volumes_snoc. cbn [fst snd].
  rewrite get_app_l by (rewrite length_prices; lia).
  rewrite (get_snoc_at (prices ticks)) by apply length_prices.
  rewrite (get_snoc_at (volumes ticks)) by apply length_volumes.
  rewrite cvd_series_snoc by done. by rewrite last_snoc.
Qed.
End Backfill.

Section UpdateCVD.
Import JS Worker Feed Spec.
Local Open Scope Qc_scope.
Implicit Types cvdHistory : gmap string (list Qc).

Lemma updateCVD_short cvdHistory symbol priceData volumeData :
  (length priceData < 2 ∨ length volumeData < 2)%nat →
  updateCVD cvdHistory symbol priceData volumeData = (0, cvdHistory).
Proof. intros H. unfold updateCVD. by rewrite decide_True. Qed.

Lemma updateCVD_first cvdHistory symbol ticks :
  (2 ≤ length ticks)%nat →
  default [] (cvdHistory !! symbol) = [] →
  updateCVD cvdHistory symbol (prices ticks) (volumes ticks) =
    (default 0 (last (trim (cvd_series ticks))),
     <[symbol := trim (cvd_series ticks)]> cvdHistory).
Proof.
  intros Hlen Hempty. unfold updateCVD.
  rewrite decide_False by (rewrite length_prices, length_volumes; lia).
  rewrite Hempty. rewrite decide_True by done.
  rewrite length_prices, length_volumes, Nat.min_id, backfill_loop. cbn [snd].
  by rewrite or_else_default.
Qed.

Lemma updateCVD_next cvdHistory symbol priceData volumeData s :
  (2 ≤ length priceData)%nat → (2 ≤ length volumeData)%nat →
  cvdHistory !! symbol = Some s → s ≠ [] →
  let newCVD :=
    cvd_step (get priceData (length priceData - 2))
             (get priceData (length priceData - 1))
             (get volumeData (length volumeData - 1))
             (default 0 (last s)) in
  updateCVD cvdHistory symbol priceData volumeData =
    (default 0 (last (trim (s ++ [newCVD]))),
     <[symbol := trim (s ++ [newCVD])]> cvdHistory).
Proof.
  intros Hp Hv Hs Hne newCVD. unfold updateCVD.
  rewrite decide_False by lia. rewrite Hs. cbn [default].
  rewrite decide_False by (by destruct s).
  by rewrite !or_else_default.
Qed.
End UpdateCVD.

Section FeedFacts.
Import JS Worker Feed Spec.
Local Open Scope Qc_scope.
Implicit Types cvdHistory : gmap string (list Qc).

Lemma history_snoc_le window k ticks t :
  (k ≤ length ticks)%nat → history window k (ticks ++ [t]) = history window k ticks.
Proof. intros H. unfold history. by rewrite take_app_le. Qed.

Lemma history_all window ticks t :
  history window (length ticks + 1) (ticks ++ [t])
  = drop (length ticks + 1 - window) (ticks ++ [t]).
Proof.
  unfold history. rewrite take_ge by (rewrite length_app; cbn; lia).
  by rewrite length_app.
Qed.

Lemma feed_snoc window cvdHistory symbol ticks t :
  feed window cvdHistory symbol (ticks ++ [t]) =
    let h := drop (length ticks + 1 - window) (ticks ++ [t]) in
    (updateCVD (feed window cvdHistory symbol ticks) symbol (prices h) (volumes h)).2.
Proof.
  unfold feed at 1. rewrite length_app. cbn [length].
  rewrite (Nat.add_1_r (length ticks + 1)), for_loop_S by lia.
  rewrite history_all. cbn zeta. do 2 f_equal.
  unfold feed. apply for_loop_ext. intros k h Hk.
  by rewrite history_snoc_le by lia.
Qed.

Lemma feed_series window cvdHistory symbol ticks :
  (2 ≤ window)%nat → cvdHistory !! symbol = None →
  feed window cvdHistory symbol ticks =
    if decide (length ticks < 2)%nat then cvdHistory
    else <[symbol := trim (cvd_series ticks)]> cvdHistory.
Proof.
  intros Hw Hnone.
  induction ticks as [|[price volume] ticks IH] using rev_ind; [done|].
  rewrite feed_snoc, IH. cbn zeta. rewrite length_app. cbn [length].
  set (h := drop _ _).
  assert (length h = (length ticks + 1) `min` window)%nat as Hh.
  { subst h. rewrite length_drop, length_app. cbn. lia. }
  destruct (decide (length ticks < 2)%nat) as [Hshort|Hlong].
  - destruct (decide (length ticks + 1 < 2)%nat) as [Hone|Htwo].
    + rewrite updateCVD_short; [done|]. rewrite length_prices, Hh. lia.
    + assert (h = ticks ++ [(price, volume)]) as ->.
      { subst h. replace (length ticks + 1 - window)%nat with 0%nat by lia. done. }
      rewrite updateCVD_first; [done | rewrite length_app; cbn; lia | by rewrite Hnone].
  - rewrite decide_False by lia.
    assert (ticks ≠ []) as Hne by (intros ->; cbn in Hlong; lia).
    assert (trim (cvd_series ticks) ≠ []) as Hs.
    { intros Hnil. apply (f_equal length) in Hnil.
      rewrite length_trim, length_cvd_series in Hnil. unfold maxHistoryLength in Hnil.
      cbn in Hnil. lia. }
    rewrite (updateCVD_next _ _ _ _ (trim (cvd_series ticks)));
      [| rewrite length_prices, Hh; lia | rewrite length_volumes, Hh; lia
       | apply lookup_insert_eq | done ].
    cbn [snd]. rewrite insert_insert_eq, trim_snoc, last_trim. f_equal. f_equal.
    rewrite cvd_series_snoc by done. do 2 f_equal.
    unfold prices, volumes. subst h. rewrite !fmap_drop, !get_drop, !length_drop, !length_fmap.
    rewrite !fmap_app, length_app. cbn [length fmap list_fmap fst snd].
    replace (length ticks + 1 - window + (length ticks + 1 - (length ticks + 1 - window) - 2))%nat
      with (length ticks - 1)%nat by lia.
    replace (length ticks + 1 - window + (length ticks + 1 - (length ticks + 1 - window) - 1))%nat
      with (length ticks) by lia.
    rewrite get_app_l by (rewrite length_fmap; lia).
    rewrite !get_snoc_at by apply length_fmap. done.
Qed.
End FeedFacts.

Section CvdClaims.
Import JS Worker Feed Spec.
Local Open Scope Qc_scope.
Implicit Types cvdHistory : gmap string (list Qc).

Lemma backfill_series cvdHistory symbol ticks :
  cvdHistory !! symbol = None →
  backfill cvdHistory symbol ticks =
    if decide (length ticks < 2)%nat then cvdHistory
    else <[symbol := trim (cvd_series ticks)]> cvdHistory.
Proof.
  intros Hnone. unfold backfill. case_decide as Hlen.
  - rewrite updateCVD_short; [done|]. rewrite length_prices. lia.
  - rewrite updateCVD_first; [done | lia | by rewrite Hnone].
Qed.

(** C2.  Feeding the ticks one at a time, each call on the histories
    retained at that moment (any retention window of at least two samples),
    leaves exactly the store that a single from-scratch back-fill over the
    whole sequence leaves: the last 100 values of the series. *)
Theorem incremental_feed_equals_backfill
    window cvdHistory symbol (ticks : list Tick) :
  (2 ≤ window)%nat → cvdHistory !! symbol = None →
  feed window cvdHistory symbol ticks = backfill cvdHistory symbol ticks
  ∧ ((2 ≤ length ticks)%nat →
     feed window cvdHistory symbol ticks !! symbol = Some (trim (cvd_series ticks))).
Proof.
  intros Hw Hnone. rewrite feed_series, backfill_series by done.
  split; [done|]. intros Hlen. rewrite decide_False by lia. apply lookup_insert_eq.
Qed.

Lemma incremental_feed_equals_backfill_witness :
  let ticks : list Tick :=
    [(lit 10 1, lit 100 1); (lit 10 1, lit 100 1); (lit 12 1, lit 100 1);
     (lit 11 1, lit 100 1); (lit 13 1, lit 100 1)] in
  (2 ≤ 3)%nat ∧ (∅ : gmap string (list Qc)) !! "BTCUSDT"%string = None
  ∧ feed 3 ∅ "BTCUSDT" ticks = backfill ∅ "BTCUSDT" ticks.
Proof.
  intros ticks. split; [lia|]. split; [reflexivity|].
  apply (incremental_feed_equals_backfill 3 ∅ "BTCUSDT" ticks); [lia | reflexivity].
Defined.

(** C10.  With fewer than two prices or fewer than two volumes [updateCVD]
    returns 0 and hands back the store it was given: nothing is appended,
    nothing evicted, no entry created. *)
Theorem updateCVD_too_short_changes_nothing
    cvdHistory symbol (priceData volumeData : list Qc) :
  (length priceData < 2 ∨ length volumeData < 2)%nat →
  updateCVD cvdHistory symbol priceData volumeData = (0, cvdHistory).
Proof. apply updateCVD_short. Qed.

Lemma updateCVD_too_short_witness :
  (length [lit 10 1] < 2 ∨ length [lit 5 1; lit 6 1] < 2)%nat
  ∧ updateCVD ∅ "BTCUSDT" [lit 10 1] [lit 5 1; lit 6 1] = (0, ∅).
Proof.
  split; [left; cbn; lia|].
  apply (updateCVD_too_short_changes_nothing ∅ "BTCUSDT" [lit 10 1] [lit 5 1; lit 6 1]).
  left. cbn. lia.
Defined.
End CvdClaims.

Section CvdInvariant.
Import JS Worker Feed Spec.
Local Open Scope Qc_scope.
Implicit Types cvdHistory : gmap string (list Qc).

(** Every value of [cvd_series] follows the rule from the value before it,
    the first one from 0. *)
Lemma cvd_series_rule ticks i value :
  cvd_series ticks !! i = Some value →
  follows_rule (match i with O => 0 | S j => get (cvd_series ticks) j end)
    (get (prices ticks) i) (get (prices ticks) (S i)) (get (volumes ticks) (S i))
    value.
Proof.
  revert i value.
  induction ticks as [|[price volume] ticks IH] using rev_ind; intros i value Hi;
    [done|].
  destruct (decide (ticks = [])) as [->|Hne]; [done|].
  assert (1 ≤ length ticks)%nat by (destruct ticks; [done | cbn; lia]).
  rewrite cvd_series_snoc in Hi |- * by done.
  rewrite prices_snoc, volumes_snoc. cbn [fst snd].
  pose proof (length_cvd_series ticks) as Hlen.
  destruct (decide (i < length (cvd_series ticks))%nat) as [Hlt|Hge].
  - rewrite lookup_app_l in Hi by done. apply IH in Hi.
    rewrite !get_app_l by (rewrite ?length_prices, ?length_volumes; lia).
    destruct i as [|j]; [done|]. by rewrite get_app_l by lia.
  - apply lookup_lt_Some in Hi as Hi'. rewrite length_app in Hi'. cbn in Hi'.
    assert (i = length (cvd_series ticks)) as -> by lia.
    rewrite list_lookup_middle in Hi by done. injection Hi as <-.
    rewrite Hlen. replace (S (length ticks - 1)) with (length ticks) by lia.
    rewrite get_app_l by (rewrite length_prices; lia).
    rewrite !get_snoc_at by (by rewrite ?length_prices, ?length_volumes).
    replace (match (length ticks - 1)%nat with
             | O => 0
             | S j => get (cvd_series ticks ++
                 [cvd_step (get (prices ticks) (length ticks - 1)) price volume
                    (default 0 (last (cvd_series ticks)))]) j
             end) with (default 0 (last (cvd_series ticks))).
    { apply cvd_step_follows_rule. }
    destruct (length ticks - 1)%nat as [|j] eqn:Hj.
    + by destruct (cvd_series ticks).
    + rewrite get_app_l by lia. rewrite <- get_last. f_equal. lia.
Qed.

Lemma trim_series_lookup ticks j :
  trim (cvd_series ticks) !! j
  = cvd_series ticks !! (first_tick ticks (trim (cvd_series ticks)) - 1 + j)%nat.
Proof.
  rewrite trim_drop at 1. rewrite lookup_drop. f_equal.
  unfold first_tick. rewrite length_trim, length_cvd_series.
  unfold maxHistoryLength. lia.
Qed.

Lemma first_tick_trim ticks :
  (2 ≤ length ticks)%nat →
  (1 ≤ first_tick ticks (trim (cvd_series ticks)))%nat.
Proof.
  intros H. unfold first_tick. rewrite length_trim, length_cvd_series. lia.
Qed.

Lemma trim_series_consecutive ticks :
  (2 ≤ length ticks)%nat → consecutive_rule ticks (trim (cvd_series ticks)).
Proof.
  intros Hlen j previous value Hprev Hvalue. cbn zeta.
  pose proof (first_tick_trim ticks Hlen) as Hft.
  set (f := first_tick ticks (trim (cvd_series ticks))) in *.
  rewrite trim_series_lookup in Hprev, Hvalue. fold f in Hprev, Hvalue.
  replace (f - 1 + S j)%nat with (S (f - 1 + j)) in Hvalue by lia.
  apply cvd_series_rule in Hvalue. cbn iota in Hvalue.
  unfold get at 1 in Hvalue. rewrite Hprev in Hvalue. cbn [default] in Hvalue.
  replace (f + S j - 1)%nat with (S (f - 1 + j)) by lia.
  by replace (f + S j)%nat with (S (S (f - 1 + j))) by lia.
Qed.

Lemma trim_series_first ticks :
  (2 ≤ length ticks ≤ 101)%nat → first_rule ticks (trim (cvd_series ticks)).
Proof.
  intros Hlen value Hvalue. cbn zeta.
  assert (first_tick ticks (trim (cvd_series ticks)) = 1%nat) as Hft.
  { unfold first_tick. rewrite length_trim, length_cvd_series.
    unfold maxHistoryLength. lia. }
  rewrite trim_series_lookup, Hft in Hvalue. rewrite Hft.
  by apply cvd_series_rule in Hvalue.
Qed.

Lemma cvd_from_take prevPrice previous (ticks : list Tick) n :
  cvd_from prevPrice previous (take n ticks) = take n (cvd_from prevPrice previous ticks).
Proof.
  revert prevPrice previous n.
  induction ticks as [|[price volume] ticks IH]; intros prevPrice previous [|n];
    [done..|].
  cbn [take cvd_from]. by rewrite IH.
Qed.

Lemma cvd_series_take (ticks : list Tick) n :
  cvd_series (take (S n) ticks) = take n (cvd_series ticks).
Proof.
  destruct ticks as [|[price volume] ticks]; [by destruct n|].
  cbn [take cvd_series]. apply cvd_from_take.
Qed.

(** Once more than 101 ticks have come in, the first stored point follows
    the rule from the last point of the series of the ticks before it. *)
Lemma trim_series_evicted (ticks : list Tick) :
  (101 < length ticks)%nat →
  let f := first_tick ticks (trim (cvd_series ticks)) in
  ∃ evicted,
    last (trim (cvd_series (take f ticks))) = Some evicted
    ∧ evicted_rule ticks (trim (cvd_series ticks)) evicted.
Proof.
  intros Hlen. cbn zeta.
  assert (first_tick ticks (trim (cvd_series ticks)) = S (S (length ticks - 102))) as Hf.
  { unfold first_tick. rewrite length_trim, length_cvd_series.
    unfold maxHistoryLength. lia. }
  set (k := (length ticks - 102)%nat) in *.
  exists (get (cvd_series ticks) k). split.
  - rewrite Hf, last_trim, cvd_series_take, last_lookup, length_take, length_cvd_series.
    replace (Init.Nat.pred (S k `min` (length ticks - 1)))%nat with k by lia.
    rewrite lookup_take_lt by lia. unfold get.
    destruct (cvd_series ticks !! k) as [x|] eqn:Hx; [done|].
    apply lookup_ge_None in Hx. rewrite length_cvd_series in Hx. lia.
  - intros value Hvalue. cbn zeta.
    rewrite trim_series_lookup in Hvalue. rewrite Hf in *.
    replace (S (S k) - 1 + 0)%nat with (S k) in Hvalue by lia.
    apply cvd_series_rule in Hvalue. cbn iota in Hvalue.
    by replace (S (S k) - 1)%nat with (S k) by lia.
Qed.
End CvdInvariant.

Section CvdInvariantClaim.
Import JS Worker Feed Spec.
Local Open Scope Qc_scope.
Implicit Types cvdHistory : gmap string (list Qc).

Lemma stored_series window cvdHistory symbol ticks s :
  (2 ≤ window)%nat → cvdHistory !! symbol = None →
  feed window cvdHistory symbol ticks !! symbol = Some s
  ∨ backfill cvdHistory symbol ticks !! symbol = Some s →
  (2 ≤ length ticks)%nat ∧ s = trim (cvd_series ticks).
Proof.
  intros Hw Hnone. rewrite feed_series, backfill_series by done.
  case_decide as Hlen.
  - rewrite Hnone. intros [?|?]; done.
  - rewrite lookup_insert_eq. intros Hs. split; [lia|].
    by destruct Hs as [[= <-]|[= <-]].
Qed.

(** After 102 ticks of rising prices with volume 1 the store holds the
    values 2, ..., 101: its first point is 2, not 0 + 1. *)
Lemma first_point_after_eviction_not_anchored :
  ∃ s, backfill ∅ "BTCUSDT" (Samples.rising 102) !! "BTCUSDT"%string = Some s
       ∧ s !! 0%nat = Some (lit 2 1)
       ∧ ¬ first_rule (Samples.rising 102) s.
Proof.
  exists (trim (cvd_series (Samples.rising 102))).
  split; [by rewrite backfill_series by done|].
  assert (trim (cvd_series (Samples.rising 102)) !! 0%nat = Some (lit 2 1)) as H0.
  { by vm_compute. }
  split; [exact H0|].
  intros Hfirst. specialize (Hfirst _ H0) as [Hup _].
  assert (lit 2 1 = 0 + get (volumes (Samples.rising 102))
                          (first_tick (Samples.rising 102)
                             (trim (cvd_series (Samples.rising 102))))) as Heq.
  { apply Hup. by vm_compute. }
  apply (f_equal this) in Heq. vm_compute in Heq. discriminate.
Qed.

(** C6 (amended).  In the series the store holds for a symbol after a tick
    sequence, fed one tick at a time or back-filled at once, every point but
    the first is the point before it plus the tick's volume when the price
    rose, minus it when the price fell, and unchanged when the price stayed;
    the first point is so relative to an anchor of 0 as long as nothing has
    been evicted, that is for at most 101 ticks; after that it is so
    relative to the last evicted value, the last point the store held when
    the ticks before the first retained one had come in. *)
Theorem stored_series_follows_rule
    window cvdHistory symbol (ticks : list Tick) (s : list Qc) :
  (2 ≤ window)%nat → cvdHistory !! symbol = None →
  feed window cvdHistory symbol ticks !! symbol = Some s
  ∨ backfill cvdHistory symbol ticks !! symbol = Some s →
  consecutive_rule ticks s
  ∧ ((length ticks ≤ 101)%nat → first_rule ticks s)
  ∧ ((101 < length ticks)%nat →
     ∃ before evicted,
       feed window cvdHistory symbol (take (first_tick ticks s) ticks) !! symbol
       = Some before
       ∧ backfill cvdHistory symbol (take (first_tick ticks s) ticks) !! symbol
         = Some before
       ∧ last before = Some evicted
       ∧ evicted_rule ticks s evicted).
Proof.
  intros Hw Hnone Hs. apply stored_series in Hs as [Hlen ->]; [|done..].
  split; [by apply trim_series_consecutive|].
  split; [intros Hle; by apply trim_series_first|].
  intros Hgt. destruct (trim_series_evicted ticks Hgt) as (evicted & Hlast & Hrule).
  cbn zeta in Hlast.
  set (f := first_tick ticks (trim (cvd_series ticks))) in *.
  assert (¬ (length (take f ticks) < 2)%nat) as Hf.
  { rewrite length_take. subst f. unfold first_tick.
    rewrite length_trim, length_cvd_series. unfold maxHistoryLength. lia. }
  exists (trim (cvd_series (take f ticks))), evicted.
  rewrite feed_series, backfill_series by done.
  rewrite !decide_False by done. by rewrite lookup_insert_eq.
Qed.

Lemma stored_series_follows_rule_witness :
  let ticks : list Tick :=
    [(lit 10 1, lit 100 1); (lit 10 1, lit 100 1); (lit 12 1, lit 100 1);
     (lit 11 1, lit 100 1); (lit 13 1, lit 100 1)] in
  let s := [lit 0 1; lit 100 1; lit 0 1; lit 100 1] in
  (2 ≤ 2)%nat ∧ (∅ : gmap string (list Qc)) !! "BTCUSDT"%string = None
  ∧ backfill ∅ "BTCUSDT" ticks !! "BTCUSDT"%string = Some s
  ∧ (length ticks ≤ 101)%nat
  ∧ consecutive_rule ticks s ∧ first_rule ticks s.
Proof.
  intros ticks s.
  assert (backfill ∅ "BTCUSDT" ticks !! "BTCUSDT"%string = Some s) as Hs.
  { by vm_compute. }
  assert (length ticks ≤ 101)%nat as Hlen by (cbn; lia).
  split; [lia|]. split; [reflexivity|]. split; [exact Hs|]. split; [exact Hlen|].
  destruct (stored_series_follows_rule 2 ∅ "BTCUSDT" ticks s) as (Hc & Hf & _);
    [lia | reflexivity | by right |].
  split; [exact Hc | exact (Hf Hlen)].
Defined.
End CvdInvariantClaim.

Section FlatPrices.
Import JS Worker Feed Spec.
Local Open Scope Qc_scope.
Implicit Types cvdHistory : gmap string (list Qc).

Lemma cvd_from_flat price previous ticks :
  Forall (λ t : Tick, t.1 = price) ticks →
  cvd_from price previous ticks = replicate (length ticks) previous.
Proof.
  induction 1 as [|[p v] ticks Hp _ IH]; [done|]. cbn in Hp. subst p.
  cbn [cvd_from length replicate].
  replace (price ?= price) with Eq by (symmetry; by apply Qceq_alt).
  by rewrite IH.
Qed.

Lemma cvd_series_flat price ticks :
  Forall (λ t : Tick, t.1 = price) ticks →
  cvd_series ticks = replicate (length ticks - 1) 0.
Proof.
  intros Hflat. destruct ticks as [|[p v] ticks]; [done|].
  apply Forall_cons in Hflat as [Hp Hflat]. cbn in Hp. subst p.
  cbn [cvd_series length]. rewrite (cvd_from_flat price) by done.
  f_equal. lia.
Qed.

Lemma trim_replicate n (x : Qc) :
  trim (replicate n x) = replicate (n `min` maxHistoryLength) x.
Proof.
  rewrite trim_drop, drop_replicate, length_replicate. f_equal. lia.
Qed.

Lemma slope_of_zeros cvdHistory symbol n :
  cvdHistory !! symbol = Some (replicate n 0) →
  calculateCVDSlope cvdHistory symbol 5 = 0.
Proof.
  intros Hs. unfold calculateCVDSlope. rewrite Hs. cbn [from_option]. unfold id.
  rewrite length_replicate. case_decide as Hn; [done|].
  unfold slice_last. cbn [Nat.add]. rewrite length_replicate, drop_replicate.
  replace (n - (n - 6))%nat with 6%nat by lia. apply Qc_is_canon. by vm_compute.
Qed.

Lemma trend_of_zeros cvdHistory symbol n :
  cvdHistory !! symbol = Some (replicate n 0) →
  calculateCVDTrend cvdHistory symbol 10 = neutral.
Proof.
  intros Hs. unfold calculateCVDTrend. rewrite Hs. cbn [from_option]. unfold id.
  rewrite length_replicate. case_decide as Hn; [done|].
  unfold slice_last. rewrite length_replicate, drop_replicate.
  replace (n - (n - 10))%nat with 10%nat by lia. by vm_compute.
Qed.

Lemma slope_of_nothing cvdHistory symbol :
  cvdHistory !! symbol = None → calculateCVDSlope cvdHistory symbol 5 = 0.
Proof. intros Hs. unfold calculateCVDSlope. by rewrite Hs. Qed.

Lemma trend_of_nothing cvdHistory symbol :
  cvdHistory !! symbol = None → calculateCVDTrend cvdHistory symbol 10 = neutral.
Proof. intros Hs. unfold calculateCVDTrend. by rewrite Hs. Qed.

(** C9.  When all prices of a tick sequence are equal, whatever the
    volumes, the series the store holds afterwards is constant (every point
    is 0), the CVD slope over the last 6 points is exactly 0 and the CVD
    trend is neutral; this holds whether the ticks were fed one at a time or
    back-filled at once. *)
Theorem flat_prices_give_flat_cvd
    window cvdHistory symbol (ticks : list Tick) (price : Qc)
    (cvdHistory' : gmap string (list Qc)) :
  (2 ≤ window)%nat → cvdHistory !! symbol = None →
  Forall (λ t : Tick, t.1 = price) ticks →
  cvdHistory' = feed window cvdHistory symbol ticks
  ∨ cvdHistory' = backfill cvdHistory symbol ticks →
  (∀ s, cvdHistory' !! symbol = Some s → s = replicate (length s) 0)
  ∧ calculateCVDSlope cvdHistory' symbol 5 = 0
  ∧ calculateCVDTrend cvdHistory' symbol 10 = neutral.
Proof.
  intros Hw Hnone Hflat Hstore.
  assert (cvdHistory' = if decide (length ticks < 2)%nat then cvdHistory
                        else <[symbol := replicate ((length ticks - 1) `min` maxHistoryLength) 0]>
                               cvdHistory) as ->.
  { rewrite <- trim_replicate, <- (cvd_series_flat price) by done.
    destruct Hstore as [-> | ->]; [by apply feed_series | by apply backfill_series]. }
  case_decide as Hlen.
  - split; [by rewrite Hnone|].
    split; [by apply slope_of_nothing | by apply trend_of_nothing].
  - split.
    + intros s. rewrite lookup_insert_eq. intros [= <-]. by rewrite length_replicate.
    + split; [eapply slope_of_zeros | eapply trend_of_zeros]; apply lookup_insert_eq.
Qed.

Lemma flat_prices_give_flat_cvd_witness :
  let ticks : list Tick := map (λ v, (lit 10 1, of_nat v)) (seq 1 12) in
  let store := feed 5 ∅ "BTCUSDT" ticks in
  (2 ≤ 5)%nat ∧ (∅ : gmap string (list Qc)) !! "BTCUSDT"%string = None
  ∧ Forall (λ t : Tick, t.1 = lit 10 1) ticks
  ∧ store !! "BTCUSDT"%string = Some (replicate 11 0)
  ∧ calculateCVDSlope store "BTCUSDT" 5 = 0
  ∧ calculateCVDTrend store "BTCUSDT" 10 = neutral.
Proof.
  intros ticks store.
  assert (Forall (λ t : Tick, t.1 = lit 10 1) ticks) as Hflat.
  { subst ticks. cbn [seq map]. repeat constructor. }
  destruct (flat_prices_give_flat_cvd 5 ∅ "BTCUSDT" ticks (lit 10 1) store)
    as [Hconst [Hslope Htrend]]; [lia | reflexivity | exact Hflat | by left |].
  split; [lia|]. split; [reflexivity|]. split; [exact Hflat|].
  split; [by vm_compute|]. split; [exact Hslope | exact Htrend].
Defined.
End FlatPrices.

Section Trend.
Import JS Worker Feed Spec.
Local Open Scope Qc_scope.
Implicit Types cvdHistory : gmap string (list Qc).

Lemma calculateCVDTrend_strength cvdHistory symbol :
  let s := default [] (cvdHistory !! symbol) in
  (10 ≤ length s)%nat →
  calculateCVDTrend cvdHistory symbol 10 =
    if decide (lit 1 10 < relative_change 10 s) then bullish
    else if decide (relative_change 10 s < - lit 1 10) then bearish
    else neutral.
Proof.
  intros s Hlen. unfold calculateCVDTrend. fold s.
  rewrite decide_False by lia.
  unfold slice_last, relative_change, num_or, or_else.
  rewrite !get_drop, length_drop, Nat.add_0_r.
  by replace (length s - 10 + (length s - (length s - 10) - 1))%nat
    with (length s - 1)%nat by lia.
Qed.

Lemma below_not_above (x : Qc) : x < - lit 1 10 → ¬ lit 1 10 < x.
Proof.
  intros Hlow Hhigh.
  assert (- lit 1 10 < lit 1 10) as Hmid by done.
  apply (Qclt_not_le _ _ (Qclt_trans _ _ _ Hlow Hmid)).
  by apply Qclt_le_weak.
Qed.

(** C8.  With at least 10 stored points the CVD trend is bullish exactly
    when the relative change from the first to the last of the last 10
    values is above 1/10, bearish exactly when it is below -1/10, and
    neutral otherwise, the change being taken over |first|, or over 1 when
    the first value is 0; with fewer than 10 points, or none stored, it is
    neutral. *)
Theorem cvd_trend_thresholds cvdHistory symbol :
  let s := default [] (cvdHistory !! symbol) in
  let trend := calculateCVDTrend cvdHistory symbol 10 in
  ((length s < 10)%nat → trend = neutral)
  ∧ ((10 ≤ length s)%nat →
     (trend = bullish ↔ lit 1 10 < relative_change 10 s)
     ∧ (trend = bearish ↔ relative_change 10 s < - lit 1 10)
     ∧ (trend = neutral ↔
        ¬ lit 1 10 < relative_change 10 s ∧ ¬ relative_change 10 s < - lit 1 10)).
Proof.
  intros s trend. split.
  - intros Hlen. subst trend. unfold calculateCVDTrend. fold s.
    by rewrite decide_True.
  - intros Hlen. subst trend. rewrite calculateCVDTrend_strength by done. fold s.
    pose proof (below_not_above (relative_change 10 s)) as Hexcl.
    destruct (decide (lit 1 10 < relative_change 10 s)) as [Hup|Hup];
      [|destruct (decide (relative_change 10 s < - lit 1 10)) as [Hdown|Hdown]];
      repeat split; intros; try done; tauto.
Qed.

Lemma cvd_trend_thresholds_witness :
  let store : gmap string (list Qc) :=
    {[ "BTCUSDT"%string := map of_nat [7; 100; 101; 102; 103; 104; 105; 106; 107; 108; 120]%nat ]} in
  (10 ≤ length (default [] (store !! "BTCUSDT"%string)))%nat
  ∧ lit 1 10 < relative_change 10 (default [] (store !! "BTCUSDT"%string))
  ∧ calculateCVDTrend store "BTCUSDT" 10 = bullish.
Proof.
  intros store.
  assert (10 ≤ length (default [] (store !! "BTCUSDT"%string)))%nat as Hlen
    by (vm_compute; lia).
  assert (lit 1 10 < relative_change 10 (default [] (store !! "BTCUSDT"%string))) as Hup
    by (by vm_compute).
  split; [exact Hlen|]. split; [exact Hup|].
  by apply (proj2 (cvd_trend_thresholds store "BTCUSDT") Hlen).
Defined.
End Trend.

(** ** The strategy evaluators *)

Section Evaluator.
Import JS Strategy Spec.
Local Open Scope Qc_scope.

Lemma rsiCondition_spec config indicators :
  rsiCondition config indicators = bool_decide (rsi_in_band config indicators).
Proof.
  unfold rsiCondition, rsi_in_band. rewrite num_or_0. symmetry. apply bool_decide_and.
Qed.

Lemma volumeCondition_spec config indicators :
  volumeCondition config indicators = bool_decide (volume_above config indicators).
Proof. unfold volumeCondition, volume_above. by rewrite !num_or_0. Qed.

(** C3.  With every optional flag of the configuration off, each condition
    of the vector is true except possibly RSI and Volume, and the aggregate
    decision is (rsiMin ≤ RSI ≤ rsiMax) and (volume > avgVolume ×
    volumeMultiplier), for the intraday and for the scalping evaluator. *)
Theorem optional_flags_off_leave_rsi_and_volume
    (config : StrategyConditionConfig) (currentPrice : Qc)
    (indicators : IndicatorValues) :
  let rsiOK := bool_decide (rsi_in_band config indicators) in
  let volumeOK := bool_decide (volume_above config indicators) in
  (optional_flags_off_intraday config →
   conditions (checkIntradayConditions config currentPrice indicators)
   = [("bollingerBands", true); ("macd", true); ("rsi", rsiOK);
      ("movingAverages", true); ("volume", volumeOK); ("cvd", true)]%string
   ∧ allConditionsMet (checkIntradayConditions config currentPrice indicators)
     = rsiOK && volumeOK)
  ∧ (optional_flags_off_scalping config →
     conditions (checkScalpingConditions config currentPrice indicators)
     = [("rsi", rsiOK); ("movingAverages", true); ("bollingerBands", true);
        ("macd", true); ("volume", volumeOK); ("cvd", true)]%string
     ∧ allConditionsMet (checkScalpingConditions config currentPrice indicators)
       = rsiOK && volumeOK).
Proof.
  intros rsiOK volumeOK. subst rsiOK volumeOK.
  rewrite <- rsiCondition_spec, <- volumeCondition_spec.
  split; intros (Hbb & Hmacd & Hma1 & Hma2 & Hcvd).
  - unfold checkIntradayConditions, check, bollingerCondition, macdCondition,
      maConditionIntraday, cvdCondition.
    rewrite Hbb, Hmacd, Hma1, Hma2, Hcvd. cbn.
    split; [done|]. by rewrite !andb_true_r.
  - unfold checkScalpingConditions, check, bollingerCondition, macdCondition,
      maConditionScalping, cvdCondition.
    rewrite Hbb, Hmacd, Hma1, Hma2, Hcvd. cbn.
    split; [done|]. by rewrite !andb_true_r.
Qed.

Lemma optional_flags_off_witness :
  let config := {|
    volumeMultiplier := lit 12 10; rsiMin := lit 35 1; rsiMax := lit 65 1;
    useMA5 := true; useMA8 := false; useMA13 := true; useMA20 := false;
    useMA21 := false; useMA34 := false; useMA50 := true;
    macdLineAboveSignal := false; macdLineAboveZero := true;
    bollingerMultiplier := lit 101 100; useBollingerUpper := true;
    useBollingerLower := false; useBollingerMiddle := true;
    cvdAboveZero := true; cvdSlopePositive := false;
    cvdLookbackCandles := lit 10 1;
    takeProfitPercent := lit 2 1; stopLossPercent := 1 |} in
  let indicators := Samples.snapshot (lit 200 1) in
  optional_flags_off_intraday config
  ∧ optional_flags_off_scalping config
  ∧ allConditionsMet (checkIntradayConditions config (lit 100 1) indicators)
    = bool_decide (rsi_in_band config indicators)
      && bool_decide (volume_above config indicators)
  ∧ allConditionsMet (checkScalpingConditions config (lit 100 1) indicators)
    = bool_decide (rsi_in_band config indicators)
      && bool_decide (volume_above config indicators).
Proof.
  intros config indicators.
  assert (optional_flags_off_intraday config) as Hi by (by repeat split).
  assert (optional_flags_off_scalping config) as Hs by (by repeat split).
  destruct (optional_flags_off_leave_rsi_and_volume config (lit 100 1) indicators)
    as [Hintraday Hscalping].
  split; [exact Hi|]. split; [exact Hs|].
  split; [exact (proj2 (Hintraday Hi)) | exact (proj2 (Hscalping Hs))].
Defined.
End Evaluator.

(** ** The indicators *)

Section LoopsOverArrays.
Import JS.
Local Open Scope Qc_scope.

Lemma fold_left_indices {S A} (g : nat → A) (f : A → S → S) (indices : list nat) s :
  fold_left (λ s i, f (g i) s) indices s
  = fold_left (λ s x, f x s) (map g indices) s.
Proof. revert s. induction indices as [|i indices IH]; intros s; [done|]. apply IH. Qed.

Lemma map_get_seq (l : list Qc) lo :
  map (get l) (seq lo (length l - lo)) = drop lo l.
Proof.
  apply list_eq. intros i. rewrite lookup_drop.
  change (map (get l)) with (fmap (M:=list) (get l)). rewrite list_lookup_fmap.
  destruct (decide (i < length l - lo)%nat) as [Hlt|Hge].
  - rewrite lookup_seq_lt by done. cbn. unfold get.
    destruct (lookup_lt_is_Some_2 l (lo + i)) as [x Hx]; [lia|]. by rewrite Hx.
  - rewrite lookup_seq_ge by lia. cbn. symmetry. apply lookup_ge_None. lia.
Qed.

(** A loop over the indices of an array that only reads the element at the
    index is a fold over the elements. *)
Lemma for_loop_get {S} (l : list Qc) (f : Qc → S → S) lo s :
  for_loop lo (length l) (λ i s, f (get l i) s) s
  = fold_left (λ s x, f x s) (drop lo l) s.
Proof. unfold for_loop. by rewrite (fold_left_indices (get l)), map_get_seq. Qed.
End LoopsOverArrays.

Section MACD.
Import JS Worker Spec.
Local Open Scope Qc_scope.

Lemma ema_from_fold multiplier ema later :
  ema_from multiplier ema later
  = fold_left (λ ema price, (price - ema) * multiplier + ema) later ema.
Proof. revert ema. induction later as [|p later IH]; intros ema; [done|]. apply IH. Qed.

Lemma calculateEMA_spec prices period : calculateEMA prices period = EMA period prices.
Proof.
  unfold calculateEMA, EMA. destruct prices as [|first later]; [done|].
  rewrite decide_False by done.
  rewrite (for_loop_get (first :: later)
             (λ price ema, (price - ema) * (lit 2 1 / (of_nat period + 1)) + ema)).
  by rewrite ema_from_fold.
Qed.

(** C4.  With fewer than 26 prices the MACD is all zero; with at least 26
    the line is EMA(12) − EMA(26) over the whole sequence, the signal is
    0.8 × line and the histogram is line − signal. *)
Theorem macd_line_signal_histogram (prices : list Qc) :
  ((length prices < 26)%nat →
   calculateMACD prices = {| macd := 0; signal := 0; line := 0 |})
  ∧ ((26 ≤ length prices)%nat →
     line (calculateMACD prices) = EMA 12 prices - EMA 26 prices
     ∧ signal (calculateMACD prices) = lit 8 10 * line (calculateMACD prices)
     ∧ macd (calculateMACD prices)
       = line (calculateMACD prices) - signal (calculateMACD prices)).
Proof.
  unfold calculateMACD. split; intros Hlen.
  - by rewrite decide_True.
  - rewrite decide_False by lia. cbn [line signal macd].
    rewrite !calculateEMA_spec. split; [done|].
    split; [apply Qcmult_comm | done].
Qed.

Lemma macd_line_signal_histogram_witness :
  let short := map of_nat (seq 1 25) in
  let long := map of_nat (seq 1 26) in
  (length short < 26)%nat ∧ (26 ≤ length long)%nat
  ∧ calculateMACD short = {| macd := 0; signal := 0; line := 0 |}
  ∧ line (calculateMACD long) = EMA 12 long - EMA 26 long
  ∧ signal (calculateMACD long) = lit 8 10 * line (calculateMACD long).
Proof.
  intros short long.
  assert (length short < 26)%nat as Hshort by (cbn; lia).
  assert (26 ≤ length long)%nat as Hlong by (cbn; lia).
  split; [exact Hshort|]. split; [exact Hlong|].
  split; [exact (proj1 (macd_line_signal_histogram short) Hshort)|].
  destruct (proj2 (macd_line_signal_histogram long) Hlong) as [Hline [Hsignal _]].
  split; [exact Hline | exact Hsignal].
Defined.
End MACD.

Section RSI.
Import JS Worker Spec.
Local Open Scope Qc_scope.

Lemma length_deltas prices : length (deltas prices) = (length prices - 1)%nat.
Proof.
  unfold deltas. rewrite length_zip_with. destruct prices; cbn; [done|]. lia.
Qed.

Lemma lookup_deltas prices j :
  (S j < length prices)%nat →
  deltas prices !! j = Some (get prices (S j) - get prices j).
Proof.
  intros Hj. unfold deltas, get. rewrite lookup_zip_with, lookup_tail.
  destruct (lookup_lt_is_Some_2 prices (S j)) as [x Hx]; [lia|].
  destruct (lookup_lt_is_Some_2 prices j) as [y Hy]; [lia|].
  by rewrite Hx, Hy.
Qed.

(** The changes the loop of [calculateRSI] visits are the last [period]
    deltas. *)
Lemma changes_are_last_deltas prices period :
  (period + 1 ≤ length prices)%nat →
  map (λ i, get prices i - get prices (i - 1))
      (seq (length prices - period) (length prices - (length prices - period)))
  = last_n period (deltas prices).
Proof.
  intros Hlen. apply list_eq. intros k. unfold last_n.
  rewrite lookup_drop, length_deltas.
  change (map ?f) with (fmap (M:=list) f). rewrite list_lookup_fmap.
  destruct (decide (k < period)%nat) as [Hk|Hk].
  - rewrite lookup_seq_lt by lia. cbn.
    rewrite lookup_deltas by lia. do 3 f_equal; lia.
  - rewrite lookup_seq_ge by lia. cbn. symmetry. apply lookup_ge_None.
    rewrite length_deltas. lia.
Qed.

Lemma not_pos_not_neg (d : Qc) : ¬ 0 < d → ¬ d < 0 → d = 0.
Proof.
  intros Hp Hn. apply Qcle_antisym; by apply Qcnot_lt_le.
Qed.

(** The two accumulators of the loop are the sum of the positive changes
    and the sum of the magnitudes of the negative ones. *)
Lemma gains_losses_fold (ds : list Qc) gains losses :
  fold_left
    (λ (s : Qc * Qc) change,
       let '(gains, losses) := s in
       if decide (0 < change) then (gains + change, losses)
       else (gains, losses + Qcabs change))
    ds (gains, losses)
  = (gains + sum (List.filter (λ d, bool_decide (0 < d)) ds),
     losses + sum (map Qcabs (List.filter (λ d, bool_decide (d < 0)) ds))).
Proof.
  revert gains losses. induction ds as [|d ds IH]; intros gains losses.
  - cbn. by rewrite !Qcplus_0_r.
  - cbn [fold_left List.filter]. destruct (decide (0 < d)) as [Hpos|Hpos].
    + rewrite IH, bool_decide_eq_true_2 by done.
      rewrite bool_decide_eq_false_2
        by (apply Qcle_not_lt; by apply Qclt_le_weak).
      cbn. by rewrite Qcplus_assoc.
    + rewrite IH, (bool_decide_eq_false_2 (0 < d)) by done.
      destruct (decide (d < 0)) as [Hneg|Hneg].
      * rewrite bool_decide_eq_true_2 by done. cbn. by rewrite Qcplus_assoc.
      * rewrite bool_decide_eq_false_2 by done.
        rewrite (not_pos_not_neg d) by done.
        replace (Qcabs 0) with 0 by (by apply Qc_is_canon).
        by rewrite Qcplus_0_r.
Qed.

Lemma calculateRSI_spec prices :
  (15 ≤ length prices)%nat →
  calculateRSI prices 14 =
    if decide (avgLoss 14 prices = 0) then lit 100 1
    else lit 100 1 - lit 100 1 / (1 + avgGain 14 prices / avgLoss 14 prices).
Proof.
  intros Hlen. unfold calculateRSI. rewrite decide_False by lia.
  unfold for_loop.
  match goal with
  | |- context [fold_left ?f ?l ?s] =>
      replace (fold_left f l s)
        with (sum (List.filter (λ d, bool_decide (0 < d)) (last_n 14 (deltas prices))),
              sum (map Qcabs (List.filter (λ d, bool_decide (d < 0))
                                          (last_n 14 (deltas prices)))))
  end; [done|].
  symmetry.
  etrans; [exact (fold_left_indices (λ i, get prices i - get prices (i - 1))
             (λ change '(gains, losses),
                if decide (0 < change) then (gains + change, losses)
                else (gains, losses + Qcabs change)) _ _)|].
  rewrite changes_are_last_deltas by lia.
  etrans; [exact (gains_losses_fold (last_n 14 (deltas prices)) 0 0)|].
  by rewrite !Qcplus_0_l.
Qed.
End RSI.

Section RSIClaim.
Import JS Worker Spec.
Local Open Scope Qc_scope.

Lemma Qcabs_pos_of_neg (d : Qc) : d < 0 → 0 < Qcabs d.
Proof.
  intros Hneg. rewrite Qcabs_neg by (by apply Qclt_le_weak).
  apply Qclt_minus_iff in Hneg. by rewrite Qcplus_0_l in Hneg.
Qed.

Lemma sum_abs_nonneg (l : list Qc) : 0 ≤ sum (map Qcabs l).
Proof.
  induction l as [|x l IH]; [done|]. cbn.
  apply Qcplus_nonneg_nonneg; [apply Qcabs_nonneg | exact IH].
Qed.

Lemma losses_pos (ds : list Qc) :
  Exists (λ d, d < 0) ds →
  0 < sum (map Qcabs (List.filter (λ d, bool_decide (d < 0)) ds)).
Proof.
  induction ds as [|d ds IH]; intros Hex; [by apply Exists_nil in Hex|].
  cbn [List.filter]. destruct (decide (d < 0)) as [Hneg|Hneg].
  - rewrite bool_decide_eq_true_2 by done. cbn.
    apply Qcplus_pos_nonneg; [by apply Qcabs_pos_of_neg | apply sum_abs_nonneg].
  - rewrite bool_decide_eq_false_2 by done. apply IH.
    apply Exists_cons in Hex as [Hd|Hds]; [done | exact Hds].
Qed.

Lemma losses_zero (ds : list Qc) :
  Forall (λ d, ¬ d < 0) ds →
  sum (map Qcabs (List.filter (λ d, bool_decide (d < 0)) ds)) = 0.
Proof.
  induction 1 as [|d ds Hd _ IH]; [done|].
  cbn [List.filter]. by rewrite bool_decide_eq_false_2.
Qed.

Lemma over_14_zero (x : Qc) : x / of_nat 14 = 0 ↔ x = 0.
Proof.
  split; [|intros ->; apply Qcmult_0_l].
  intros H. apply Qcmult_integral in H as [H|H]; [done|].
  apply (f_equal this) in H. vm_compute in H. discriminate.
Qed.

(** C5.  With fewer than 15 prices the RSI is exactly 50.  With at least
    15, when none of the last 14 deltas is negative the average loss is
    exactly zero and the RSI is exactly 100; otherwise the average loss is
    not zero and the RSI is 100 − 100/(1 + avgGain/avgLoss), the averages
    being taken over the last 14 deltas. *)
Theorem rsi_neutral_saturated_or_ratio (prices : list Qc) :
  ((length prices < 15)%nat → calculateRSI prices 14 = lit 50 1)
  ∧ ((15 ≤ length prices)%nat →
     Forall (λ d, ¬ d < 0) (last_n 14 (deltas prices)) →
     avgLoss 14 prices = 0 ∧ calculateRSI prices 14 = lit 100 1)
  ∧ ((15 ≤ length prices)%nat →
     Exists (λ d, d < 0) (last_n 14 (deltas prices)) →
     avgLoss 14 prices ≠ 0
     ∧ calculateRSI prices 14
       = lit 100 1 - lit 100 1 / (1 + avgGain 14 prices / avgLoss 14 prices)).
Proof.
  split; [|split].
  - intros Hlen. unfold calculateRSI. by rewrite decide_True by (cbn; lia).
  - intros Hlen Hnone.
    assert (avgLoss 14 prices = 0) as Hzero.
    { unfold avgLoss. apply over_14_zero. by apply losses_zero. }
    split; [exact Hzero|].
    rewrite calculateRSI_spec by done. by rewrite decide_True.
  - intros Hlen Hsome.
    assert (avgLoss 14 prices ≠ 0) as Hpos.
    { unfold avgLoss. rewrite over_14_zero. intros Hzero.
      apply losses_pos in Hsome. rewrite Hzero in Hsome.
      by apply (Qclt_not_le _ _ Hsome). }
    split; [exact Hpos|].
    rewrite calculateRSI_spec by done. by rewrite decide_False.
Qed.

Lemma rsi_neutral_saturated_or_ratio_witness :
  let short := map of_nat (seq 1 14) in
  let rising := map of_nat (seq 1 15) in
  let mixed := map of_nat [1; 2; 3; 4; 5; 6; 7; 8; 9; 10; 11; 12; 13; 12; 15; 16]%nat in
  (length short < 15)%nat ∧ calculateRSI short 14 = lit 50 1
  ∧ (15 ≤ length rising)%nat
  ∧ Forall (λ d, ¬ d < 0) (last_n 14 (deltas rising))
  ∧ calculateRSI rising 14 = lit 100 1
  ∧ (15 ≤ length mixed)%nat
  ∧ Exists (λ d, d < 0) (last_n 14 (deltas mixed))
  ∧ calculateRSI mixed 14
    = lit 100 1 - lit 100 1 / (1 + avgGain 14 mixed / avgLoss 14 mixed).
Proof.
  intros short rising mixed.
  assert (length short < 15)%nat as Hshort by (cbn; lia).
  assert (15 ≤ length rising)%nat as Hrising by (cbn; lia).
  assert (15 ≤ length mixed)%nat as Hmixed by (cbn; lia).
  assert (Forall (λ d, ¬ d < 0) (last_n 14 (deltas rising))) as Hnone.
  { apply Forall_forall. intros d Hd. apply list_elem_of_In in Hd.
    vm_compute in Hd. intros Hneg.
    repeat (destruct Hd as [<-|Hd]; [by vm_compute in Hneg|]). done. }
  assert (Exists (λ d, d < 0) (last_n 14 (deltas mixed))) as Hsome.
  { apply Exists_exists. exists (of_nat 12 - of_nat 13). split; [|done].
    apply list_elem_of_lookup. exists 11%nat. by vm_compute. }
  destruct (rsi_neutral_saturated_or_ratio short) as [H50 _].
  destruct (rsi_neutral_saturated_or_ratio rising) as [_ [H100 _]].
  destruct (rsi_neutral_saturated_or_ratio mixed) as [_ [_ Hratio]].
  split; [exact Hshort|]. split; [exact (H50 Hshort)|].
  split; [exact Hrising|]. split; [exact Hnone|].
  split; [exact (proj2 (H100 Hrising Hnone))|].
  split; [exact Hmixed|]. split; [exact Hsome|].
  exact (proj2 (Hratio Hmixed Hsome)).
Defined.
End RSIClaim.

Section BollingerClaim.
Import JS Worker Spec.
Local Open Scope Qc_scope.

Variable sqrt : Qc → Qc.

Lemma reduce_sum {A} (g : A → Qc) (l : list A) (init : Qc) :
  reduce (λ sum x, sum + g x) init l = init + sum (map g l).
Proof.
  unfold reduce. revert init. induction l as [|x l IH]; intros init; cbn.
  - by rewrite Qcplus_0_r.
  - by rewrite IH, Qcplus_assoc.
Qed.

Lemma slice_last_20 (prices : list Qc) :
  slice_last 20 prices = last_n 20 prices.
Proof. done. Qed.

Lemma length_last_n {A} n (l : list A) : (n ≤ length l)%nat → length (last_n n l) = n.
Proof. intros H. unfold last_n. rewrite length_drop. lia. Qed.

(** C7.  With fewer than 20 prices the three bands are the current price,
    the last price of the sequence (0 when there is none).  With at least 20
    the middle band is the arithmetic mean of the last 20 prices and the
    upper and lower bands are the middle plus and minus 2 population
    standard deviations of those 20 prices. *)
Theorem bollinger_bands_collapse_or_envelope (prices : list Qc) :
  let bands := calculateBollingerBands sqrt prices 20 in
  ((length prices < 20)%nat →
   upper bands = middle bands ∧ lower bands = middle bands
   ∧ (∀ currentPrice, last prices = Some currentPrice → middle bands = currentPrice)
   ∧ (prices = [] → middle bands = 0))
  ∧ ((20 ≤ length prices)%nat →
     let recent := last_n 20 prices in
     middle bands = mean recent
     ∧ upper bands = middle bands + lit 2 1 * population_stddev sqrt recent
     ∧ lower bands = middle bands - lit 2 1 * population_stddev sqrt recent).
Proof.
  intros bands. subst bands. unfold calculateBollingerBands. split; intros Hlen.
  - rewrite decide_True by done. cbn [upper lower middle].
    split; [done|]. split; [done|]. split.
    + intros currentPrice ->. apply or_else_Some.
    + by intros ->.
  - rewrite decide_False by lia. cbn [upper lower middle].
    rewrite slice_last_20. set (recent := last_n 20 prices).
    assert (length recent = 20%nat) as H20 by (by apply length_last_n).
    assert (reduce (λ sum price, sum + price) 0 recent / of_nat 20 = mean recent) as Hmean.
    { unfold mean. rewrite H20.
      rewrite (reduce_sum (λ x, x)), Qcplus_0_l. by rewrite map_id. }
    rewrite Hmean.
    assert (sqrt (reduce (λ sum price, sum + (price - mean recent) * (price - mean recent))
                    0 recent / of_nat 20)
            = population_stddev sqrt recent) as Hdev.
    { unfold population_stddev. f_equal. unfold mean at 3.
      rewrite length_map, H20.
      by rewrite (reduce_sum (λ x, (x - mean recent) * (x - mean recent))), Qcplus_0_l. }
    rewrite Hdev. split; [done|]. by rewrite (Qcmult_comm (lit 2 1)).
Qed.
End BollingerClaim.

Lemma bollinger_bands_witness :
  let sqrt : Qc → Qc := λ x, x in
  let short := map JS.of_nat (seq 1 19) in
  let long := map JS.of_nat (seq 1 20) in
  (length short < 20)%nat ∧ last short = Some (JS.of_nat 19)
  ∧ Worker.middle (Worker.calculateBollingerBands sqrt short 20) = JS.of_nat 19
  ∧ (20 ≤ length long)%nat
  ∧ Worker.middle (Worker.calculateBollingerBands sqrt long 20)
    = Spec.mean (Spec.last_n 20 long).
Proof.
  intros sqrt short long.
  assert (length short < 20)%nat as Hshort by (cbn; lia).
  assert (20 ≤ length long)%nat as Hlong by (cbn; lia).
  assert (last short = Some (JS.of_nat 19)) as Hlast by reflexivity.
  destruct (bollinger_bands_collapse_or_envelope sqrt short) as [Hcollapse _].
  destruct (bollinger_bands_collapse_or_envelope sqrt long) as [_ Henvelope].
  split; [exact Hshort|]. split; [exact Hlast|].
  split; [exact (proj1 (proj2 (proj2 (Hcollapse Hshort))) _ Hlast)|].
  split; [exact Hlong|]. exact (proj1 (Henvelope Hlong)).
Defined.

(** ** Further properties of the CVD store *)

(** Goals and hypotheses on [Qc] read on [Q], for [lra], [nra] and [field]. *)
Ltac qc2q :=
  unfold Qclt, Qcle, Qcminus, Qcdiv, Qcinv, Qcplus, Qcmult, Qcopp, Q2Qc in *;
  cbn [this] in *; repeat rewrite Qred_correct in *.

Section CvdStoreMore.
Import JS Worker Feed Spec.
Local Open Scope Qc_scope.
Implicit Types cvdHistory : gmap string (list Qc).

Lemma updateCVD_store cvdHistory symbol priceData volumeData :
  (2 ≤ length priceData)%nat → (2 ≤ length volumeData)%nat →
  ∃ s, (updateCVD cvdHistory symbol priceData volumeData).2 = <[symbol := trim s]> cvdHistory
       ∧ (updateCVD cvdHistory symbol priceData volumeData).1 = default 0 (last (trim s))
       ∧ s ≠ [].
Proof.
  intros Hp Hv. unfold updateCVD. rewrite decide_False by lia.
  eexists. cbn [fst snd]. split; [reflexivity|]. split; [apply or_else_default|].
  case_decide as Hempty; [|by destruct (default [] (cvdHistory !! symbol))].
  assert (1 ≤ length priceData `min` length volumeData - 1)%nat as Hn by lia.
  unfold for_loop. destruct (length priceData `min` length volumeData - 1)%nat as [|n];
    [lia|].
  rewrite seq_S, fold_left_app. cbn [fold_left].
  destruct (fold_left _ (seq 1 n) _) as [r vals]. cbn. by destruct vals.
Qed.

(** X1.  A call of [updateCVD] with at least two prices and two volumes
    leaves for its symbol a series of at least 1 and at most 100 points,
    whatever the store held before, and returns the last point of that
    series. *)
Theorem updateCVD_series_bounded cvdHistory symbol (priceData volumeData : list Qc) :
  (2 ≤ length priceData)%nat → (2 ≤ length volumeData)%nat →
  ∃ s, (updateCVD cvdHistory symbol priceData volumeData).2 !! symbol = Some s
       ∧ (1 ≤ length s ≤ maxHistoryLength)%nat
       ∧ last s = Some (updateCVD cvdHistory symbol priceData volumeData).1.
Proof.
  intros Hp Hv.
  destruct (updateCVD_store cvdHistory symbol priceData volumeData Hp Hv)
    as (s & -> & -> & Hne).
  exists (trim s). rewrite lookup_insert_eq. split; [done|].
  assert (1 ≤ length s)%nat by (destruct s; [done | cbn; lia]).
  split; [rewrite length_trim; unfold maxHistoryLength; lia|].
  rewrite last_trim. destruct s using rev_ind; [done|]. by rewrite last_snoc.
Qed.

Lemma updateCVD_series_bounded_witness :
  (2 ≤ length [lit 1 1; lit 2 1; lit 3 1])%nat
  ∧ (2 ≤ length [lit 5 1; lit 6 1; lit 7 1])%nat
  ∧ ∃ s, (updateCVD ∅ "ETHUSDT" [lit 1 1; lit 2 1; lit 3 1]
                    [lit 5 1; lit 6 1; lit 7 1]).2 !! "ETHUSDT"%string = Some s
         ∧ (1 ≤ length s ≤ maxHistoryLength)%nat.
Proof.
  assert (2 ≤ length [lit 1 1; lit 2 1; lit 3 1])%nat as Hp by (cbn; lia).
  assert (2 ≤ length [lit 5 1; lit 6 1; lit 7 1])%nat as Hv by (cbn; lia).
  split; [exact Hp|]. split; [exact Hv|].
  destruct (updateCVD_series_bounded ∅ "ETHUSDT" _ _ Hp Hv) as (s & Hs & Hlen & _).
  exists s. split; [exact Hs | exact Hlen].
Defined.

(** X2.  [updateCVD] reads and writes the entry of its own symbol only:
    every other symbol's series is left as it was, and the result does not
    depend on them. *)
Theorem updateCVD_other_symbols_untouched
    cvdHistory cvdHistory' symbol other (priceData volumeData : list Qc) :
  other ≠ symbol →
  cvdHistory' !! symbol = cvdHistory !! symbol →
  (updateCVD cvdHistory symbol priceData volumeData).2 !! other = cvdHistory !! other
  ∧ (updateCVD cvdHistory' symbol priceData volumeData).1
    = (updateCVD cvdHistory symbol priceData volumeData).1
  ∧ (updateCVD cvdHistory' symbol priceData volumeData).2 !! symbol
    = (updateCVD cvdHistory symbol priceData volumeData).2 !! symbol.
Proof.
  intros Hne Hsame. unfold updateCVD. rewrite Hsame.
  case_decide; cbn [fst snd]; [done|].
  rewrite lookup_insert_ne by done. by rewrite !lookup_insert_eq.
Qed.

Lemma updateCVD_other_symbols_witness :
  let store : gmap string (list Qc) := {[ "BTCUSDT"%string := [lit 7 1]%list ]} in
  "BTCUSDT"%string ≠ "ETHUSDT"%string
  ∧ (updateCVD store "ETHUSDT" [lit 1 1; lit 2 1] [lit 5 1; lit 6 1]).2 !! "BTCUSDT"%string
    = Some [lit 7 1]%list.
Proof.
  intros store.
  assert ("BTCUSDT"%string ≠ "ETHUSDT"%string) as Hne by done.
  split; [exact Hne|].
  exact (proj1 (updateCVD_other_symbols_untouched store store "ETHUSDT" "BTCUSDT"
                  [lit 1 1; lit 2 1] [lit 5 1; lit 6 1] Hne eq_refl)).
Defined.
End CvdStoreMore.

Section CvdStoreAppend.
Import JS Worker Feed Spec.
Local Open Scope Qc_scope.
Implicit Types cvdHistory : gmap string (list Qc).

(** X3.  Once a symbol has a series of at most 100 points, a call of
    [updateCVD] appends exactly one point, obtained from the last stored
    point by the rule on the latest two prices and the latest volume, and
    evicts the oldest point, and only it, when the series was full. *)
Theorem updateCVD_appends_one_evicts_oldest
    cvdHistory symbol (priceData volumeData s : list Qc) :
  (2 ≤ length priceData)%nat → (2 ≤ length volumeData)%nat →
  cvdHistory !! symbol = Some s → (1 ≤ length s ≤ maxHistoryLength)%nat →
  ∃ value,
    (updateCVD cvdHistory symbol priceData volumeData).2 !! symbol
    = Some ((if decide (length s = maxHistoryLength) then drop 1 s else s) ++ [value])
    ∧ follows_rule (default 0 (last s))
        (get priceData (length priceData - 2)) (get priceData (length priceData - 1))
        (get volumeData (length volumeData - 1)) value
    ∧ (updateCVD cvdHistory symbol priceData volumeData).1 = value.
Proof.
  intros Hp Hv Hs Hlen.
  assert (s ≠ []) as Hne by (intros ->; cbn in Hlen; lia).
  rewrite (updateCVD_next cvdHistory symbol priceData volumeData s) by done.
  cbn [fst snd]. eexists. rewrite lookup_insert_eq.
  split; [|split; [apply cvd_step_follows_rule|]].
  - f_equal. rewrite trim_drop, length_app. cbn [length]. unfold maxHistoryLength in *.
    case_decide as Hfull.
    + rewrite Hfull. replace (100 + 1 - 100)%nat with 1%nat by lia.
      rewrite drop_app_le by lia. done.
    + by replace (length s + 1 - 100)%nat with 0%nat by lia.
  - rewrite last_trim. by rewrite last_snoc.
Qed.

Lemma updateCVD_appends_one_witness :
  let store : gmap string (list Qc) := {[ "BTCUSDT"%string := of_nat <$> seq 1 100 ]} in
  ∃ value,
    (updateCVD store "BTCUSDT" [lit 10 1; lit 11 1] [lit 3 1; lit 4 1]).2 !! "BTCUSDT"%string
    = Some ((of_nat <$> seq 2 99) ++ [value])
    ∧ (updateCVD store "BTCUSDT" [lit 10 1; lit 11 1] [lit 3 1; lit 4 1]).1 = value.
Proof.
  intros store.
  destruct (updateCVD_appends_one_evicts_oldest store "BTCUSDT"
              [lit 10 1; lit 11 1] [lit 3 1; lit 4 1] (of_nat <$> seq 1 100))
    as (value & Hs & _ & Hv);
    [cbn; lia | cbn; lia | done
     | rewrite length_fmap, length_seq; unfold maxHistoryLength; lia |].
  exists value. split; [exact Hs | exact Hv].
Defined.

Lemma get_zip_prices (priceData volumeData : list Qc) i :
  (i < length priceData `min` length volumeData)%nat →
  get (prices (zip priceData volumeData)) i = get priceData i
  ∧ get (volumes (zip priceData volumeData)) i = get volumeData i.
Proof.
  intros Hi. unfold get, prices, volumes. rewrite !list_lookup_fmap, !lookup_zip_with.
  destruct (lookup_lt_is_Some_2 priceData i) as [x ->]; [lia|].
  by destruct (lookup_lt_is_Some_2 volumeData i) as [y ->]; [lia|].
Qed.

(** X4.  The first call for a symbol pairs price [i] with volume [i] up to
    the shorter of the two histories and ignores what the longer one has
    beyond it: the series it stores is that of the paired samples, cut to the
    last 100 points. *)
Theorem updateCVD_backfill_pairs_up_to_shorter
    cvdHistory symbol (priceData volumeData : list Qc) :
  (2 ≤ length priceData)%nat → (2 ≤ length volumeData)%nat →
  cvdHistory !! symbol = None →
  (updateCVD cvdHistory symbol priceData volumeData).2
  = <[symbol := trim (cvd_series (zip priceData volumeData))]> cvdHistory.
Proof.
  intros Hp Hv Hnone.
  assert (2 ≤ length (zip priceData volumeData))%nat as Hz
    by (rewrite length_zip_with; lia).
  transitivity (updateCVD cvdHistory symbol (prices (zip priceData volumeData))
                  (volumes (zip priceData volumeData))).2;
    [| rewrite updateCVD_first; [done | done | by rewrite Hnone]].
  unfold updateCVD.
  rewrite (decide_False (P := (length priceData < 2 ∨ length volumeData < 2)%nat)) by lia.
  rewrite (decide_False (P := (length (prices _) < 2 ∨ length (volumes _) < 2)%nat))
    by (rewrite length_prices, length_volumes; lia).
  rewrite Hnone. cbn [default from_option length]. rewrite !decide_True by done.
  cbn [snd]. rewrite length_prices, length_volumes, length_zip_with, Nat.min_id.
  do 3 f_equal. apply for_loop_ext. intros i [r vals] Hi. cbn zeta.
  destruct (get_zip_prices priceData volumeData i) as [-> ->]; [lia|].
  by destruct (get_zip_prices priceData volumeData (i - 1)) as [-> _]; [lia|].
Qed.

Lemma updateCVD_backfill_pairs_witness :
  (updateCVD ∅ "BTCUSDT" [lit 1 1; lit 2 1; lit 3 1; lit 2 1] [lit 5 1; lit 6 1]).2
  = <["BTCUSDT"%string :=
        trim (cvd_series (zip [lit 1 1; lit 2 1; lit 3 1; lit 2 1] [lit 5 1; lit 6 1]))]> ∅.
Proof.
  apply (updateCVD_backfill_pairs_up_to_shorter ∅ "BTCUSDT"
           [lit 1 1; lit 2 1; lit 3 1; lit 2 1] [lit 5 1; lit 6 1]);
    [cbn; lia | cbn; lia | done].
Defined.
End CvdStoreAppend.

Section Slope.
Import JS Worker Feed Spec.
Local Open Scope Qc_scope.
Implicit Types cvdHistory : gmap string (list Qc).

Lemma last_six (s : list Qc) :
  (6 ≤ length s)%nat →
  slice_last 6 s = map (λ i, get s (length s - 6 + i)) (seq 0 6).
Proof.
  intros Hlen. unfold slice_last. apply list_eq. intros i.
  rewrite lookup_drop.
  change (map ?f) with (fmap (M:=list) f). rewrite list_lookup_fmap.
  destruct (decide (i < 6)%nat) as [Hi|Hi].
  - rewrite lookup_seq_lt by done. cbn. unfold get.
    by destruct (lookup_lt_is_Some_2 s (length s - 6 + i)) as [x ->]; [lia|].
  - rewrite lookup_seq_ge by lia. cbn. apply lookup_ge_None. lia.
Qed.

(** X5.  With fewer than 6 stored points the CVD slope is 0.  Otherwise it
    is computed from the last six stored points [y 0 .. y 5] of the symbol
    and from nothing else: the sums over the indices are the constants 15
    and 55, so the divisor of the regression is 105, never 0, and the slope
    is (6 Σ i·y i − 15 Σ y i) / 105 with the sums taken in the loop's
    order. *)
Theorem cvd_slope_over_last_six_points cvdHistory symbol :
  let s := default [] (cvdHistory !! symbol) in
  let y i := get s (length s - 6 + i) in
  ((length s < 6)%nat → calculateCVDSlope cvdHistory symbol 5 = 0)
  ∧ ((6 ≤ length s)%nat →
     calculateCVDSlope cvdHistory symbol 5
     = (lit 6 1 * (0 + lit 0 1 * y 0%nat + lit 1 1 * y 1%nat + lit 2 1 * y 2%nat
                   + lit 3 1 * y 3%nat + lit 4 1 * y 4%nat + lit 5 1 * y 5%nat)
        - lit 15 1 * (0 + y 0%nat + y 1%nat + y 2%nat + y 3%nat + y 4%nat + y 5%nat))
       / lit 105 1).
Proof.
  intros s y. unfold calculateCVDSlope. fold s. cbn [Nat.add]. split.
  - intros Hlen. by rewrite decide_True.
  - intros Hlen. rewrite decide_False by lia.
    rewrite last_six by done. fold y.
    rewrite decide_False by (cbn; lia).
    unfold for_loop. cbn [seq Nat.sub map fold_left length]. unfold get at 1 2 3 4 5 6 7 8 9 10 11 12.
    cbn [lookup list_lookup from_option id default].
    generalize (y 0%nat) (y 1%nat) (y 2%nat) (y 3%nat) (y 4%nat) (y 5%nat).
    intros y0 y1 y2 y3 y4 y5.
    replace (of_nat 0) with (lit 0 1) by (by apply Qc_is_canon).
    replace (of_nat 1) with (lit 1 1) by (by apply Qc_is_canon).
    replace (of_nat 2) with (lit 2 1) by (by apply Qc_is_canon).
    replace (of_nat 3) with (lit 3 1) by (by apply Qc_is_canon).
    replace (of_nat 4) with (lit 4 1) by (by apply Qc_is_canon).
    replace (of_nat 5) with (lit 5 1) by (by apply Qc_is_canon).
    replace (of_nat 6) with (lit 6 1) by (by apply Qc_is_canon).
    replace (0 + lit 0 1 + lit 1 1 + lit 2 1 + lit 3 1 + lit 4 1 + lit 5 1)
      with (lit 15 1) by (by apply Qc_is_canon).
    replace (0 + lit 0 1 * lit 0 1 + lit 1 1 * lit 1 1 + lit 2 1 * lit 2 1
             + lit 3 1 * lit 3 1 + lit 4 1 * lit 4 1 + lit 5 1 * lit 5 1)
      with (lit 55 1) by (by apply Qc_is_canon).
    replace (lit 6 1 * lit 55 1 - lit 15 1 * lit 15 1) with (lit 105 1)
      by (by apply Qc_is_canon).
    reflexivity.
Qed.

Lemma cvd_slope_over_last_six_points_witness :
  let store : gmap string (list Qc) :=
    {[ "BTCUSDT"%string := map (λ i, lit 7 1 + of_nat i * lit 3 2) (seq 0 7) ]} in
  (6 ≤ length (default [] (store !! "BTCUSDT"%string)))%nat
  ∧ calculateCVDSlope store "BTCUSDT" 5 = lit 3 2.
Proof.
  intros store.
  assert (6 ≤ length (default [] (store !! "BTCUSDT"%string)))%nat as Hlen
    by (vm_compute; lia).
  split; [exact Hlen|].
  rewrite (proj2 (cvd_slope_over_last_six_points store "BTCUSDT") Hlen).
  by apply Qc_is_canon.
Defined.
End Slope.

Section RsiRange.
Import JS Worker Feed Spec.
Local Open Scope Qc_scope.

Lemma ratio_range (g l : Q) :
  (0 <= g)%Q → (0 < l)%Q →
  (0 <= 100 - 100 * / (1 + g * / l) <= 100)%Q.
Proof.
  intros Hg Hl.
  assert (0 < / l)%Q as Hil by (by apply Qinv_lt_0_compat).
  assert (0 <= g * / l)%Q as Hr by nra.
  set (t := (1 + g * / l)%Q) in *.
  assert (1 <= t)%Q as Ht by (subst t; lra).
  assert (0 < / t)%Q as Hit by (apply Qinv_lt_0_compat; lra).
  assert (t * / t == 1)%Q as Hinv by (apply Qmult_inv_r; lra).
  assert (/ t <= 1)%Q by nra.
  lra.
Qed.

Lemma sum_gains_nonneg (l : list Qc) :
  0 ≤ sum (List.filter (λ d, bool_decide (0 < d)) l).
Proof.
  induction l as [|x l IH]; [done|]. cbn [List.filter].
  destruct (decide (0 < x)) as [Hx|Hx].
  - rewrite bool_decide_eq_true_2 by done. cbn.
    apply Qcplus_nonneg_nonneg; [by apply Qclt_le_weak | exact IH].
  - by rewrite bool_decide_eq_false_2.
Qed.

Lemma over_14_nonneg (x : Qc) : 0 ≤ x → 0 ≤ x / of_nat 14.
Proof.
  intros H. unfold of_nat, Qc_of_Z. qc2q.
  change (/ inject_Z (Z.of_nat 14))%Q with (1 # 14)%Q. lra.
Qed.

(** X6.  The RSI is always between 0 and 100, whatever the prices. *)
Theorem rsi_between_0_and_100 (prices : list Qc) :
  0 ≤ calculateRSI prices 14 ≤ lit 100 1.
Proof.
  destruct (decide (length prices < 15)%nat) as [Hshort|Hlong].
  - unfold calculateRSI. rewrite decide_True by (cbn; lia). done.
  - rewrite calculateRSI_spec by lia. case_decide as Hzero; [done|].
    assert (0 ≤ avgGain 14 prices) as Hg
      by (apply over_14_nonneg, sum_gains_nonneg).
    assert (0 ≤ avgLoss 14 prices) as Hl
      by (apply over_14_nonneg, sum_abs_nonneg).
    assert (0 < avgLoss 14 prices) as Hpos.
    { apply Qcle_lt_or_eq in Hl as [Hl|Hl]; [done | by symmetry in Hl]. }
    remember (avgGain 14 prices) as g eqn:Eg.
    remember (avgLoss 14 prices) as l eqn:El. clear Eg El Hzero Hl.
    unfold lit. qc2q.
    pose proof (ratio_range g l Hg Hpos). lra.
Qed.
End RsiRange.

Section Averages.
Import JS Worker Feed Spec.
Local Open Scope Qc_scope.

Lemma of_nat_0 : of_nat 0 = 0.
Proof. by apply Qc_is_canon. Qed.

Lemma of_nat_S n : of_nat (S n) = of_nat n + 1.
Proof.
  apply Qc_is_canon. unfold of_nat, Qc_of_Z. qc2q.
  rewrite Nat2Z.inj_succ, <- Z.add_1_r, inject_Z_plus. reflexivity.
Qed.

Lemma of_nat_nonneg n : 0 ≤ of_nat n.
Proof.
  induction n as [|n IH]; [done|]. rewrite of_nat_S. qc2q. lra.
Qed.

Lemma of_nat_pos n : (1 ≤ n)%nat → 1 ≤ of_nat n.
Proof.
  destruct n as [|n]; [lia|]. intros _. rewrite of_nat_S.
  pose proof (of_nat_nonneg n). qc2q. lra.
Qed.

Lemma div_range (x n lo hi : Qc) :
  0 < n → n * lo ≤ x → x ≤ n * hi → lo ≤ x / n ≤ hi.
Proof.
  intros Hn Hlo Hhi. qc2q. split.
  - apply (Qle_shift_div_l lo x n); [done | lra].
  - apply (Qle_shift_div_r x n hi); [done | lra].
Qed.

Lemma multiplier_range period :
  (1 ≤ period)%nat →
  0 ≤ lit 2 1 / (of_nat period + 1) ≤ 1.
Proof.
  intros Hp. apply of_nat_pos in Hp.
  apply div_range; unfold lit; qc2q; lra.
Qed.

Lemma ema_from_range (k lo hi ema : Qc) later :
  0 ≤ k ≤ 1 → lo ≤ ema ≤ hi → Forall (λ p, lo ≤ p ≤ hi) later →
  lo ≤ ema_from k ema later ≤ hi.
Proof.
  intros Hk Hema Hlater. revert ema Hema.
  induction Hlater as [|p later Hp _ IH]; intros ema Hema; [done|].
  cbn [ema_from]. apply IH. destruct Hk, Hema, Hp. qc2q. split; nra.
Qed.

(** X7.  [calculateEMA] of no prices is 0.  For a period of at least 2 the
    EMA of a non-empty sequence never leaves the range of its prices: when
    every price is between [lo] and [hi], so is the EMA. *)
Theorem ema_within_price_range (prices : list Qc) (period : nat) (lo hi : Qc) :
  (prices = [] → calculateEMA prices period = 0)
  ∧ ((2 ≤ period)%nat → prices ≠ [] → Forall (λ p, lo ≤ p ≤ hi) prices →
     lo ≤ calculateEMA prices period ≤ hi).
Proof.
  rewrite calculateEMA_spec. split; [by intros ->|].
  intros Hperiod Hne Hall. destruct prices as [|first later]; [done|].
  apply Forall_cons in Hall as [Hfirst Hlater].
  by apply ema_from_range; [apply multiplier_range; lia | |].
Qed.

Lemma ema_within_price_range_witness :
  let prices := [lit 10 1; lit 12 1; lit 11 1; lit 13 1] in
  (2 ≤ 5)%nat ∧ prices ≠ []
  ∧ Forall (λ p, lit 10 1 ≤ p ≤ lit 13 1) prices
  ∧ lit 10 1 ≤ calculateEMA prices 5 ≤ lit 13 1.
Proof.
  intros prices.
  assert (Forall (λ p, lit 10 1 ≤ p ≤ lit 13 1) prices) as Hall
    by (repeat constructor; by vm_compute).
  assert (prices ≠ []) as Hne by done.
  split; [lia|]. split; [exact Hne|]. split; [exact Hall|].
  apply (proj2 (ema_within_price_range prices 5 (lit 10 1) (lit 13 1)));
    [lia | exact Hne | exact Hall].
Defined.

Lemma sum_range (l : list Qc) (lo hi : Qc) :
  Forall (λ p, lo ≤ p ≤ hi) l →
  of_nat (length l) * lo ≤ sum l ∧ sum l ≤ of_nat (length l) * hi.
Proof.
  induction 1 as [|p l [Hlo Hhi] _ [IHlo IHhi]].
  - cbn [length]. rewrite of_nat_0, !Qcmult_0_l. done.
  - cbn [length sum foldr]. fold (sum l). rewrite of_nat_S. qc2q. split; nra.
Qed.

Lemma sum_pos (l : list Qc) : l ≠ [] → Forall (λ p, 0 < p) l → 0 < sum l.
Proof.
  intros Hne Hall. induction Hall as [|p l Hp Hl IH]; [done|].
  cbn [sum foldr]. fold (sum l). destruct l as [|q l].
  - cbn. by rewrite Qcplus_0_r.
  - apply Qcplus_pos_nonneg; [done|]. apply Qclt_le_weak. by apply IH.
Qed.

Lemma slice_last_last_n {A} (period : nat) (l : list A) :
  (1 ≤ period)%nat → slice_last period l = last_n period l.
Proof. intros H. unfold slice_last. by destruct period; [lia|]. Qed.

(** X8.  [calculateMA] of fewer prices than the period is the last price (0
    when there is none).  Otherwise, for a period of at least 1, it is
    computed from the last [period] prices and from nothing else, and it is
    positive when those prices are. *)
Theorem ma_reads_last_period_prices (prices prices' : list Qc) (period : nat) :
  ((length prices < period)%nat → calculateMA prices period = default 0 (last prices))
  ∧ ((1 ≤ period ≤ length prices)%nat → (period ≤ length prices')%nat →
     last_n period prices = last_n period prices' →
     calculateMA prices period = calculateMA prices' period)
  ∧ ((1 ≤ period ≤ length prices)%nat →
     Forall (λ p, 0 < p) (last_n period prices) →
     0 < calculateMA prices period).
Proof.
  unfold calculateMA. split; [|split].
  - intros Hlen. rewrite decide_True by done. apply or_else_default.
  - intros [Hperiod Hlen] Hlen' Hsame. rewrite !decide_False by lia.
    by rewrite !slice_last_last_n, Hsame by done.
  - intros [Hperiod Hlen] Hall. rewrite decide_False by lia.
    rewrite slice_last_last_n by done.
    rewrite (reduce_sum (λ x, x)), Qcplus_0_l, map_id.
    assert (0 < sum (last_n period prices)) as Hsum.
    { apply sum_pos; [|done]. intros Hnil. apply (f_equal length) in Hnil.
      rewrite length_last_n in Hnil by done. cbn in Hnil. lia. }
    apply of_nat_pos in Hperiod.
    generalize dependent (sum (last_n period prices)).
    generalize dependent (of_nat period). intros n Hn total Htotal. qc2q.
    assert (0 < / n)%Q by (apply Qinv_lt_0_compat; lra). nra.
Qed.

Lemma ma_reads_last_period_prices_witness :
  let prices := [lit 10 1; lit 12 1; lit 11 1; lit 13 1] in
  let prices' := [lit 99 1; lit 12 1; lit 11 1; lit 13 1] in
  (1 ≤ 3 ≤ length prices)%nat ∧ (3 ≤ length prices')%nat
  ∧ last_n 3 prices = last_n 3 prices'
  ∧ calculateMA prices 3 = calculateMA prices' 3.
Proof.
  intros prices prices'.
  assert (1 ≤ 3 ≤ length prices)%nat as Hlen by (cbn; lia).
  assert (3 ≤ length prices')%nat as Hlen' by (cbn; lia).
  assert (last_n 3 prices = last_n 3 prices') as Hsame by reflexivity.
  split; [exact Hlen|]. split; [exact Hlen'|]. split; [exact Hsame|].
  exact (proj1 (proj2 (ma_reads_last_period_prices prices prices' 3)) Hlen Hlen' Hsame).
Defined.
End Averages.

Section FlatMarket.
Import JS Worker Feed Spec.
Local Open Scope Qc_scope.

Variable sqrt : Qc → Qc.

Lemma ema_from_flat k p m : ema_from k p (replicate m p) = p.
Proof.
  induction m as [|m IH]; [done|]. cbn [replicate ema_from].
  replace ((p - p) * k + p) with p; [done|].
  apply Qc_is_canon. qc2q. ring.
Qed.

Lemma calculateEMA_flat n p period : (1 ≤ n)%nat → calculateEMA (replicate n p) period = p.
Proof.
  intros Hn. rewrite calculateEMA_spec. destruct n as [|n]; [lia|].
  apply ema_from_flat.
Qed.

Lemma deltas_flat n p : Forall (λ d, d = 0) (deltas (replicate n p)).
Proof.
  apply Forall_forall. intros d Hd. unfold deltas in Hd.
  apply list_elem_of_lookup in Hd as [i Hi].
  apply lookup_zip_with_Some in Hi as (x & y & -> & Hx & Hy).
  rewrite lookup_tail in Hx.
  apply lookup_replicate in Hx as [-> _]. apply lookup_replicate in Hy as [-> _].
  apply Qcplus_opp_r.
Qed.

Lemma calculateRSI_flat n p : (15 ≤ n)%nat → calculateRSI (replicate n p) 14 = lit 100 1.
Proof.
  intros Hn. rewrite calculateRSI_spec by (by rewrite length_replicate).
  rewrite decide_True; [done|].
  unfold avgLoss. apply over_14_zero, losses_zero.
  unfold last_n. apply Forall_drop.
  eapply Forall_impl; [apply deltas_flat|]. intros d -> H. by vm_compute in H.
Qed.

Lemma calculateMACD_flat n p :
  (26 ≤ n)%nat →
  calculateMACD (replicate n p) = {| macd := 0; signal := 0; line := 0 |}.
Proof.
  intros Hn. unfold calculateMACD. rewrite length_replicate, decide_False by lia.
  rewrite !calculateEMA_flat by lia.
  f_equal; apply Qc_is_canon; unfold lit; qc2q; ring.
Qed.

(** X9.  On a flat market, that is for a history of at least 26 equal
    prices, the snapshot the worker posts has an RSI of exactly 100 (not the
    neutral 50), an all-zero MACD and every EMA equal to the price. *)
Theorem flat_market_snapshot
    (cvdHistory : gmap string (list Qc)) (symbol : string) (n : nat)
    (p : Qc) (volumeData : list Qc) (currentPrice : Qc) :
  (26 ≤ n)%nat →
  let indicators :=
    (Handler.onmessage sqrt cvdHistory symbol (replicate n p) volumeData currentPrice).2 in
  Strategy.rsi indicators = lit 100 1
  ∧ Strategy.macd indicators = {| macd := 0; signal := 0; line := 0 |}
  ∧ Forall (λ ma, ma = p)
      [Strategy.ma5 indicators; Strategy.ma8 indicators; Strategy.ma13 indicators;
       Strategy.ma20 indicators; Strategy.ma21 indicators; Strategy.ma34 indicators;
       Strategy.ma50 indicators].
Proof.
  intros Hn indicators. subst indicators. unfold Handler.onmessage.
  destruct (updateCVD _ _ _ _) as [cvd cvdHistory']. cbn [snd].
  cbn [Strategy.rsi Strategy.macd Strategy.ma5 Strategy.ma8 Strategy.ma13
       Strategy.ma20 Strategy.ma21 Strategy.ma34 Strategy.ma50].
  rewrite calculateRSI_flat, calculateMACD_flat, !calculateEMA_flat by (done || lia).
  repeat split; repeat constructor.
Qed.
End FlatMarket.

Lemma flat_market_snapshot_witness :
  let sqrt : Qc → Qc := λ x, x in
  let indicators :=
    (Handler.onmessage sqrt ∅ "BTCUSDT" (replicate 30 (JS.lit 42 1))
       (replicate 30 (JS.lit 5 1)) (JS.lit 42 1)).2 in
  (26 ≤ 30)%nat
  ∧ Strategy.rsi indicators = JS.lit 100 1
  ∧ Strategy.ma20 indicators = JS.lit 42 1.
Proof.
  intros sqrt indicators.
  destruct (flat_market_snapshot sqrt ∅ "BTCUSDT" 30 (JS.lit 42 1)
              (replicate 30 (JS.lit 5 1)) (JS.lit 42 1))
    as (Hrsi & _ & Hma); [lia |].
  split; [lia|]. split; [exact Hrsi|].
  apply Forall_cons in Hma as [_ Hma]. apply Forall_cons in Hma as [_ Hma].
  apply Forall_cons in Hma as [_ Hma]. by apply Forall_cons in Hma as [Hma _].
Defined.

(** ** Further properties of the tracker *)

Section TrackerMore.
Import Tracker TrackerReads.
Implicit Types state : gmap string (gmap string StrategyState).

Lemma pair_updated state symbol strategy conditions :
  (updateConditions state symbol strategy conditions).1 !! symbol ≫= (.!! strategy)
  = Some {| previousAllGreen := every conditions; currentConditions := conditions |}.
Proof.
  unfold updateConditions. cbn [fst]. rewrite lookup_insert_eq. cbn.
  by rewrite lookup_insert_eq.
Qed.

Lemma pair_other state symbol strategy symbol' strategy' conditions :
  ¬ (symbol' = symbol ∧ strategy' = strategy) →
  (updateConditions state symbol' strategy' conditions).1 !! symbol ≫= (.!! strategy)
  = state !! symbol ≫= (.!! strategy).
Proof.
  intros Hne. unfold updateConditions. cbn [fst].
  destruct (decide (symbol' = symbol)) as [->|Hs].
  - rewrite lookup_insert_eq. cbn.
    assert (strategy' ≠ strategy) as Hk by naive_solver.
    rewrite lookup_insert_ne by done.
    destruct (state !! symbol) as [m|] eqn:Hm; cbn.
    + rewrite Hm. cbn. destruct (m !! strategy') eqn:Hk'; cbn; [done|].
      by rewrite lookup_insert_ne.
    + rewrite lookup_insert_eq. cbn. rewrite (lookup_empty strategy').
      by rewrite lookup_insert_ne, lookup_empty.
  - rewrite lookup_insert_ne by done.
    destruct (state !! symbol') eqn:Hm; [done|]. by rewrite lookup_insert_ne.
Qed.

(** X10.  After [updateConditions] for a pair, [getConditions] returns the
    conditions just given and [isAllGreen] tells whether all of them hold;
    what the tracker holds for any other (symbol, strategy) pair is
    unchanged. *)
Theorem tracker_reads_back_and_keeps_other_pairs
    state symbol strategy conditions symbol' strategy' :
  let state' := (updateConditions state symbol strategy conditions).1 in
  getConditions state' symbol strategy = conditions
  ∧ isAllGreen state' symbol strategy = every conditions
  ∧ (¬ (symbol' = symbol ∧ strategy' = strategy) →
     getConditions state' symbol' strategy' = getConditions state symbol' strategy'
     ∧ isAllGreen state' symbol' strategy' = isAllGreen state symbol' strategy').
Proof.
  intros state'. subst state'. unfold getConditions, isAllGreen.
  rewrite pair_updated. split; [done|]. split; [done|].
  intros Hne. rewrite pair_other by (intros [? ?]; by apply Hne). done.
Qed.

Lemma tracker_reads_back_witness :
  let state := (updateConditions ∅ "BTCUSDT" "scalping" [("rsi", true)]%string).1 in
  let state' := (updateConditions state "BTCUSDT" "intraday" [("rsi", false)]%string).1 in
  ¬ ("BTCUSDT"%string = "BTCUSDT"%string ∧ "scalping"%string = "intraday"%string)
  ∧ getConditions state' "BTCUSDT" "scalping" = [("rsi", true)]%string
  ∧ isAllGreen state' "BTCUSDT" "scalping" = true.
Proof.
  intros state state'.
  assert (¬ ("BTCUSDT"%string = "BTCUSDT"%string ∧ "scalping"%string = "intraday"%string))
    as Hne by (by intros [_ ?]).
  split; [exact Hne|].
  destruct (tracker_reads_back_and_keeps_other_pairs state "BTCUSDT" "intraday"
              [("rsi", false)]%string "BTCUSDT" "scalping") as (_ & _ & Hother).
  destruct (Hother Hne) as [Hc Hg]. fold state' in Hc, Hg.
  split; [by rewrite Hc | by rewrite Hg].
Defined.

(** X11.  Repeating [updateConditions] with the same arguments logs
    nothing the second time and leaves the tracker as the first call left
    it. *)
Theorem tracker_update_idempotent state symbol strategy conditions :
  let state' := (updateConditions state symbol strategy conditions).1 in
  updateConditions state' symbol strategy conditions = (state', []).
Proof.
  intros state'.
  assert ((updateConditions state' symbol strategy conditions).2 = []) as Hlog.
  { rewrite updateConditions_logged. subst state'. rewrite isAllGreen_updated.
    by destruct (every conditions). }
  destruct (updateConditions state' symbol strategy conditions) as [state'' logged]
    eqn:Hupd.
  cbn in Hlog. subst logged. f_equal.
  assert (state'' = (updateConditions state' symbol strategy conditions).1) as ->
    by (by rewrite Hupd).
  subst state'. unfold updateConditions. cbn [fst].
  rewrite !lookup_insert_eq. cbn. rewrite !lookup_insert_eq. 
  by rewrite !insert_insert_eq.
Qed.
End TrackerMore.

(** ** Further properties of the strategy components *)

Section StrategyMore.
Import JS Strategy Spec.
Local Open Scope Qc_scope.

Lemma every_true_iff (conditions : Tracker.StrategyConditions) :
  Tracker.every conditions = true ↔ Forall (λ c, c.2 = true) conditions.
Proof.
  unfold Tracker.every. rewrite forallb_forall, Forall_forall.
  split; intros H c Hc; apply H; by apply list_elem_of_In.
Qed.

Lemma intraday_met_needs config currentPrice indicators :
  allConditionsMet (checkIntradayConditions config currentPrice indicators) = true →
  rsi_in_band config indicators ∧ volume_above config indicators.
Proof.
  unfold checkIntradayConditions, check. cbn [allConditionsMet Tracker.every forallb snd].
  rewrite rsiCondition_spec, volumeCondition_spec. intros H.
  repeat (apply andb_prop in H as [? H]).
  split; by eapply bool_decide_eq_true_1.
Qed.

Lemma scalping_met_needs config currentPrice indicators :
  allConditionsMet (checkScalpingConditions config currentPrice indicators) = true →
  rsi_in_band config indicators ∧ volume_above config indicators.
Proof.
  unfold checkScalpingConditions, check. cbn [allConditionsMet Tracker.every forallb snd].
  rewrite rsiCondition_spec, volumeCondition_spec. intros H.
  repeat (apply andb_prop in H as [? H]).
  split; by eapply bool_decide_eq_true_1.
Qed.

Lemma saveSignalBlock_signal symbol name strategy sig :
  sig ∈ saveSignalBlock symbol name strategy →
  allConditionsMet strategy = true
  ∧ saveSignalBlock symbol name strategy = [sig]%list
  ∧ sig_symbol sig = symbol ∧ sig_strategy sig = name
  ∧ sig_signal sig = signal strategy
  ∧ sig_entryPrice sig = entryPrice strategy
  ∧ sig_conditions sig = conditions strategy.
Proof.
  unfold saveSignalBlock. destruct (allConditionsMet strategy); [|by intros ?%elem_of_nil].
  intros ->%list_elem_of_singleton. done.
Qed.

(** X12.  A render of the intraday or of the scalping component hands at
    most one signal to [saveSignal].  Whatever it hands over is a LONG for
    the rendered symbol, its entry price is the current price, every
    condition it carries is true, and at that render the RSI is within
    [rsiMin, rsiMax] and the volume is above avgVolume × volumeMultiplier,
    whichever optional flags are set. *)
Theorem saved_signal_is_long_with_rsi_and_volume
    (state : gmap string (gmap string Tracker.StrategyState))
    (symbol : string) (r : Render) (sig : Signal) :
  let saved_intraday := IntradayStrategy symbol r in
  let saved_scalping := (ScalpingStrategy state symbol r).2.1 in
  (length saved_intraday ≤ 1)%nat ∧ (length saved_scalping ≤ 1)%nat
  ∧ (sig ∈ saved_intraday ∨ sig ∈ saved_scalping →
     sig_signal sig = LONG
     ∧ sig_symbol sig = symbol
     ∧ sig_entryPrice sig = r.1.2
     ∧ Forall (λ c, c.2 = true) (sig_conditions sig)
     ∧ rsi_in_band r.1.1 r.2 ∧ volume_above r.1.1 r.2).
Proof.
  intros saved_intraday saved_scalping.
  assert (saved_scalping
          = saveSignalBlock symbol "scalping" (checkScalpingConditions r.1.1 r.1.2 r.2))
    as Hscalping.
  { subst saved_scalping. unfold ScalpingStrategy.
    by destruct (Tracker.updateConditions _ _ _ _). }
  rewrite Hscalping. subst saved_intraday. unfold IntradayStrategy.
  split; [unfold saveSignalBlock; case_match; cbn; lia|].
  split; [unfold saveSignalBlock; case_match; cbn; lia|].
  intros Hsaved.
  assert (∃ strategy name,
            sig ∈ saveSignalBlock symbol name strategy
            ∧ (strategy = checkIntradayConditions r.1.1 r.1.2 r.2
               ∨ strategy = checkScalpingConditions r.1.1 r.1.2 r.2))
    as (strategy & name & Hin & Hstrategy).
  { destruct Hsaved as [Hin|Hin]; eexists _, _; (split; [exact Hin|]);
      [by left | by right]. }
  apply saveSignalBlock_signal in Hin
    as (Hmet & _ & Hsym & _ & Hsignal & Hentry & Hconds).
  rewrite Hsignal, Hsym, Hentry, Hconds.
  assert (signal strategy = LONG ∧ entryPrice strategy = r.1.2
          ∧ Tracker.every (conditions strategy) = true) as (Hlong & Hprice & Hevery).
  { destruct Hstrategy as [-> | ->];
      unfold checkIntradayConditions, checkScalpingConditions, check in *;
      cbn [signal entryPrice conditions allConditionsMet] in *; by rewrite Hmet. }
  split; [exact Hlong|]. split; [done|]. split; [exact Hprice|].
  split; [by apply every_true_iff|].
  destruct Hstrategy as [-> | ->];
    [by apply (intraday_met_needs _ r.1.2) | by apply (scalping_met_needs _ r.1.2)].
Qed.

Lemma saved_signal_witness :
  ∃ sig, sig ∈ IntradayStrategy "BTCUSDT" Samples.met
         ∧ sig_signal sig = LONG
         ∧ rsi_in_band Samples.met.1.1 Samples.met.2.
Proof.
  assert (∃ sig, IntradayStrategy "BTCUSDT" Samples.met = [sig]%list) as [sig Hsig]
    by (vm_compute; by eexists).
  exists sig.
  assert (sig ∈ IntradayStrategy "BTCUSDT" Samples.met) as Hin
    by (rewrite Hsig; apply list_elem_of_singleton; reflexivity).
  destruct (saved_signal_is_long_with_rsi_and_volume ∅ "BTCUSDT" Samples.met sig)
    as (_ & _ & Hprops).
  destruct (Hprops (or_introl Hin)) as (Hlong & _ & _ & _ & Hrsi & _).
  split; [exact Hin|]. split; [exact Hlong | exact Hrsi].
Defined.
End StrategyMore.

Section Levels.
Import JS Strategy Spec.
Local Open Scope Qc_scope.

Lemma check_levels config currentPrice conditions :
  0 < currentPrice → 0 < takeProfitPercent config → 0 < stopLossPercent config →
  let c := check config currentPrice conditions in
  entryPrice c = currentPrice
  ∧ stopLoss c < entryPrice c ∧ entryPrice c < takeProfit c
  ∧ (stopLossPercent config < lit 100 1 → 0 < stopLoss c).
Proof.
  intros Hprice Htp Hsl c. subst c. unfold check.
  cbn [entryPrice stopLoss takeProfit]. unfold lit.
  split; [done|]. qc2q.
  change (/ (100 # 1))%Q with (1 # 100)%Q.
  repeat split; intros; nra.
Qed.

(** X13.  For a positive current price and positive take-profit and
    stop-loss percentages, both evaluators set the entry at the current
    price, the stop loss strictly below it and the take profit strictly
    above it; the stop loss is positive as long as the stop-loss percentage
    is below 100. *)
Theorem stop_below_entry_below_target
    (config : StrategyConditionConfig) (currentPrice : Qc) (indicators : IndicatorValues) :
  0 < currentPrice → 0 < takeProfitPercent config → 0 < stopLossPercent config →
  Forall (λ c, entryPrice c = currentPrice
               ∧ stopLoss c < entryPrice c ∧ entryPrice c < takeProfit c
               ∧ (stopLossPercent config < lit 100 1 → 0 < stopLoss c))
    [checkIntradayConditions config currentPrice indicators;
     checkScalpingConditions config currentPrice indicators].
Proof.
  intros Hprice Htp Hsl.
  repeat constructor; by apply check_levels.
Qed.

Lemma stop_below_entry_below_target_witness :
  let c := checkIntradayConditions DEFAULT_INTRADAY_CONDITIONS (lit 100 1)
             (Samples.snapshot (lit 200 1)) in
  0 < lit 100 1 ∧ 0 < takeProfitPercent DEFAULT_INTRADAY_CONDITIONS
  ∧ 0 < stopLossPercent DEFAULT_INTRADAY_CONDITIONS
  ∧ stopLoss c < entryPrice c ∧ entryPrice c < takeProfit c.
Proof.
  intros c.
  assert (0 < lit 100 1) as Hp by done.
  assert (0 < takeProfitPercent DEFAULT_INTRADAY_CONDITIONS) as Htp by done.
  assert (0 < stopLossPercent DEFAULT_INTRADAY_CONDITIONS) as Hsl by done.
  pose proof (stop_below_entry_below_target DEFAULT_INTRADAY_CONDITIONS (lit 100 1)
                (Samples.snapshot (lit 200 1)) Hp Htp Hsl) as Hall.
  apply Forall_cons in Hall as [(_ & Hlow & Hhigh & _) _].
  split; [exact Hp|]. split; [exact Htp|]. split; [exact Hsl|].
  split; [exact Hlow | exact Hhigh].
Defined.
End Levels.

Section MacdOnWorker.
Import JS Strategy Spec.
Local Open Scope Qc_scope.

Lemma worker_macd_signal_below_line prices :
  let m := Worker.calculateMACD prices in
  Worker.signal m < Worker.line m ↔ 0 < Worker.line m.
Proof.
  cbn zeta. unfold Worker.calculateMACD. case_decide.
  - done.
  - cbn [Worker.signal Worker.line]. unfold lit.
    generalize (Worker.calculateEMA prices 12 - Worker.calculateEMA prices 26).
    intros l. qc2q. split; intros; lra.
Qed.

(** X14.  On a snapshot whose MACD is the worker's, the signal being
    0.8 × line, the MACD condition with [macdLineAboveSignal] on holds
    exactly when the MACD line is positive, so [macdLineAboveZero] changes
    nothing; with fewer than 26 prices the line is 0, the condition fails
    and neither evaluator's conditions are all met. *)
Theorem macd_condition_is_line_positive
    (config : StrategyConditionConfig) (currentPrice : Qc)
    (indicators : IndicatorValues) (prices : list Qc) :
  macd indicators = Worker.calculateMACD prices →
  macdLineAboveSignal config = true →
  macdCondition config indicators = bool_decide (0 < Worker.line (Worker.calculateMACD prices))
  ∧ ((length prices < 26)%nat →
     allConditionsMet (checkIntradayConditions config currentPrice indicators) = false
     ∧ allConditionsMet (checkScalpingConditions config currentPrice indicators) = false).
Proof.
  intros Hmacd Hflag.
  assert (macdCondition config indicators
          = bool_decide (0 < Worker.line (Worker.calculateMACD prices))) as Hcond.
  { unfold macdCondition. rewrite Hflag, Hmacd, !num_or_0.
    pose proof (worker_macd_signal_below_line prices) as Hiff. cbn zeta in Hiff.
    destruct (macdLineAboveZero config).
    - rewrite (bool_decide_ext _ _ Hiff). by destruct (bool_decide _).
    - by apply bool_decide_ext. }
  split; [exact Hcond|]. intros Hlen.
  assert (macdCondition config indicators = false) as Hfalse.
  { rewrite Hcond. unfold Worker.calculateMACD. by rewrite decide_True. }
  unfold checkIntradayConditions, checkScalpingConditions, check.
  cbn [allConditionsMet Tracker.every forallb snd]. rewrite Hfalse.
  by rewrite !andb_false_r, ?andb_false_l.
Qed.

Lemma macd_condition_is_line_positive_witness :
  let prices := map of_nat (seq 1 30) in
  let indicators := {|
    rsi := lit 50 1; macd := Worker.calculateMACD prices;
    ma5 := 0; ma8 := 0; ma13 := 0; ma20 := 0; ma21 := 0; ma34 := 0; ma50 := 0;
    bollingerUpper := 0; bollingerLower := 0; bollingerMiddle := 0;
    volume := 0; avgVolume := 0; volumeSpike := false; price := 0;
    openInterest := 0; cvd := 0; cvdTrend := Worker.neutral; cvdSlope := 0 |} in
  macdLineAboveSignal DEFAULT_SCALPING_CONDITIONS = true
  ∧ macdCondition DEFAULT_SCALPING_CONDITIONS indicators
    = bool_decide (0 < Worker.line (Worker.calculateMACD prices)).
Proof.
  intros prices indicators. split; [reflexivity|].
  apply (macd_condition_is_line_positive DEFAULT_SCALPING_CONDITIONS 0 indicators prices);
    reflexivity.
Defined.
End MacdOnWorker.

Section UnreadSettings.
Import JS Strategy Spec.
Local Open Scope Qc_scope.

(** X15.  The intraday evaluator reads only the thresholds, the MACD, CVD
    and Bollinger-lower settings and [useMA20]/[useMA34]; the scalping
    evaluator reads [useMA8]/[useMA21] in place of the latter.  Two
    configurations that agree on those settings give the same result: the
    other MA toggles, [useBollingerUpper], [useBollingerMiddle] and
    [cvdLookbackCandles] never change a decision. *)
Theorem unread_settings_do_not_matter
    (config config' : StrategyConditionConfig) (currentPrice : Qc)
    (indicators : IndicatorValues) :
  volumeMultiplier config' = volumeMultiplier config →
  rsiMin config' = rsiMin config → rsiMax config' = rsiMax config →
  macdLineAboveSignal config' = macdLineAboveSignal config →
  macdLineAboveZero config' = macdLineAboveZero config →
  bollingerMultiplier config' = bollingerMultiplier config →
  useBollingerLower config' = useBollingerLower config →
  cvdAboveZero config' = cvdAboveZero config →
  cvdSlopePositive config' = cvdSlopePositive config →
  takeProfitPercent config' = takeProfitPercent config →
  stopLossPercent config' = stopLossPercent config →
  (useMA20 config' = useMA20 config → useMA34 config' = useMA34 config →
   checkIntradayConditions config' currentPrice indicators
   = checkIntradayConditions config currentPrice indicators)
  ∧ (useMA8 config' = useMA8 config → useMA21 config' = useMA21 config →
     checkScalpingConditions config' currentPrice indicators
     = checkScalpingConditions config currentPrice indicators).
Proof.
  intros Hvm Hmin Hmax Hms Hmz Hbm Hbl Hcz Hcs Htp Hsl.
  split; intros Hma1 Hma2;
    unfold checkIntradayConditions, checkScalpingConditions, check,
      bollingerCondition, macdCondition, rsiCondition, maConditionIntraday,
      maConditionScalping, volumeCondition, cvdCondition;
    by rewrite Hvm, Hmin, Hmax, Hms, Hmz, Hbm, Hbl, Hcz, Hcs, Htp, Hsl, Hma1, Hma2.
Qed.

Lemma unread_settings_witness :
  let config := DEFAULT_INTRADAY_CONDITIONS in
  let config' := {|
    volumeMultiplier := lit 12 10; rsiMin := lit 35 1; rsiMax := lit 65 1;
    useMA5 := true; useMA8 := true; useMA13 := true; useMA20 := true;
    useMA21 := true; useMA34 := true; useMA50 := true;
    macdLineAboveSignal := true; macdLineAboveZero := false;
    bollingerMultiplier := lit 101 100; useBollingerUpper := true;
    useBollingerLower := true; useBollingerMiddle := true;
    cvdAboveZero := true; cvdSlopePositive := true;
    cvdLookbackCandles := lit 3 1;
    takeProfitPercent := lit 2 1; stopLossPercent := lit 1 1 |} in
  config' ≠ config
  ∧ checkIntradayConditions config' (lit 100 1) (Samples.snapshot (lit 200 1))
    = checkIntradayConditions config (lit 100 1) (Samples.snapshot (lit 200 1)).
Proof.
  intros config config'. split; [intros H; by apply (f_equal useMA5) in H|].
  apply (proj1 (unread_settings_do_not_matter config config' (lit 100 1)
                  (Samples.snapshot (lit 200 1))
                  eq_refl eq_refl eq_refl eq_refl eq_refl eq_refl eq_refl eq_refl
                  eq_refl eq_refl eq_refl)); reflexivity.
Defined.
End UnreadSettings.

Section FlatMarketSignals.
Import JS Strategy Spec.
Local Open Scope Qc_scope.

Variable sqrt : Qc → Qc.

(** X16.  On a flat market, with a history of at least 15 equal prices, the
    RSI the worker posts is 100, so under any configuration whose [rsiMax]
    is below 100, the defaults among them, neither evaluator's conditions
    are all met and no signal is saved. *)
Theorem flat_market_never_signals
    (config : StrategyConditionConfig) (cvdHistory : gmap string (list Qc))
    (symbol : string) (n : nat) (p : Qc) (volumeData : list Qc) (currentPrice : Qc) :
  (15 ≤ n)%nat → rsiMax config < lit 100 1 →
  let indicators :=
    (Handler.onmessage sqrt cvdHistory symbol (replicate n p) volumeData currentPrice).2 in
  allConditionsMet (checkIntradayConditions config currentPrice indicators) = false
  ∧ allConditionsMet (checkScalpingConditions config currentPrice indicators) = false
  ∧ IntradayStrategy symbol (config, currentPrice, indicators) = [].
Proof.
  intros Hn Hmax indicators.
  assert (rsiCondition config indicators = false) as Hrsi.
  { unfold rsiCondition. rewrite num_or_0.
    assert (rsi indicators = lit 100 1) as ->.
    { subst indicators. unfold Handler.onmessage.
      destruct (Worker.updateCVD _ _ _ _). cbn [snd rsi]. by apply calculateRSI_flat. }
    rewrite (bool_decide_eq_false_2 (lit 100 1 ≤ rsiMax config))
      by (by apply Qclt_not_le).
    apply andb_false_r. }
  assert (allConditionsMet (checkIntradayConditions config currentPrice indicators) = false)
    as Hintraday.
  { unfold checkIntradayConditions, check.
    cbn [allConditionsMet Tracker.every forallb snd]. rewrite Hrsi.
    by rewrite !andb_false_r, ?andb_false_l. }
  split; [exact Hintraday|]. split.
  - unfold checkScalpingConditions, check.
    cbn [allConditionsMet Tracker.every forallb snd]. by rewrite Hrsi.
  - unfold IntradayStrategy, saveSignalBlock. cbn [fst snd]. by rewrite Hintraday.
Qed.
End FlatMarketSignals.

Lemma flat_market_never_signals_witness :
  let sqrt : Qc → Qc := λ x, x in
  let indicators :=
    (Handler.onmessage sqrt ∅ "BTCUSDT" (replicate 20 (JS.lit 42 1))
       (replicate 20 (JS.lit 5 1)) (JS.lit 42 1)).2 in
  (15 ≤ 20)%nat
  ∧ (Strategy.rsiMax Strategy.DEFAULT_SCALPING_CONDITIONS < JS.lit 100 1)%Qc
  ∧ Strategy.allConditionsMet
      (Strategy.checkScalpingConditions Strategy.DEFAULT_SCALPING_CONDITIONS
         (JS.lit 42 1) indicators) = false.
Proof.
  intros sqrt indicators.
  assert (Strategy.rsiMax Strategy.DEFAULT_SCALPING_CONDITIONS < JS.lit 100 1)%Qc
    as Hmax by done.
  split; [lia|]. split; [exact Hmax|].
  refine (proj1 (proj2 (flat_market_never_signals sqrt
            Strategy.DEFAULT_SCALPING_CONDITIONS ∅ "BTCUSDT" 20 (JS.lit 42 1)
            (replicate 20 (JS.lit 5 1)) (JS.lit 42 1) _ Hmax))). lia.
Defined.

Section VolumeSpike.
Import JS Worker Spec.
Local Open Scope Qc_scope.

Lemma sum_snoc (l : list Qc) x : sum (l ++ [x]) = sum l + x.
Proof.
  induction l as [|y l IH]; cbn [app sum foldr].
  - by rewrite Qcplus_0_l, Qcplus_0_r.
  - fold (sum (l ++ [x])) (sum l). by rewrite IH, Qcplus_assoc.
Qed.

Lemma last_n_split (volumes : list Qc) :
  (20 ≤ length volumes)%nat →
  last_n 20 volumes
  = take 19 (last_n 20 volumes) ++ [get volumes (length volumes - 1)].
Proof.
  intros Hlen. rewrite <- (take_drop 19 (last_n 20 volumes)) at 1. f_equal.
  unfold last_n. rewrite drop_drop. apply list_eq. intros i.
  rewrite lookup_drop. destruct i as [|i].
  - cbn. unfold get. replace (length volumes - 20 + 19 + 0)%nat
      with (length volumes - 1)%nat by lia.
    by destruct (lookup_lt_is_Some_2 volumes (length volumes - 1)) as [x ->]; [lia|].
  - cbn. apply lookup_ge_None. lia.
Qed.

Lemma sum_scaled_at_least (k c : Qc) (l : list Qc) :
  Forall (λ v, c ≤ k * v) l → of_nat (length l) * c ≤ k * sum l.
Proof.
  induction 1 as [|v l Hv _ IH].
  - cbn [length sum foldr]. by rewrite of_nat_0, Qcmult_0_l, Qcmult_0_r.
  - cbn [length sum foldr]. fold (sum l). rewrite of_nat_S. qc2q. nra.
Qed.

Lemma sum_scaled_at_most (k c : Qc) (l : list Qc) :
  Forall (λ v, k * v ≤ c) l → k * sum l ≤ of_nat (length l) * c.
Proof.
  induction 1 as [|v l Hv _ IH].
  - cbn [length sum foldr]. by rewrite of_nat_0, Qcmult_0_l, Qcmult_0_r.
  - cbn [length sum foldr]. fold (sum l). rewrite of_nat_S. qc2q. nra.
Qed.

Lemma length_previous (volumes : list Qc) :
  (20 ≤ length volumes)%nat → length (take 19 (last_n 20 volumes)) = 19%nat.
Proof. intros H. rewrite length_take, length_last_n by done. lia. Qed.

(** X17.  With fewer than 20 volumes there is no spike and the average is
    the last volume (0 when there is none).  With at least 20, the latest
    volume counts in the average it is compared with: a latest volume that
    is at most twice each of the 19 volumes before it is never a spike, and
    a positive one that is at least three times each of them always is. *)
Theorem volume_spike_against_previous (volumes : list Qc) :
  let previous := take 19 (last_n 20 volumes) in
  let currentVolume := get volumes (length volumes - 1) in
  ((length volumes < 20)%nat →
   calculateVolumeSpike volumes 20 = (default 0 (last volumes), false))
  ∧ ((20 ≤ length volumes)%nat → 0 ≤ currentVolume →
     Forall (λ v, currentVolume ≤ lit 2 1 * v) previous →
     (calculateVolumeSpike volumes 20).2 = false)
  ∧ ((20 ≤ length volumes)%nat → 0 < currentVolume →
     Forall (λ v, lit 3 1 * v ≤ currentVolume) previous →
     (calculateVolumeSpike volumes 20).2 = true).
Proof.
  intros previous currentVolume.
  assert ((20 ≤ length volumes)%nat →
          (calculateVolumeSpike volumes 20).2
          = bool_decide ((sum previous + currentVolume) / of_nat 20 * lit 2 1
                         < currentVolume)) as Hspike.
  { intros Hlen. unfold calculateVolumeSpike. rewrite decide_False by lia. cbn [snd].
    assert (slice_last 20 volumes = last_n 20 volumes) as -> by done.
    rewrite (reduce_sum (λ x, x)), map_id, Qcplus_0_l.
    pose proof (last_n_split volumes Hlen) as Hsplit. fold previous currentVolume in Hsplit.
    by rewrite Hsplit, sum_snoc. }
  split; [|split].
  - intros Hlen. unfold calculateVolumeSpike.
    rewrite decide_True by done. by rewrite or_else_default.
  - intros Hlen Hcurrent Hall. rewrite Hspike by done.
    apply sum_scaled_at_least in Hall. subst previous.
    rewrite length_previous in Hall by done.
    apply bool_decide_eq_false_2. apply Qcle_not_lt.
    revert Hall Hcurrent. unfold lit, of_nat, Qc_of_Z.
    generalize (sum (take 19 (last_n 20 volumes))) currentVolume. intros s c. qc2q.
    change (/ inject_Z (Z.of_nat 20))%Q with (1 # 20)%Q.
    change (inject_Z (Z.of_nat 19)) with (19 # 1)%Q. intros; lra.
  - intros Hlen Hcurrent Hall. rewrite Hspike by done.
    apply sum_scaled_at_most in Hall. subst previous.
    rewrite length_previous in Hall by done.
    apply bool_decide_eq_true_2.
    revert Hall Hcurrent. unfold lit, of_nat, Qc_of_Z.
    generalize (sum (take 19 (last_n 20 volumes))) currentVolume. intros s c. qc2q.
    change (/ inject_Z (Z.of_nat 20))%Q with (1 # 20)%Q.
    change (inject_Z (Z.of_nat 19)) with (19 # 1)%Q. intros; lra.
Qed.

Lemma volume_spike_against_previous_witness :
  let volumes := replicate 19 (lit 9 1) ++ [lit 30 1]%list in
  (20 ≤ length volumes)%nat ∧ 0 < get volumes (length volumes - 1)
  ∧ Forall (λ v, lit 3 1 * v ≤ get volumes (length volumes - 1))
      (take 19 (last_n 20 volumes))
  ∧ (calculateVolumeSpike volumes 20).2 = true.
Proof.
  intros volumes.
  assert (20 ≤ length volumes)%nat as Hlen by (cbn; lia).
  assert (0 < get volumes (length volumes - 1)) as Hcurrent by done.
  assert (Forall (λ v, lit 3 1 * v ≤ get volumes (length volumes - 1))
            (take 19 (last_n 20 volumes))) as Hall
    by (repeat constructor; by vm_compute).
  split; [exact Hlen|]. split; [exact Hcurrent|]. split; [exact Hall|].
  exact (proj2 (proj2 (volume_spike_against_previous volumes)) Hlen Hcurrent Hall).
Defined.
End VolumeSpike.

(** ** The configuration manager *)

Section ConditionsManagerFacts.
Import Strategy ConditionsManager.
Implicit Types conditions : gmap string SymbolConditions.

Lemma select_assign strategy config c : select strategy (assign strategy config c) = config.
Proof. by destruct strategy. Qed.

Lemma select_assign_ne strategy strategy' config c :
  strategy' ≠ strategy → select strategy' (assign strategy config c) = select strategy' c.
Proof. by destruct strategy, strategy'. Qed.

Lemma at_symbol_ensure conditions symbol symbol' :
  at_symbol (ensure conditions symbol).1 symbol' = at_symbol conditions symbol'.
Proof.
  unfold ensure, at_symbol, initializeSymbol.
  destruct (conditions !! symbol) eqn:Hs; [done|]. cbn [fst].
  destruct (decide (symbol = symbol')) as [<-|Hne].
  - by rewrite lookup_insert_eq, Hs.
  - by rewrite lookup_insert_ne.
Qed.

Lemma getConditions_reads conditions symbol strategy :
  (getConditions conditions symbol strategy).2 = select strategy (at_symbol conditions symbol).
Proof.
  unfold getConditions. pose proof (at_symbol_ensure conditions symbol symbol) as H.
  destruct (ensure conditions symbol). cbn in *. by rewrite H.
Qed.

Lemma ensure_known conditions symbol c :
  conditions !! symbol = Some c → ensure conditions symbol = (conditions, []).
Proof. intros H. unfold ensure. by rewrite H. Qed.

Lemma getConditions_known conditions symbol strategy c :
  conditions !! symbol = Some c →
  getConditions conditions symbol strategy = (conditions, [], select strategy c).
Proof.
  intros H. unfold getConditions. rewrite (ensure_known _ _ _ H).
  unfold at_symbol. by rewrite H.
Qed.

Lemma getConditions_unknown conditions symbol strategy :
  conditions !! symbol = None →
  getConditions conditions symbol strategy
  = ((initializeSymbol conditions symbol).1,
     [Saved (initializeSymbol conditions symbol).1], getDefaultConditions strategy).
Proof.
  intros H. unfold getConditions, ensure. rewrite H.
  unfold initializeSymbol, at_symbol. cbn [fst]. rewrite lookup_insert_eq.
  by destruct strategy.
Qed.

(** X18.  [getConditions] never fails: for a symbol the manager has no
    entry for it installs the three defaults, saves once and returns the
    default of the strategy; asked again it returns the same configuration,
    changes nothing and saves nothing. *)
Theorem getConditions_defaults_on_first_access conditions symbol strategy :
  let first := getConditions conditions symbol strategy in
  let again := getConditions first.1.1 symbol strategy in
  (conditions !! symbol = None →
   first.2 = getDefaultConditions strategy
   ∧ first.1.2 = [Saved first.1.1]
   ∧ (∀ strategy', (getConditions first.1.1 symbol strategy').2
                   = getDefaultConditions strategy'))
  ∧ (∀ c, conditions !! symbol = Some c →
          first.2 = select strategy c ∧ first.1.1 = conditions ∧ first.1.2 = [])
  ∧ again.2 = first.2 ∧ again.1.1 = first.1.1 ∧ again.1.2 = [].
Proof.
  intros first again. subst again first.
  destruct (conditions !! symbol) as [c|] eqn:Hs.
  - rewrite (getConditions_known _ _ _ c Hs). cbn [fst snd].
    rewrite (getConditions_known _ _ _ c Hs). cbn [fst snd].
    split; [done|]. split; [|done]. by intros c' [= <-].
  - rewrite (getConditions_unknown _ _ _ Hs). cbn [fst snd].
    assert ((initializeSymbol conditions symbol).1 !! symbol
            = Some {| of_scalping := DEFAULT_SCALPING_CONDITIONS;
                      of_intraday := DEFAULT_INTRADAY_CONDITIONS;
                      of_pump := DEFAULT_PUMP_CONDITIONS |}) as Hinit
      by apply lookup_insert_eq.
    split; [|split; [done|]].
    + intros _. split; [done|]. split; [done|]. intros strategy'.
      rewrite (getConditions_known _ _ _ _ Hinit). by destruct strategy'.
    + rewrite (getConditions_known _ _ _ _ Hinit). cbn [fst snd].
      split; [by destruct strategy | done].
Qed.

Lemma getConditions_defaults_witness :
  (∅ : gmap string SymbolConditions) !! "BTCUSDT"%string = None
  ∧ (getConditions ∅ "BTCUSDT" intraday).2 = DEFAULT_INTRADAY_CONDITIONS.
Proof.
  split; [reflexivity|].
  exact (proj1 (proj1 (getConditions_defaults_on_first_access ∅ "BTCUSDT" intraday)
                  eq_refl)).
Defined.

Lemma at_symbol_update conditions symbol strategy partial symbol' :
  at_symbol (updateConditions conditions symbol strategy partial).1 symbol'
  = if decide (symbol' = symbol)
    then assign strategy (spread (select strategy (at_symbol conditions symbol)) partial)
           (at_symbol conditions symbol)
    else at_symbol conditions symbol'.
Proof.
  unfold updateConditions.
  pose proof (at_symbol_ensure conditions symbol) as Hensure.
  destruct (ensure conditions symbol) as [conditions1 writes]. cbn [fst] in *.
  unfold at_symbol at 1. case_decide as Hs.
  - subst. by rewrite lookup_insert_eq, Hensure.
  - rewrite lookup_insert_ne by done. apply Hensure.
Qed.

Lemma at_symbol_reset conditions symbol strategy symbol' :
  at_symbol (resetConditions conditions symbol strategy).1 symbol'
  = if decide (symbol' = symbol)
    then assign strategy (getDefaultConditions strategy) (at_symbol conditions symbol)
    else at_symbol conditions symbol'.
Proof.
  unfold resetConditions.
  pose proof (at_symbol_ensure conditions symbol) as Hensure.
  destruct (ensure conditions symbol) as [conditions1 writes]. cbn [fst] in *.
  unfold at_symbol at 1. case_decide as Hs.
  - subst. by rewrite lookup_insert_eq, Hensure.
  - rewrite lookup_insert_ne by done. apply Hensure.
Qed.

Lemma spread_whole old config : spread old (whole config) = config.
Proof. by destruct config. Qed.

(** X19.  After [updateConditions], [getConditions] for the same symbol and
    strategy returns the previous configuration (the default, for a symbol
    not seen before) overridden by the fields the update carries; an update
    carrying every field is read back as it is.  What [getConditions]
    returns for any other symbol, or for another strategy of the same
    symbol, is unchanged. *)
Theorem updateConditions_overrides_given_fields
    conditions symbol strategy (partial : PartialConfig)
    (config : StrategyConditionConfig) symbol' strategy' :
  let conditions' := (updateConditions conditions symbol strategy partial).1 in
  (getConditions conditions' symbol strategy).2
  = spread (getConditions conditions symbol strategy).2 partial
  ∧ (partial = whole config → (getConditions conditions' symbol strategy).2 = config)
  ∧ (symbol' ≠ symbol ∨ strategy' ≠ strategy →
     (getConditions conditions' symbol' strategy').2
     = (getConditions conditions symbol' strategy').2).
Proof.
  intros conditions'. subst conditions'.
  rewrite !getConditions_reads, !at_symbol_update.
  rewrite decide_True by done. rewrite select_assign.
  split; [done|]. split; [intros ->; apply spread_whole|].
  intros Hne. case_decide as Hs; [|done]. subst symbol'.
  destruct Hne as [Hne|Hne]; [done|]. by rewrite select_assign_ne.
Qed.

Lemma updateConditions_overrides_witness :
  let partial := whole DEFAULT_PUMP_CONDITIONS in
  let conditions' := (updateConditions ∅ "BTCUSDT" scalping partial).1 in
  (getConditions conditions' "BTCUSDT" scalping).2 = DEFAULT_PUMP_CONDITIONS
  ∧ ("BTCUSDT"%string ≠ "BTCUSDT"%string ∨ intraday ≠ scalping)
  ∧ (getConditions conditions' "BTCUSDT" intraday).2 = DEFAULT_INTRADAY_CONDITIONS.
Proof.
  intros partial conditions'.
  destruct (updateConditions_overrides_given_fields ∅ "BTCUSDT" scalping partial
              DEFAULT_PUMP_CONDITIONS "BTCUSDT" intraday) as (_ & Hwhole & Hother).
  assert ("BTCUSDT"%string ≠ "BTCUSDT"%string ∨ intraday ≠ scalping) as Hne
    by (by right).
  split; [exact (Hwhole eq_refl)|]. split; [exact Hne|].
  fold conditions' in Hother. by rewrite (Hother Hne).
Defined.

(** X20.  After [resetConditions], [getConditions] for the same symbol and
    strategy returns the strategy's default, whatever was configured
    before; every other symbol and strategy reads as before. *)
Theorem resetConditions_restores_default
    conditions symbol strategy symbol' strategy' :
  let conditions' := (resetConditions conditions symbol strategy).1 in
  (getConditions conditions' symbol strategy).2 = getDefaultConditions strategy
  ∧ (symbol' ≠ symbol ∨ strategy' ≠ strategy →
     (getConditions conditions' symbol' strategy').2
     = (getConditions conditions symbol' strategy').2).
Proof.
  intros conditions'. subst conditions'.
  rewrite !getConditions_reads, !at_symbol_reset.
  rewrite decide_True by done. rewrite select_assign. split; [done|].
  intros Hne. case_decide as Hs; [|done]. subst symbol'.
  destruct Hne as [Hne|Hne]; [done|]. by rewrite select_assign_ne.
Qed.

Lemma resetConditions_restores_default_witness :
  let configured :=
    (updateConditions ∅ "BTCUSDT" scalping (whole DEFAULT_PUMP_CONDITIONS)).1 in
  let conditions' := (resetConditions configured "BTCUSDT" intraday).1 in
  ("BTCUSDT"%string ≠ "BTCUSDT"%string ∨ scalping ≠ intraday)
  ∧ (getConditions conditions' "BTCUSDT" scalping).2
    = (getConditions configured "BTCUSDT" scalping).2.
Proof.
  intros configured conditions'.
  assert ("BTCUSDT"%string ≠ "BTCUSDT"%string ∨ scalping ≠ intraday) as Hne
    by (by right).
  split; [exact Hne|].
  exact (proj2 (resetConditions_restores_default configured "BTCUSDT" intraday
                  "BTCUSDT" scalping) Hne).
Defined.
End ConditionsManagerFacts.

(** ** The logger *)

Section LoggerFacts.
Import FileLogger.
Context {Data : Type}.

Lemma log_drop now lvl msg (d : option Data) logs :
  (log Data now lvl msg d logs).1
  = let all := logs ++ [entry_of Data (now, lvl, msg, d)] in
    drop (length all - maxLogs) all.
Proof.
  unfold log, entry_of. cbn [fst snd]. case_decide as Hlen; [done|].
  cbn zeta. apply Nat.nlt_ge, Nat.sub_0_le in Hlen. by rewrite Hlen.
Qed.

Lemma drop_snoc_drop {A} (l : list A) x n :
  (1 ≤ n)%nat →
  let kept := drop (length l - n) l in
  drop (length (kept ++ [x]) - n) (kept ++ [x])
  = drop (length (l ++ [x]) - n) (l ++ [x]).
Proof.
  intros Hn. cbn zeta. rewrite !length_app, length_drop. cbn [length].
  destruct (decide (length l ≤ n)%nat).
  - replace (length l - n)%nat with 0%nat by lia. by rewrite drop_0, Nat.sub_0_r.
  - rewrite drop_app_le by (rewrite length_drop; lia).
    rewrite drop_drop. rewrite (drop_app_le l) by lia. do 2 f_equal. lia.
Qed.

(** X21.  Starting from at most 1000 retained entries, after any sequence
    of [log] calls the logger retains exactly the last 1000 of all entries,
    old and new, in the order they were logged: never more than 1000, the
    newest entry last, and only the oldest ones dropped. *)
Theorem logger_keeps_latest_1000 (calls : list (Call Data)) (logs : list (LogEntry Data)) :
  (length logs ≤ maxLogs)%nat →
  let all := logs ++ map (entry_of Data) calls in
  logAll Data calls logs = drop (length all - maxLogs) all
  ∧ (length (logAll Data calls logs) ≤ maxLogs)%nat
  ∧ (calls ≠ [] → last (logAll Data calls logs) = entry_of Data <$> last calls).
Proof.
  intros Hlen all.
  assert (logAll Data calls logs = drop (length all - maxLogs) all) as Hall.
  { subst all. induction calls as [|c calls IH] using rev_ind.
    - cbn. rewrite app_nil_r. by replace (length logs - maxLogs)%nat with 0%nat by lia.
    - unfold logAll in *. rewrite fold_left_app. cbn [fold_left].
      destruct c as [[[now lvl] msg] d]. cbn [fst snd].
      rewrite log_drop, IH. cbn zeta. rewrite map_app, app_assoc. cbn [map].
      apply drop_snoc_drop. unfold maxLogs. lia. }
  split; [exact Hall|]. split.
  - rewrite Hall, length_drop. unfold maxLogs. lia.
  - intros Hne. rewrite Hall. subst all.
    destruct calls as [|c calls] using rev_ind; [done|].
    rewrite map_app, app_assoc. cbn [map].
    rewrite last_snoc. rewrite last_lookup, lookup_drop, length_drop.
    rewrite !length_app. cbn [length].
    replace (length logs + length (map (entry_of Data) calls) + 1
             - maxLogs
             + pred (length logs + length (map (entry_of Data) calls) + 1
                     - (length logs + length (map (entry_of Data) calls) + 1 - maxLogs)))%nat
      with (length (logs ++ map (entry_of Data) calls)).
    + by rewrite list_lookup_middle.
    + rewrite length_app. unfold maxLogs. lia.
Qed.
End LoggerFacts.

Lemma logger_keeps_latest_1000_witness :
  let calls : list (FileLogger.Call unit) :=
    [("t1", FileLogger.INFO, "a", None); ("t2", FileLogger.WARN, "b", Some tt)]%string in
  (length ([] : list (FileLogger.LogEntry unit)) ≤ FileLogger.maxLogs)%nat
  ∧ FileLogger.logAll unit calls [] = map (FileLogger.entry_of unit) calls.
Proof.
  intros calls.
  assert (length ([] : list (FileLogger.LogEntry unit)) ≤ FileLogger.maxLogs)%nat as Hlen
    by (cbn; lia).
  split; [exact Hlen|].
  exact (proj1 (logger_keeps_latest_1000 calls [] Hlen)).
Defined.

(** ** The indicator history *)

Section HistoryFacts.
Import JS IndicatorHistory.
Local Open Scope Qc_scope.
Implicit Types history : gmap string (list IndicatorSnapshot).

Lemma addSnapshot_history now cleanNow symbol indicators history :
  addSnapshot now cleanNow symbol indicators history
  = <[symbol :=
        List.filter
          (λ snapshot, bool_decide (cleanNow - lit 60000 1 ≤ timestamp snapshot))
          (default [] (history !! symbol) ++ [{| timestamp := now; values := indicators |}])]>
      history.
Proof.
  unfold addSnapshot, cleanOldSnapshots.
  assert (maxHistorySeconds * lit 1000 1 = lit 60000 1) as -> by (by apply Qc_is_canon).
  destruct (history !! symbol) as [l|] eqn:Hs; cbn [default from_option].
  - rewrite Hs, lookup_insert_eq. cbn. by rewrite insert_insert_eq.
  - rewrite !lookup_insert_eq. cbn. by rewrite !insert_insert_eq.
Qed.

(** X22.  When the clean-up's clock reading is less than 60 seconds after
    the snapshot's time stamp, the history of the symbol after [addSnapshot]
    is what was there before, without the snapshots older than 60 seconds,
    followed by the new snapshot: the new snapshot is the latest, nothing kept
    is older than 60 seconds, and the histories of other symbols are
    untouched. *)
Theorem addSnapshot_keeps_last_minute
    (now cleanNow : Qc) (symbol other : string) (indicators : Strategy.IndicatorValues)
    history :
  cleanNow - lit 60000 1 ≤ now →
  let history' := addSnapshot now cleanNow symbol indicators history in
  let added := {| timestamp := now; values := indicators |} in
  getHistory history' symbol
  = List.filter
      (λ snapshot, bool_decide (cleanNow - lit 60000 1 ≤ timestamp snapshot))
      (getHistory history symbol) ++ [added]%list
  ∧ getLatest history' symbol = Some added
  ∧ Forall (λ snapshot, cleanNow - lit 60000 1 ≤ timestamp snapshot)
      (getHistory history' symbol)
  ∧ (other ≠ symbol → history' !! other = history !! other).
Proof.
  intros Hclock history' added. subst history'. rewrite addSnapshot_history.
  unfold getHistory, getLatest. rewrite lookup_insert_eq. cbn [default from_option id].
  rewrite List.filter_app. cbn [List.filter timestamp].
  rewrite bool_decide_eq_true_2 by done.
  fold added. split; [done|]. split; [|split].
  - rewrite decide_True by (rewrite length_app; cbn; lia). apply last_snoc.
  - apply Forall_app. split.
    + apply Forall_forall. intros s Hs. apply list_elem_of_In, filter_In in Hs as [_ Hs].
      by apply bool_decide_eq_true_1 in Hs.
    + by repeat constructor.
  - intros Hne. by rewrite lookup_insert_ne.
Qed.

Lemma addSnapshot_keeps_last_minute_witness :
  let old := {| timestamp := lit 1000 1; values := Samples.snapshot (lit 1 1) |} in
  let history : gmap string (list IndicatorSnapshot) := {[ "BTCUSDT"%string := [old]%list ]} in
  let history' :=
    addSnapshot (lit 70000 1) (lit 70001 1) "BTCUSDT" (Samples.snapshot (lit 2 1)) history in
  lit 70001 1 - lit 60000 1 ≤ lit 70000 1
  ∧ "ETHUSDT"%string ≠ "BTCUSDT"%string
  ∧ history' !! "ETHUSDT"%string = None
  ∧ length (getHistory history' "BTCUSDT") = 1%nat.
Proof.
  intros old history history'.
  assert (lit 70001 1 - lit 60000 1 ≤ lit 70000 1) as Hclock by done.
  assert ("ETHUSDT"%string ≠ "BTCUSDT"%string) as Hne by done.
  destruct (addSnapshot_keeps_last_minute (lit 70000 1) (lit 70001 1) "BTCUSDT" "ETHUSDT"
              (Samples.snapshot (lit 2 1)) history Hclock) as (Hhist & _ & _ & Hother).
  split; [exact Hclock|]. split; [exact Hne|]. split; [exact (Hother Hne)|].
  fold history' in Hhist. rewrite Hhist. by vm_compute.
Defined.

(** X23.  [getHistoryRange] returns, in their order, exactly the stored
    snapshots of the symbol that are not older than [secondsAgo] seconds;
    when its window reaches back at least to the cutoff of the clean-up of
    the last [addSnapshot], and that clean-up kept the snapshot it followed,
    the window holds the whole history. *)
Theorem getHistoryRange_selects_recent
    (now cleanNow asked : Qc) (symbol : string) (secondsAgo : Qc) history
    (indicators : Strategy.IndicatorValues) (snapshot : IndicatorSnapshot) :
  (snapshot ∈ getHistoryRange asked history symbol secondsAgo
   ↔ snapshot ∈ getHistory history symbol
     ∧ asked - secondsAgo * lit 1000 1 ≤ timestamp snapshot)
  ∧ (cleanNow - lit 60000 1 ≤ now →
     asked - secondsAgo * lit 1000 1 ≤ cleanNow - lit 60000 1 →
     getHistoryRange asked (addSnapshot now cleanNow symbol indicators history)
       symbol secondsAgo
     = getHistory (addSnapshot now cleanNow symbol indicators history) symbol).
Proof.
  split.
  - unfold getHistoryRange, getHistory.
    rewrite !list_elem_of_In, filter_In. by rewrite bool_decide_eq_true.
  - intros Hclock Hsec. rewrite addSnapshot_history. unfold getHistoryRange, getHistory.
    rewrite lookup_insert_eq. cbn [default from_option id].
    apply forallb_filter_id. apply forallb_forall. intros s Hs.
    apply filter_In in Hs as [_ Hs]. apply bool_decide_eq_true_1 in Hs.
    apply bool_decide_eq_true_2. by eapply Qcle_trans.
Qed.

Lemma getHistoryRange_selects_recent_witness :
  let history :=
    addSnapshot (lit 5000 1) (lit 5001 1) "BTCUSDT" (Samples.snapshot (lit 1 1)) ∅ in
  lit 5001 1 - lit 60000 1 ≤ lit 5000 1
  ∧ lit 5002 1 - lit 90 1 * lit 1000 1 ≤ lit 5001 1 - lit 60000 1
  ∧ getHistoryRange (lit 5002 1) history "BTCUSDT" (lit 90 1) = getHistory history "BTCUSDT".
Proof.
  intros history.
  assert (lit 5001 1 - lit 60000 1 ≤ lit 5000 1) as Hclock by done.
  assert (lit 5002 1 - lit 90 1 * lit 1000 1 ≤ lit 5001 1 - lit 60000 1) as Hsec by done.
  split; [exact Hclock|]. split; [exact Hsec|].
  exact (proj2 (getHistoryRange_selects_recent (lit 5000 1) (lit 5001 1) (lit 5002 1)
                  "BTCUSDT" (lit 90 1) ∅ (Samples.snapshot (lit 1 1))
                  {| timestamp := 0; values := Samples.snapshot (lit 1 1) |}) Hclock Hsec).
Defined.
End HistoryFacts.

Section TrendFacts.
Import JS IndicatorHistory.
Local Open Scope Qc_scope.
Implicit Types history : gmap string (list IndicatorSnapshot).

Lemma percent_of_no_change (oldest : Qc) :
  ¬ lit 1 10 < Qcabs (0 / Qcabs oldest * lit 100 1).
Proof.
  unfold Qcdiv. rewrite !Qcmult_0_l.
  replace (Qcabs 0) with (Q2Qc 0) by (by apply Qc_is_canon). by vm_compute.
Qed.

(** X24.  [getIndicatorTrend] reports the change from the oldest to the
    newest snapshot in range.  It says up only when the newest value is
    above the oldest and down only when it is below; with fewer than two
    snapshots in range, a non-numeric indicator or an oldest value of 0 it
    says neutral with a change percentage of 0. *)
Theorem getIndicatorTrend_direction
    (now : Qc) history (symbol : string) (indicator : Indicator) (secondsBack : Qc) :
  let snapshots := getHistoryRange now history symbol secondsBack in
  let result := getIndicatorTrend now history symbol indicator secondsBack in
  (trend result = up → 0 < change result)
  ∧ (trend result = down → change result < 0)
  ∧ ((length snapshots < 2)%nat → result = {| trend := neutral; change := 0; changePercent := 0 |})
  ∧ (∀ oldest newest,
       (2 ≤ length snapshots)%nat →
       number_at indicator <$> (values <$> head snapshots) = Some (Some oldest) →
       number_at indicator <$> (values <$> last snapshots) = Some (Some newest) →
       change result = newest - oldest
       ∧ (oldest = 0 → trend result = neutral ∧ changePercent result = 0))
  ∧ ((∀ v, number_at indicator v = None) →
     result = {| trend := neutral; change := 0; changePercent := 0 |}).
Proof.
  intros snapshots result. subst result. unfold getIndicatorTrend. fold snapshots.
  destruct (decide (length snapshots < 2)%nat) as [Hshort|Hlong].
  { repeat split; try done. intros; lia. }
  destruct (number_at indicator <$> (values <$> head snapshots)) as [[oldest|]|] eqn:Hhead;
    [|repeat split; try done; intros; (lia || done)..].
  destruct (number_at indicator <$> (values <$> last snapshots)) as [[newest|]|];
    [|repeat split; try done; intros; (lia || done)..].
  cbn [trend change changePercent].
  split; [|split; [|split; [intros; lia|split]]]; cycle 3.
  { intros Hnone. destruct (head snapshots) as [s|]; [|done].
    cbn in Hhead. by rewrite Hnone in Hhead. }
  - repeat case_decide; done.
  - destruct (decide (oldest = 0)) as [->|Hold].
    + rewrite decide_False by (by vm_compute). done.
    + case_decide as Hbig; [|done]. case_decide as Hpos; [done|]. intros _.
      destruct (decide (newest - oldest < 0)) as [Hneg|Hneg]; [done|].
      exfalso. rewrite (not_pos_not_neg _ Hpos Hneg) in Hbig.
      by apply percent_of_no_change in Hbig.
  - intros o n _ [= <-] [= <-]. split; [done|]. intros ->.
    destruct (decide (Q2Qc 0 = 0)) as [_|?]; [|done].
    rewrite decide_False by (by vm_compute). done.
Qed.

Lemma getIndicatorTrend_direction_witness :
  let older := {| timestamp := lit 1000 1; values := Samples.snapshot (lit 100 1) |} in
  let newer := {| timestamp := lit 2000 1; values := Samples.snapshot (lit 101 1) |} in
  let history : gmap string (list IndicatorSnapshot) :=
    {[ "BTCUSDT"%string := [older; newer]%list ]} in
  let result := getIndicatorTrend (lit 3000 1) history "BTCUSDT" k_volume (lit 30 1) in
  trend result = up ∧ 0 < change result.
Proof.
  intros older newer history result.
  assert (trend result = up) as Hup by (by vm_compute).
  split; [exact Hup|].
  exact (proj1 (getIndicatorTrend_direction (lit 3000 1) history "BTCUSDT" k_volume (lit 30 1))
           Hup).
Defined.
End TrendFacts.

Section ClosestSnapshot.
Import JS IndicatorHistory.
Local Open Scope Qc_scope.
Implicit Types history : gmap string (list IndicatorSnapshot).

Lemma closest_fold (targetTime : Qc) (l : list IndicatorSnapshot)
    (best : option (Qc * IndicatorSnapshot)) (seen : list IndicatorSnapshot) :
  (best = None → seen = []) →
  (∀ d s, best = Some (d, s) →
     s ∈ seen ∧ d = Qcabs (timestamp s - targetTime)
     ∧ Forall (λ s', d ≤ Qcabs (timestamp s' - targetTime)) seen) →
  let result :=
    fold_left
      (λ (best : option (Qc * IndicatorSnapshot)) snapshot,
         let diff := Qcabs (timestamp snapshot - targetTime) in
         match best with
         | None => Some (diff, snapshot)
         | Some (smallestDiff, closest) =>
             if decide (diff < smallestDiff) then Some (diff, snapshot) else best
         end) l best in
  (result = None → seen ++ l = [])
  ∧ (∀ d s, result = Some (d, s) →
       s ∈ seen ++ l ∧ d = Qcabs (timestamp s - targetTime)
       ∧ Forall (λ s', d ≤ Qcabs (timestamp s' - targetTime)) (seen ++ l)).
Proof.
  revert best seen. induction l as [|x l IH]; intros best seen Hnone Hsome; cbn zeta.
  - cbn [fold_left]. rewrite app_nil_r. split; [done|]. exact Hsome.
  - cbn [fold_left].
    replace (seen ++ x :: l) with ((seen ++ [x]) ++ l) by (by rewrite <- app_assoc).
    apply IH.
    + destruct best as [[d s]|]; [|done]. by case_decide.
    + intros d s Hbest. destruct best as [[d0 s0]|].
      * destruct (Hsome d0 s0 eq_refl) as (Hin & Hd & Hall).
        case_decide as Hlt; injection Hbest as <- <-.
        -- split; [apply elem_of_app; right; by apply list_elem_of_singleton|].
           split; [done|]. apply Forall_app. split; [|by repeat constructor].
           eapply Forall_impl; [exact Hall|]. intros s' Hs'. cbn in Hs'.
           eapply Qcle_trans; [|exact Hs']. by apply Qclt_le_weak.
        -- split; [apply elem_of_app; by left|]. split; [done|].
           apply Forall_app. split; [done|]. repeat constructor.
           by apply Qcnot_lt_le.
      * injection Hbest as <- <-. rewrite (Hnone eq_refl). cbn.
        split; [by apply list_elem_of_singleton|]. split; [done|]. by repeat constructor.
Qed.

(** X25.  [getSnapshotFromSecondsAgo] returns null exactly when the symbol
    has no snapshot; otherwise it returns a stored snapshot whose timestamp
    is at least as close to the target time as that of every other stored
    snapshot of the symbol. *)
Theorem getSnapshotFromSecondsAgo_is_closest
    (now : Qc) history (symbol : string) (secondsAgo : Qc) :
  let targetTime := now - secondsAgo * lit 1000 1 in
  let found := getSnapshotFromSecondsAgo now history symbol secondsAgo in
  (found = None ↔ getHistory history symbol = [])
  ∧ (∀ s, found = Some s →
       s ∈ getHistory history symbol
       ∧ Forall (λ s', Qcabs (timestamp s - targetTime) ≤ Qcabs (timestamp s' - targetTime))
           (getHistory history symbol)).
Proof.
  intros targetTime found. subst found. unfold getSnapshotFromSecondsAgo, getHistory.
  fold targetTime.
  destruct (closest_fold targetTime (default [] (history !! symbol)) None [])
    as [Hnone Hsome]; [done | done |]. cbn zeta in Hnone, Hsome. cbn [app] in *.
  destruct (fold_left _ _ _) as [[d s]|] eqn:Hfold; cbn.
  - split.
    + split; [done|]. intros Hnil. rewrite Hnil in Hfold. done.
    + intros s' [= <-]. destruct (Hsome d s eq_refl) as (Hin & -> & Hall). done.
  - split; [|done]. split; [intros _; by apply Hnone | done].
Qed.

Lemma getSnapshotFromSecondsAgo_is_closest_witness :
  let older := {| timestamp := lit 1000 1; values := Samples.snapshot (lit 100 1) |} in
  let newer := {| timestamp := lit 2000 1; values := Samples.snapshot (lit 101 1) |} in
  let history : gmap string (list IndicatorSnapshot) :=
    {[ "BTCUSDT"%string := [older; newer]%list ]} in
  getSnapshotFromSecondsAgo (lit 3000 1) history "BTCUSDT" (lit 1 1) = Some newer
  ∧ newer ∈ getHistory history "BTCUSDT".
Proof.
  intros older newer history.
  assert (getSnapshotFromSecondsAgo (lit 3000 1) history "BTCUSDT" (lit 1 1) = Some newer)
    as Hfound by (by vm_compute).
  split; [exact Hfound|].
  exact (proj1 (proj2 (getSnapshotFromSecondsAgo_is_closest (lit 3000 1) history "BTCUSDT"
                         (lit 1 1)) newer Hfound)).
Defined.
End ClosestSnapshot.

Section StatsFacts.
Import JS IndicatorHistory Spec.
Local Open Scope Qc_scope.
Implicit Types history : gmap string (list IndicatorSnapshot).
Variable sqrt : Qc → Qc.

Lemma Math_min_least (first : Qc) (rest : list Qc) :
  Math_min first rest ∈ first :: rest
  ∧ Forall (λ v, Math_min first rest ≤ v) (first :: rest).
Proof.
  unfold Math_min. revert first. induction rest as [|x rest IH]; intros first; cbn [fold_left].
  - split; [by apply list_elem_of_singleton|]. repeat constructor. apply Qcle_refl.
  - case_decide as Hlt.
    + destruct (IH x) as [Hin Hall]. split; [by right|].
      apply Forall_cons in Hall as [Hx Hrest]. constructor; [|by constructor].
      eapply Qcle_trans; [exact Hx|]. by apply Qclt_le_weak.
    + destruct (IH first) as [Hin Hall]. apply Forall_cons in Hall as [Hfirst Hrest].
      split.
      * apply elem_of_cons in Hin as [->|Hin]; [by left|]. right. by right.
      * constructor; [done|]. constructor; [|done].
        eapply Qcle_trans; [exact Hfirst|]. by apply Qcnot_lt_le.
Qed.

Lemma Math_max_greatest (first : Qc) (rest : list Qc) :
  Math_max first rest ∈ first :: rest
  ∧ Forall (λ v, v ≤ Math_max first rest) (first :: rest).
Proof.
  unfold Math_max. revert first. induction rest as [|x rest IH]; intros first; cbn [fold_left].
  - split; [by apply list_elem_of_singleton|]. repeat constructor. apply Qcle_refl.
  - case_decide as Hlt.
    + destruct (IH x) as [Hin Hall]. split; [by right|].
      apply Forall_cons in Hall as [Hx Hrest]. constructor; [|by constructor].
      eapply Qcle_trans; [|exact Hx]. by apply Qclt_le_weak.
    + destruct (IH first) as [Hin Hall]. apply Forall_cons in Hall as [Hfirst Hrest].
      split.
      * apply elem_of_cons in Hin as [->|Hin]; [by left|]. right. by right.
      * constructor; [done|]. constructor; [|done].
        eapply Qcle_trans; [|exact Hfirst]. by apply Qcnot_lt_le.
Qed.

(** X26.  Over the numeric values of an indicator in the window,
    [getIndicatorStats] reports a minimum and a maximum that are values of
    the window and bound every value, and the last value as the current
    one; with no value in the window, or for an indicator that is not a
    number, every field is 0. *)
Theorem getIndicatorStats_bounds
    (now : Qc) history (symbol : string) (indicator : Indicator) (secondsBack : Qc) :
  let values := numbers indicator (getHistoryRange now history symbol secondsBack) in
  let stats := getIndicatorStats sqrt now history symbol indicator secondsBack in
  (values = [] →
   stats = {| min := 0; max := 0; avg := 0; current := 0; volatility := 0 |})
  ∧ (values ≠ [] →
     min stats ∈ values ∧ max stats ∈ values
     ∧ Forall (λ v, min stats ≤ v ≤ max stats) values
     ∧ last values = Some (current stats))
  ∧ ((∀ v, number_at indicator v = None) →
     stats = {| min := 0; max := 0; avg := 0; current := 0; volatility := 0 |}).
Proof.
  intros values stats. subst stats. unfold getIndicatorStats. fold values.
  assert ((∀ v, number_at indicator v = None) → values = []) as Hnumbers.
  { intros Hnone. subst values. unfold numbers.
    induction (getHistoryRange now history symbol secondsBack) as [|s l IH]; [done|].
    cbn. by rewrite Hnone. }
  destruct values as [|first rest] eqn:Hvalues; [by repeat split|].
  split; [done|]. split; [|intros Hnone; by apply Hnumbers in Hnone].
  intros _. cbn [min max avg current].
  destruct (Math_min_least first rest) as [Hmin_in Hmin].
  destruct (Math_max_greatest first rest) as [Hmax_in Hmax].
  split; [done|]. split; [done|]. split.
  - apply Forall_forall. intros v Hv. split.
    + by eapply Forall_forall in Hmin.
    + by eapply Forall_forall in Hmax.
  - rewrite get_last.
    destruct (last (first :: rest)) as [x|] eqn:Hlast; [done|].
    by apply last_None in Hlast.
Qed.
End StatsFacts.

Section StatsSample.
Import JS IndicatorHistory.
Local Open Scope Qc_scope.

Lemma getIndicatorStats_bounds_witness :
  let older := {| timestamp := lit 1000 1; values := Samples.snapshot (lit 100 1) |} in
  let newer := {| timestamp := lit 2000 1; values := Samples.snapshot (lit 300 1) |} in
  let history : gmap string (list IndicatorSnapshot) :=
    {[ "BTCUSDT"%string := [older; newer]%list ]} in
  let values := numbers k_volume (getHistoryRange (lit 3000 1) history "BTCUSDT" (lit 60 1)) in
  let stats := getIndicatorStats (λ x, x) (lit 3000 1) history "BTCUSDT" k_volume (lit 60 1) in
  values ≠ [] ∧ Forall (λ v, min stats ≤ v ≤ max stats) values.
Proof.
  intros older newer history values stats.
  assert (values ≠ []) as Hne by (by vm_compute).
  split; [exact Hne|].
  exact (proj1 (proj2 (proj2
           (proj1 (proj2
              (getIndicatorStats_bounds (λ x, x) (lit 3000 1) history "BTCUSDT" k_volume
                 (lit 60 1)))
              Hne)))).
Defined.
End StatsSample.

Section StabilityFacts.
Import JS IndicatorHistory Spec.
Local Open Scope Qc_scope.
Implicit Types history : gmap string (list IndicatorSnapshot).

Lemma length_numbers (indicator : Indicator) (snapshots : list IndicatorSnapshot) :
  (length (numbers indicator snapshots) ≤ length snapshots)%nat.
Proof.
  unfold numbers. induction snapshots as [|s l IH]; [done|].
  cbn. destruct (number_at indicator (values s)); cbn; lia.
Qed.

(** X27.  [isIndicatorStable] is false with fewer than three numeric values
    in the window and when their average is 0.  When it is true there are at
    least three values, their average is not 0 and every value deviates from
    it by at most [thresholdPercent] percent.  Three or more equal non-zero
    values are stable at a threshold of 1 percent, the default, or more. *)
Theorem isIndicatorStable_within_threshold
    (now : Qc) history (symbol : string) (indicator : Indicator)
    (secondsBack thresholdPercent : Qc) :
  let values := numbers indicator (getHistoryRange now history symbol secondsBack) in
  let average := reduce (λ sum val, sum + val) 0 values / of_nat (length values) in
  let stable := isIndicatorStable now history symbol indicator secondsBack thresholdPercent in
  ((length values < 3)%nat → stable = false)
  ∧ (average = 0 → stable = false)
  ∧ (stable = true →
     (3 ≤ length values)%nat ∧ average ≠ 0
     ∧ Forall (λ value, Qcabs ((value - average) / average) * lit 100 1 ≤ thresholdPercent)
         values)
  ∧ (∀ c, (3 ≤ length values)%nat → c ≠ 0 → lit 1 1 ≤ thresholdPercent →
       Forall (λ value, value = c) values → stable = true).
Proof.
  intros values average stable. subst stable. unfold isIndicatorStable. fold values.
  fold average.
  pose proof (length_numbers indicator (getHistoryRange now history symbol secondsBack))
    as Hlen. fold values in Hlen.
  split; [|split; [|split]].
  - intros Hshort. repeat case_decide; (done || lia).
  - intros Hzero. repeat case_decide; done.
  - repeat case_decide; try done. intros Hall.
    split; [lia|]. split; [done|].
    apply Forall_forall. intros value Hvalue.
    apply list_elem_of_In in Hvalue.
    eapply forallb_forall in Hall; [|exact Hvalue]. cbn zeta in Hall.
    by apply bool_decide_eq_true_1 in Hall.
  - intros c Hlong Hc Hthreshold Hsame.
    assert (average = c) as Haverage.
    { subst average. rewrite (reduce_sum (λ x, x)), Qcplus_0_l, map_id.
      assert (Forall (λ p, c ≤ p ≤ c) values) as Hrange.
      { eapply Forall_impl; [exact Hsame|]. intros v ->. split; apply Qcle_refl. }
      apply sum_range in Hrange as [Hlo Hhi].
      assert (1 ≤ length values)%nat as Hpos by lia. apply of_nat_pos in Hpos.
      destruct (div_range (sum values) (of_nat (length values)) c c) as [H1 H2];
        [qc2q; lra | done | done |].
      by apply Qcle_antisym. }
    rewrite decide_False by lia. rewrite decide_False by lia.
    rewrite decide_False by (by rewrite Haverage).
    apply forallb_forall. intros value Hvalue. apply list_elem_of_In in Hvalue.
    eapply Forall_forall in Hsame; [|exact Hvalue]. cbn beta in Hsame. subst value.
    apply bool_decide_eq_true_2. rewrite Haverage.
    assert (c - c = 0) as -> by (apply Qc_is_canon; qc2q; ring).
    unfold Qcdiv. rewrite Qcmult_0_l.
    assert (Qcabs 0 = 0) as -> by (by apply Qc_is_canon).
    rewrite Qcmult_0_l. eapply Qcle_trans; [|exact Hthreshold]. done.
Qed.

Lemma isIndicatorStable_within_threshold_witness :
  let snapshot (t : Qc) := {| timestamp := t; values := Samples.snapshot (lit 100 1) |} in
  let history : gmap string (list IndicatorSnapshot) :=
    {[ "BTCUSDT"%string := [snapshot (lit 1000 1); snapshot (lit 2000 1);
                            snapshot (lit 3000 1)]%list ]} in
  let values := numbers k_volume (getHistoryRange (lit 4000 1) history "BTCUSDT" (lit 15 1)) in
  (3 ≤ length values)%nat ∧ lit 100 1 ≠ 0 ∧ lit 1 1 ≤ lit 1 1
  ∧ Forall (λ value, value = lit 100 1) values
  ∧ isIndicatorStable (lit 4000 1) history "BTCUSDT" k_volume (lit 15 1) (lit 1 1) = true.
Proof.
  intros snapshot history values.
  assert (3 ≤ length values)%nat as Hlong by (vm_compute; lia).
  assert (lit 100 1 ≠ 0) as Hc by done.
  assert (lit 1 1 ≤ lit 1 1) as Hthreshold by done.
  assert (Forall (λ value, value = lit 100 1) values) as Hsame
    by (repeat constructor; by apply Qc_is_canon).
  split; [exact Hlong|]. split; [exact Hc|]. split; [exact Hthreshold|].
  split; [exact Hsame|].
  exact (proj2 (proj2 (proj2
           (isIndicatorStable_within_threshold (lit 4000 1) history "BTCUSDT" k_volume
              (lit 15 1) (lit 1 1))))
           (lit 100 1) Hlong Hc Hthreshold Hsame).
Defined.
End StabilityFacts.
